(** * Fetch interceptor and OAuth callback flow: a shallow embedding

    The development follows two source files of the repository:

    - the fetch interceptor ([src/unnamed/part_001]): the single-slot API
      error file, the session-scoped tool metadata store, the request
      rewriter ([addMetadataToAllTools], [injectMetadataIntoHistory]) and
      the SSE metadata-stripping transform, and the cURL rendering of a
      request for the debug log;
    - the OAuth controller ([src/unnamed/part_000]): the callback request
      handler and the port-binding loop of [startCallbackServer],
      [authenticate], and the discovery of the server metadata.

    Conventions of the embedding:

    - Text is a [string] that holds the bytes of the text in UTF-8.  On
      well-formed UTF-8 the stream decoder and encoder are the identity,
      and a streaming decoder hands over the decoded text in pieces, which
      is one more way of cutting the text into chunks; the chunks of the
      transform are the decoded pieces.  White space and line terminators
      are those of JavaScript, recognised by their encodings.
    - A value that comes out of [JSON.parse] is a [json]; numbers are
      integers; an object keeps its keys in insertion order.  Where the
      code casts a parsed value to a declared type (the request body, the
      files of the two stores), the value is read at that type.
    - An exception is [None].  A state that several calls share is passed
      explicitly: the file system, the module variables of a process, the
      variables of one stream.
    - [Date.now()] is an argument. *)

From Stdlib Require Import ZArith String Ascii List Bool Lia.
From stdpp Require Import base option list gmap strings pretty.

Local Open Scope Z_scope.
Set Warnings "-register-all".

(** ** JavaScript values and the few primitives of the language the code uses *)

Module Js.

Inductive json : Type :=
| JNull
| JBool (b : bool)
| JNum (n : Z)
| JStr (s : string)
| JArr (xs : list json)
| JObj (fields : list (string * json)).

(** A JavaScript object used as a record: own string keys in insertion
    order, at most one binding per key. *)
Abbreviation obj A := (list (string * A)).

Fixpoint obj_get {A} (k : string) (o : obj A) : option A :=
  match o with
  | [] => None
  | (k', v) :: o' => if String.eqb k k' then Some v else obj_get k o'
  end.

(** [k in o] *)
Definition obj_has {A} (k : string) (o : obj A) : bool :=
  match obj_get k o with Some _ => true | None => false end.

(** [o[k] = v]: an existing key keeps its place, a new key goes last. *)
Fixpoint obj_set {A} (k : string) (v : A) (o : obj A) : obj A :=
  match o with
  | [] => [(k, v)]
  | (k', v') :: o' =>
      if String.eqb k k' then (k', v) :: o' else (k', v') :: obj_set k v o'
  end.

(** [delete o[k]] *)
Fixpoint obj_delete {A} (k : string) (o : obj A) : obj A :=
  match o with
  | [] => []
  | (k', v') :: o' =>
      if String.eqb k k' then obj_delete k o' else (k', v') :: obj_delete k o'
  end.

(** Truthiness of a value ([if (v)], [!v], [a || b]). *)
Definition truthy (v : json) : bool :=
  match v with
  | JNull => false
  | JBool b => b
  | JNum n => negb (n =? 0)
  | JStr s => negb (String.eqb s "")
  | JArr _ | JObj _ => true
  end.

Definition str_truthy (s : string) : bool := negb (String.eqb s "").

Definition opt_str_truthy (s : option string) : bool :=
  match s with Some t => str_truthy t | None => false end.

Definition opt_truthy (v : option json) : bool :=
  match v with Some j => truthy j | None => false end.

(** [base.k]: [None] is the TypeError raised when [base] is [null];
    [Some None] is [undefined].  None of the keys the code reads
    ([content_block], [type], [id], [name], [index], [delta],
    [partial_json], [_intent], [_displayName], [error], [message]) is a
    property of strings, numbers, booleans or arrays. *)
Definition get_prop (base : json) (k : string) : option (option json) :=
  match base with
  | JNull => None
  | JObj fs => Some (obj_get k fs)
  | _ => Some None
  end.

(** [base?.k] on a possibly undefined base. *)
Definition get_prop_opt (base : option json) (k : string) : option json :=
  match base with
  | Some (JObj fs) => obj_get k fs
  | _ => None
  end.

(** [a === 'literal'] *)
Definition is_str (v : option json) (lit : string) : bool :=
  match v with Some (JStr s) => String.eqb s lit | _ => false end.

(** [typeof v === 'string' ? v : undefined] *)
Definition as_string (v : option json) : option string :=
  match v with Some (JStr s) => Some s | _ => None end.

Fixpoint join (sep : string) (l : list string) : string :=
  match l with
  | [] => ""
  | [s] => s
  | s :: l' => s +:+ sep +:+ join sep l'
  end.

(** String coercion of a value, as performed by [s += v]. *)
Fixpoint to_string (v : json) : string :=
  match v with
  | JNull => "null"
  | JBool true => "true"
  | JBool false => "false"
  | JNum n => pretty n
  | JStr s => s
  | JArr xs =>
      join "," (List.map (fun x => match x with JNull => "" | _ => to_string x end) xs)
  | JObj _ => "[object Object]"
  end.

(** SameValueZero, the key equality of [Map]: primitives by value, arrays
    and objects by identity; two values parsed at different times are
    never the same object. *)
Definition same_value_zero (a b : option json) : bool :=
  match a, b with
  | None, None => true
  | Some JNull, Some JNull => true
  | Some (JBool x), Some (JBool y) => Bool.eqb x y
  | Some (JNum x), Some (JNum y) => x =? y
  | Some (JStr x), Some (JStr y) => String.eqb x y
  | _, _ => false
  end.

(** *** Strings *)

(** White space is what [s.trim()] removes and what the class [\s]
    matches: the code points U+0009 to U+000D, U+0020, U+00A0, U+1680,
    U+2000 to U+200A, U+2028, U+2029, U+202F, U+205F, U+3000 and U+FEFF.
    In UTF-8 the first six are one byte, U+00A0 is two bytes and the
    others are three. *)
Definition is_space (c : ascii) : bool := Ascii.is_space c.

Definition space2 (a b : ascii) : bool :=
  Ascii.eqb a "194" && Ascii.eqb b "160".                            (* U+00A0 *)

(** The line and paragraph separators U+2028 and U+2029. *)
Definition line_separator (a b c : ascii) : bool :=
  Ascii.eqb a "226" && Ascii.eqb b "128" && (Ascii.eqb c "168" || Ascii.eqb c "169").

Definition space3 (a b c : ascii) : bool :=
  (Ascii.eqb a "225" && Ascii.eqb b "154" && Ascii.eqb c "128")       (* U+1680 *)
  || (Ascii.eqb a "226" && Ascii.eqb b "128"
      && (128 <=? N_of_ascii c)%N && (N_of_ascii c <=? 138)%N)        (* U+2000 to U+200A *)
  || line_separator a b c
  || (Ascii.eqb a "226" && Ascii.eqb b "128" && Ascii.eqb c "175")    (* U+202F *)
  || (Ascii.eqb a "226" && Ascii.eqb b "129" && Ascii.eqb c "159")    (* U+205F *)
  || (Ascii.eqb a "227" && Ascii.eqb b "128" && Ascii.eqb c "128")    (* U+3000 *)
  || (Ascii.eqb a "239" && Ascii.eqb b "187" && Ascii.eqb c "191").   (* U+FEFF *)

(** What follows the white-space code point at the head of a text. *)
Definition after_space (s : string) : option string :=
  match s with
  | EmptyString => None
  | String a r1 =>
      if is_space a then Some r1
      else
        match r1 with
        | EmptyString => None
        | String b r2 =>
            if space2 a b then Some r2
            else
              match r2 with
              | EmptyString => None
              | String c r3 => if space3 a b c then Some r3 else None
              end
        end
  end.

Fixpoint trim_start (s : string) : string :=
  match s with
  | EmptyString => EmptyString
  | String a r1 =>
      if is_space a then trim_start r1
      else
        match r1 with
        | EmptyString => s
        | String b r2 =>
            if space2 a b then trim_start r2
            else
              match r2 with
              | EmptyString => s
              | String c r3 => if space3 a b c then trim_start r3 else s
              end
        end
  end.

(** The text consists of white space only. *)
Fixpoint all_space (s : string) : bool :=
  match s with
  | EmptyString => true
  | String a r1 =>
      if is_space a then all_space r1
      else
        match r1 with
        | EmptyString => false
        | String b r2 =>
            if space2 a b then all_space r2
            else
              match r2 with
              | EmptyString => false
              | String c r3 => if space3 a b c then all_space r3 else false
              end
        end
  end.

(** Removes trailing white space: the text is cut where what is left of it
    is white space only. *)
Fixpoint trim_end (s : string) : string :=
  match s with
  | EmptyString => EmptyString
  | String c s' => if all_space s then EmptyString else String c (trim_end s')
  end.

(** [s.trim()] *)
Definition trim (s : string) : string := trim_end (trim_start s).

(** [s.split('\n')]: never empty; the last element is the text after the
    last newline. *)
Fixpoint split_lines (s : string) : list string :=
  match s with
  | EmptyString => [EmptyString]
  | String c s' =>
      if Ascii.eqb c "010" then EmptyString :: split_lines s'
      else match split_lines s' with
           | l :: ls => String c l :: ls
           | [] => [String c EmptyString]
           end
  end.

(** [lines.pop()]: the remaining array and the removed last element. *)
Fixpoint pop {A} (l : list A) : list A * option A :=
  match l with
  | [] => ([], None)
  | [x] => ([], Some x)
  | x :: l' => let '(r, last) := pop l' in (x :: r, last)
  end.

(** [s.startsWith(p)] *)
Definition starts_with (p s : string) : bool := String.prefix p s.

(** [s.includes(p)] *)
Fixpoint includes (p s : string) : bool :=
  String.prefix p s ||
  match s with
  | EmptyString => false
  | String _ s' => includes p s'
  end.

Fixpoint drop_prefix (p s : string) : option string :=
  match p, s with
  | EmptyString, _ => Some s
  | String a p', String b s' => if Ascii.eqb a b then drop_prefix p' s' else None
  | String _ _, EmptyString => None
  end.

(** The line terminators, which the regular expression atom [.] does not
    match: LF, CR, U+2028 and U+2029. *)
Definition is_line_terminator (c : ascii) : bool :=
  Ascii.eqb c "010" || Ascii.eqb c "013".

Definition starts_line_separator (s : string) : bool :=
  match s with
  | String a (String b (String c _)) => line_separator a b c
  | _ => false
  end.

Fixpoint no_line_terminator (s : string) : bool :=
  match s with
  | EmptyString => true
  | String c s' =>
      negb (is_line_terminator c) && negb (starts_line_separator s)
      && no_line_terminator s'
  end.

(** The last code point of a text that consists of white space only. *)
Fixpoint last_space (s : string) : option string :=
  match s with
  | EmptyString => None
  | String a r1 =>
      if is_space a then
        match r1 with
        | EmptyString => Some s
        | String _ _ => last_space r1
        end
      else
        match r1 with
        | EmptyString => None
        | String b r2 =>
            if space2 a b then
              match r2 with
              | EmptyString => Some s
              | String _ _ => last_space r2
              end
            else
              match r2 with
              | EmptyString => None
              | String c r3 =>
                  if space3 a b c then
                    match r3 with
                    | EmptyString => Some s
                    | String _ _ => last_space r3
                    end
                  else None
              end
        end
  end.

(** [s.match(/^<field>\s*(.+)$/)] and its first group, for a literal
    [field]: the greedy [\s*] takes all white space after the field name,
    and [(.+)] must then cover a non-empty rest without line terminator.
    Giving white space back to the group can only help when the rest is
    empty, and then the group is the last white space given back, which
    must be no line terminator. *)
Definition match_field (field : string) (s : string) : option string :=
  match drop_prefix field s with
  | None => None
  | Some after =>
      match trim_start after with
      | EmptyString =>
          match last_space after with
          | Some w => if no_line_terminator w then Some w else None
          | None => None
          end
      | rest => if no_line_terminator rest then Some rest else None
      end
  end.

(** Well-formed UTF-8: the text that a decoder hands over as it came and
    that an encoder writes back byte for byte. *)
Definition in_range (lo hi : N) (c : ascii) : bool :=
  ((lo <=? N_of_ascii c) && (N_of_ascii c <=? hi))%N.

Definition three_bytes (a b : ascii) : bool :=
  (Ascii.eqb a "224" && in_range 160 191 b)
  || (in_range 225 236 a && in_range 128 191 b)
  || (Ascii.eqb a "237" && in_range 128 159 b)
  || (in_range 238 239 a && in_range 128 191 b).

Definition four_bytes (a b : ascii) : bool :=
  (Ascii.eqb a "240" && in_range 144 191 b)
  || (in_range 241 243 a && in_range 128 191 b)
  || (Ascii.eqb a "244" && in_range 128 143 b).

Fixpoint well_formed (s : string) : bool :=
  match s with
  | EmptyString => true
  | String a r1 =>
      if in_range 0 127 a then well_formed r1
      else
        match r1 with
        | EmptyString => false
        | String b r2 =>
            if in_range 194 223 a then in_range 128 191 b && well_formed r2
            else
              match r2 with
              | EmptyString => false
              | String c r3 =>
                  if three_bytes a b then in_range 128 191 c && well_formed r3
                  else
                    match r3 with
                    | EmptyString => false
                    | String d r4 =>
                        four_bytes a b && in_range 128 191 c && in_range 128 191 d
                        && well_formed r4
                    end
              end
        end
  end.

(** The double quote character, and text literals written with an
    apostrophe for the double quote and a vertical bar for the newline. *)
Definition dquote : ascii := "034".

Fixpoint lit (s : string) : string :=
  match s with
  | EmptyString => EmptyString
  | String c s' =>
      String (if Ascii.eqb c "'" then dquote else if Ascii.eqb c "|" then "010"%char else c)
             (lit s')
  end.

End Js.

(** ** The JSON built-ins

    [JSON.parse] and [JSON.stringify] belong to the runtime, not to the
    repository.  The code is embedded over an arbitrary runtime, and the
    statements that do not depend on what the built-ins return are proved
    for every runtime.  [Json.reference] is an executable runtime for the
    ASCII, integer fragment of JSON, used where a statement is about
    concrete text. *)

Module Json.
Import Js.

Class Runtime := {
  JSON_parse : string -> option json;      (* [None]: SyntaxError *)
  JSON_stringify : json -> string
}.

(** The runtime reads back the value it printed. *)
Definition round_trips `{Runtime} (j : json) : Prop :=
  JSON_parse (JSON_stringify j) = Some j.

(** *** Printing *)

Definition hex_digit (n : N) : ascii :=
  match n with
  | 0 => "0" | 1 => "1" | 2 => "2" | 3 => "3" | 4 => "4" | 5 => "5" | 6 => "6"
  | 7 => "7" | 8 => "8" | 9 => "9" | 10 => "a" | 11 => "b" | 12 => "c"
  | 13 => "d" | 14 => "e" | _ => "f"
  end%N%char.

Definition escape_char (c : ascii) : string :=
  if Ascii.eqb c dquote then String "\" (String dquote "")
  else if Ascii.eqb c "\" then "\\"
  else if Ascii.eqb c "008" then "\b"
  else if Ascii.eqb c "012" then "\f"
  else if Ascii.eqb c "010" then "\n"
  else if Ascii.eqb c "013" then "\r"
  else if Ascii.eqb c "009" then "\t"
  else if (N_of_ascii c <? 32)%N then
    "\u00" +:+ String (hex_digit (N_of_ascii c / 16)) (String (hex_digit (N_of_ascii c mod 16)) "")
  else String c "".

Fixpoint escape (s : string) : string :=
  match s with
  | EmptyString => EmptyString
  | String c s' => escape_char c +:+ escape s'
  end.

Definition quote (s : string) : string :=
  String dquote (escape s +:+ String dquote "").

Fixpoint stringify (j : json) : string :=
  match j with
  | JNull => "null"
  | JBool true => "true"
  | JBool false => "false"
  | JNum n => pretty n
  | JStr s => quote s
  | JArr xs => "[" +:+ join "," (List.map stringify xs) +:+ "]"
  | JObj fs =>
      "{" +:+ join "," (List.map (fun kv => quote (fst kv) +:+ ":" +:+ stringify (snd kv)) fs) +:+ "}"
  end.

(** *** Parsing *)

Definition is_json_ws (c : ascii) : bool :=
  Ascii.eqb c " " || Ascii.eqb c "009" || Ascii.eqb c "010" || Ascii.eqb c "013".

Fixpoint skip_ws (s : string) : string :=
  match s with
  | String c s' => if is_json_ws c then skip_ws s' else s
  | EmptyString => EmptyString
  end.

Definition hex_value (c : ascii) : option N :=
  let n := N_of_ascii c in
  if (48 <=? n)%N && (n <=? 57)%N then Some (n - 48)%N
  else if (97 <=? n)%N && (n <=? 102)%N then Some (n - 87)%N
  else if (65 <=? n)%N && (n <=? 70)%N then Some (n - 55)%N
  else None.

(** The body of a string literal, after the opening quote: the decoded text
    and the input after the closing quote.  Escapes above U+007F are not in
    the fragment. *)
Fixpoint parse_string_body (s : string) : option (string * string) :=
  match s with
  | EmptyString => None
  | String c s1 =>
      if Ascii.eqb c dquote then Some (EmptyString, s1)
      else if Ascii.eqb c "\" then
        match s1 with
        | String e s2 =>
            let simple (d : ascii) :=
              match parse_string_body s2 with
              | Some (t, r) => Some (String d t, r)
              | None => None
              end in
            if Ascii.eqb e dquote then simple dquote
            else if Ascii.eqb e "\" then simple "\"%char
            else if Ascii.eqb e "/" then simple "/"%char
            else if Ascii.eqb e "b" then simple "008"%char
            else if Ascii.eqb e "f" then simple "012"%char
            else if Ascii.eqb e "n" then simple "010"%char
            else if Ascii.eqb e "r" then simple "013"%char
            else if Ascii.eqb e "t" then simple "009"%char
            else if Ascii.eqb e "u" then
              match s2 with
              | String h1 (String h2 (String h3 (String h4 s3))) =>
                  match hex_value h1, hex_value h2, hex_value h3, hex_value h4 with
                  | Some 0%N, Some 0%N, Some a, Some b =>
                      if (a <? 8)%N then
                        match parse_string_body s3 with
                        | Some (t, r) => Some (String (ascii_of_N (16 * a + b)) t, r)
                        | None => None
                        end
                      else None
                  | _, _, _, _ => None
                  end
              | _ => None
              end
            else None
        | EmptyString => None
        end
      else if (N_of_ascii c <? 32)%N then None
      else
        match parse_string_body s1 with
        | Some (t, r) => Some (String c t, r)
        | None => None
        end
  end.

Definition digit_value (c : ascii) : option Z :=
  let n := N_of_ascii c in
  if (48 <=? n)%N && (n <=? 57)%N then Some (Z.of_N (n - 48)) else None.

Fixpoint parse_digits (acc : Z) (s : string) : Z * string :=
  match s with
  | String c s' =>
      match digit_value c with
      | Some d => parse_digits (10 * acc + d) s'
      | None => (acc, s)
      end
  | EmptyString => (acc, s)
  end.

Definition is_fraction_or_exponent (s : string) : bool :=
  match s with
  | String c _ => Ascii.eqb c "." || Ascii.eqb c "e" || Ascii.eqb c "E"
  | EmptyString => false
  end.

(** An integer literal without sign; a leading zero stands alone. *)
Definition parse_nat_literal (s : string) : option (Z * string) :=
  match s with
  | String c s' =>
      match digit_value c with
      | Some 0 =>
          match s' with
          | String c' _ =>
              match digit_value c' with
              | Some _ => None
              | None => if is_fraction_or_exponent s' then None else Some (0, s')
              end
          | EmptyString => Some (0, s')
          end
      | Some d =>
          let '(n, r) := parse_digits d s' in
          if is_fraction_or_exponent r then None else Some (n, r)
      | None => None
      end
  | EmptyString => None
  end.

Fixpoint parse_value (fuel : nat) (s : string) : option (json * string) :=
  match fuel with
  | O => None
  | S fuel' =>
      match skip_ws s with
      | String c r =>
          if Ascii.eqb c "{" then
            match skip_ws r with
            | String "}" r' => Some (JObj [], r')
            | _ => parse_members fuel' [] r
            end
          else if Ascii.eqb c "[" then
            match skip_ws r with
            | String "]" r' => Some (JArr [], r')
            | _ => parse_elements fuel' [] r
            end
          else if Ascii.eqb c dquote then
            match parse_string_body r with
            | Some (t, r') => Some (JStr t, r')
            | None => None
            end
          else if Ascii.eqb c "-" then
            match parse_nat_literal r with
            | Some (n, r') => Some (JNum (- n), r')
            | None => None
            end
          else
            match drop_prefix "true" (String c r), drop_prefix "false" (String c r),
                  drop_prefix "null" (String c r) with
            | Some r', _, _ => Some (JBool true, r')
            | _, Some r', _ => Some (JBool false, r')
            | _, _, Some r' => Some (JNull, r')
            | None, None, None =>
                match parse_nat_literal (String c r) with
                | Some (n, r') => Some (JNum n, r')
                | None => None
                end
            end
      | EmptyString => None
      end
  end
with parse_elements (fuel : nat) (acc : list json) (s : string) : option (json * string) :=
  match fuel with
  | O => None
  | S fuel' =>
      match parse_value fuel' s with
      | Some (v, r) =>
          match skip_ws r with
          | String "," r' => parse_elements fuel' (acc ++ [v]) r'
          | String "]" r' => Some (JArr (acc ++ [v]), r')
          | _ => None
          end
      | None => None
      end
  end
with parse_members (fuel : nat) (acc : list (string * json)) (s : string) : option (json * string) :=
  match fuel with
  | O => None
  | S fuel' =>
      match skip_ws s with
      | String "034" r =>
          match parse_string_body r with
          | Some (k, r1) =>
              match skip_ws r1 with
              | String ":" r2 =>
                  match parse_value fuel' r2 with
                  | Some (v, r3) =>
                      match skip_ws r3 with
                      | String "," r4 => parse_members fuel' (obj_set k v acc) r4
                      | String "}" r4 => Some (JObj (obj_set k v acc), r4)
                      | _ => None
                      end
                  | None => None
                  end
              | _ => None
              end
          | None => None
          end
      | _ => None
      end
  end.

Definition parse (s : string) : option json :=
  match parse_value (2 * String.length s + 2) s with
  | Some (v, r) => match skip_ws r with EmptyString => Some v | _ => None end
  | None => None
  end.

#[export] Instance reference : Runtime := {|
  JSON_parse := parse;
  JSON_stringify := stringify
|}.

End Json.

(** ** The file system and the process environment

    Files are shared by all processes; a write or a removal can be refused
    (permissions, missing directory), which the code answers by carrying on. *)

Module Fs.

Record FileSystem := {
  files : gmap string string;
  write_denied : gset string;    (* paths at which no file can be put *)
  unlink_denied : gset string    (* paths whose file cannot be removed *)
}.

Definition with_files (fs : FileSystem) (f : gmap string string) : FileSystem :=
  {| files := f; write_denied := write_denied fs; unlink_denied := unlink_denied fs |}.

Definition existsSync (fs : FileSystem) (p : string) : bool :=
  bool_decide (is_Some (files fs !! p)).

(** [None]: the call throws. *)
Definition readFileSync (fs : FileSystem) (p : string) : option string :=
  files fs !! p.

Definition writeFileSync (fs : FileSystem) (p content : string) : option FileSystem :=
  if decide (p ∈ write_denied fs) then None
  else Some (with_files fs (<[p := content]> (files fs))).

Definition renameSync (fs : FileSystem) (old new : string) : option FileSystem :=
  match files fs !! old with
  | Some content =>
      if decide (new ∈ write_denied fs) then None
      else Some (with_files fs (<[new := content]> (delete old (files fs))))
  | None => None
  end.

Definition unlinkSync (fs : FileSystem) (p : string) : option FileSystem :=
  match files fs !! p with
  | Some _ =>
      if decide (p ∈ unlink_denied fs) then None
      else Some (with_files fs (delete p (files fs)))
  | None => None
  end.

(** [join(a, b)] for a directory [a] written without trailing separator. *)
Definition join (a b : string) : string := a +:+ "/" +:+ b.

Record ProcessEnv := {
  homedir : string;
  CRAFT_SESSION_DIR : option string;
  ANTHROPIC_BASE_URL : option string
}.

End Fs.

(** ** The single-slot API error file *)

Module ApiError.
Import Js Json Fs.

Record LastApiError := {
  status : Z;
  statusText : string;
  message : json;      (* declared [string]; holds what the provider sent *)
  timestamp : Z
}.

Definition error_to_json (e : LastApiError) : json :=
  JObj [("status", JNum (status e)); ("statusText", JStr (statusText e));
        ("message", message e); ("timestamp", JNum (timestamp e))].

Definition ERROR_FILE (env : ProcessEnv) : string :=
  join (join (homedir env) ".craft-agent") "api-error.json".

Definition MAX_ERROR_AGE_MS : Z := 5 * 60 * 1000.

Section WithRuntime.
Context `{Runtime}.

(** The parsed content of the file; the file is removed once it has been
    read and parsed, and a failing removal is ignored. *)
Definition getStoredError (env : ProcessEnv) (fs : FileSystem) : option json * FileSystem :=
  if negb (existsSync fs (ERROR_FILE env)) then (None, fs)
  else
    match readFileSync fs (ERROR_FILE env) with
    | None => (None, fs)
    | Some content =>
        match JSON_parse content with
        | None => (None, fs)
        | Some error =>
            match unlinkSync fs (ERROR_FILE env) with
            | Some fs' => (Some error, fs')
            | None => (Some error, fs)
            end
        end
    end.

Definition setStoredError (env : ProcessEnv) (error : option LastApiError) (fs : FileSystem)
  : FileSystem :=
  match error with
  | Some e =>
      match writeFileSync fs (ERROR_FILE env) (JSON_stringify (error_to_json e)) with
      | Some fs' => fs'
      | None => fs
      end
  | None =>
      match unlinkSync fs (ERROR_FILE env) with
      | Some fs' => fs'
      | None => fs
      end
  end.

(** [Date.now() - error.timestamp < MAX_ERROR_AGE_MS], with the timestamp
    read at its declared type, a number, which is what [logResponse]
    writes.  Of a file that holds another timestamp the error counts as
    stale, as it does in JavaScript whenever the difference is NaN. *)
Definition is_fresh (now : Z) (error : json) : bool :=
  match get_prop_opt (Some error) "timestamp" with
  | Some (JNum t) => now - t <? MAX_ERROR_AGE_MS
  | _ => false
  end.

Definition getLastApiError (env : ProcessEnv) (now : Z) (fs : FileSystem)
  : option json * FileSystem :=
  let '(error, fs') := getStoredError env fs in
  match error with
  | Some e => if truthy e && is_fresh now e then (Some e, fs') else (None, fs')
  | None => (None, fs')
  end.

Definition clearLastApiError (env : ProcessEnv) (fs : FileSystem) : FileSystem :=
  setStoredError env None fs.

Definition getConfiguredBaseUrl (env : ProcessEnv) : string :=
  match ANTHROPIC_BASE_URL env with
  | Some u => if str_truthy (trim u) then trim u else "https://api.anthropic.com"
  | None => "https://api.anthropic.com"
  end.

Definition isApiMessagesUrl (env : ProcessEnv) (url : string) : bool :=
  starts_with (getConfiguredBaseUrl env) url && includes "/messages" url.

Definition shouldCaptureApiErrors (env : ProcessEnv) (url : string) : bool :=
  isApiMessagesUrl env url.

(** The message [logResponse] extracts from the body text of an error
    response. *)
Definition errorMessage (statusText errorText : string) : json :=
  let raw := if str_truthy errorText then JStr errorText else JStr statusText in
  match JSON_parse errorText with
  | None => raw
  | Some errorJson =>
      match get_prop errorJson "error" with
      | None => raw
      | Some err =>
          match get_prop_opt err "message" with
          | Some m => if truthy m then m else
              match get_prop_opt (Some errorJson) "message" with
              | Some m' => if truthy m' then m' else JStr statusText
              | None => JStr statusText
              end
          | None =>
              match get_prop_opt (Some errorJson) "message" with
              | Some m' => if truthy m' then m' else JStr statusText
              | None => JStr statusText
              end
          end
      end
  end.

(** The error capture of [logResponse]; [body] is [None] when reading the
    cloned body fails. *)
Definition capturedError (status : Z) (statusText : string) (body : option string) (now : Z)
  : LastApiError :=
  match body with
  | Some errorText =>
      {| status := status; statusText := statusText;
         message := errorMessage statusText errorText; timestamp := now |}
  | None =>
      {| status := status; statusText := statusText;
         message := JStr statusText; timestamp := now |}
  end.

Definition logResponse (env : ProcessEnv) (url : string) (status : Z) (statusText : string)
    (body : option string) (now : Z) (fs : FileSystem) : FileSystem :=
  if shouldCaptureApiErrors env url && (400 <=? status) then
    setStoredError env (Some (capturedError status statusText body now)) fs
  else fs.

End WithRuntime.
End ApiError.

(** ** The tool metadata store

    The in-memory [Map] and the record that shadows the session file are
    finite maps from ids to metadata.  The record is a plain JavaScript
    object, which shows at two places: reading a name that
    [Object.prototype] defines ([record_get]) and assigning to the name
    [__proto__] ([record_set]). *)

Module MetadataStore.
Import Js Json Fs.

Record ToolMetadata := {
  intent : option string;
  displayName : option string;
  timestamp : Z
}.

(** The module-level variables of one process. *)
Record ModuleState := {
  _sessionDir : option string;
  _metadataMap : gmap string ToolMetadata;
  _fileCache : option (gmap string ToolMetadata)
}.

(** The state at module load: [process.env.CRAFT_SESSION_DIR || null]. *)
Definition initial (env : ProcessEnv) : ModuleState :=
  {| _sessionDir :=
       match CRAFT_SESSION_DIR env with
       | Some d => if str_truthy d then Some d else None
       | None => None
       end;
     _metadataMap := ∅;
     _fileCache := None |}.

(** The JSON form of the file: undefined fields are left out when printed.
    The file is read at its declared type, [Record<string, ToolMetadata>]:
    an object whose members are objects with a number as [timestamp] and,
    where present, a string as [intent] and as [displayName].  The store
    writes nothing else.  A file with other JSON in it is read as if it
    could not be parsed; [typed_file] below names the files for which this
    is the reading of the code. *)
Definition optional_field (k : string) (v : option string) : obj json :=
  match v with Some s => [(k, JStr s)] | None => [] end.

Definition typed_field (k : string) (fs : obj json) : bool :=
  match obj_get k fs with
  | None | Some (JStr _) => true
  | Some _ => false
  end.

Definition meta_to_json (m : ToolMetadata) : json :=
  JObj (optional_field "intent" (intent m) ++ optional_field "displayName" (displayName m)
        ++ [("timestamp", JNum (timestamp m))]).

Definition meta_of_json (j : json) : option ToolMetadata :=
  match j with
  | JObj fs =>
      match obj_get "timestamp" fs with
      | Some (JNum t) =>
          if typed_field "intent" fs && typed_field "displayName" fs then
            Some {| intent := as_string (obj_get "intent" fs);
                    displayName := as_string (obj_get "displayName" fs);
                    timestamp := t |}
          else None
      | _ => None
      end
  | _ => None
  end.

(** [Record<string, ToolMetadata>] is a finite map; its entries are printed
    in the order [map_to_list] lists them. *)
Definition record_to_json (r : gmap string ToolMetadata) : json :=
  JObj (List.map (fun kv => (fst kv, meta_to_json (snd kv))) (map_to_list r)).

Fixpoint entries_of_json (fs : obj json) : option (gmap string ToolMetadata) :=
  match fs with
  | [] => Some ∅
  | (k, v) :: fs' =>
      match meta_of_json v, entries_of_json fs' with
      | Some m, Some r => Some (<[k := m]> r)
      | _, _ => None
      end
  end.

Definition record_of_json (j : json) : option (gmap string ToolMetadata) :=
  match j with
  | JObj fs => entries_of_json fs
  | _ => None
  end.

(** The record is a plain object.  It inherits the members of
    [Object.prototype]: reading one of their names from a record that has
    no entry of that name gives the inherited member, not [undefined]. *)
Definition inherited_names : list string :=
  ["constructor"; "hasOwnProperty"; "isPrototypeOf"; "propertyIsEnumerable";
   "toLocaleString"; "toString"; "valueOf"; "__proto__";
   "__defineGetter__"; "__defineSetter__"; "__lookupGetter__"; "__lookupSetter__"].

Definition inherited_name (k : string) : bool :=
  existsb (String.eqb k) inherited_names.

(** What [record[k]] evaluates to when it is not [undefined]. *)
Inductive Stored : Type :=
| Entry (m : ToolMetadata)       (* an entry of the record *)
| Inherited (name : string).     (* the member [name] of [Object.prototype] *)

(** [record[k]] *)
Definition record_get (k : string) (r : gmap string ToolMetadata) : option Stored :=
  match r !! k with
  | Some m => Some (Entry m)
  | None => if inherited_name k then Some (Inherited k) else None
  end.

(** [record[k] = m].  The name [__proto__] is an accessor of
    [Object.prototype]: unless the record has an entry of that name (which
    [JSON.parse] creates when the file has one), the assignment changes
    the prototype of the record and adds no entry.  Nothing reads a member
    of the record through the prototype afterwards: the record is only
    assigned to, deleted from and printed. *)
Definition record_set (k : string) (m : ToolMetadata) (r : gmap string ToolMetadata)
  : gmap string ToolMetadata :=
  match r !! k with
  | Some _ => <[k := m]> r
  | None => if String.eqb k "__proto__" then r else <[k := m]> r
  end.

Definition getMetadataFilePath (st : ModuleState) : option string :=
  match _sessionDir st with
  | Some d => if str_truthy d then Some (join d "tool-metadata.json") else None
  | None => None
  end.

Section WithRuntime.
Context `{Runtime}.

Definition readMetadataFile (st : ModuleState) (fs : FileSystem) : gmap string ToolMetadata :=
  match getMetadataFilePath st with
  | None => ∅
  | Some filePath =>
      match readFileSync fs filePath with
      | None => ∅
      | Some data =>
          match JSON_parse data with
          | Some j => match record_of_json j with Some r => r | None => ∅ end
          | None => ∅
          end
      end
  end.

(** The session file is absent, is not JSON, or holds a record of metadata
    entries. *)
Definition typed_file (st : ModuleState) (fs : FileSystem) : bool :=
  match getMetadataFilePath st with
  | None => true
  | Some filePath =>
      match readFileSync fs filePath with
      | None => true
      | Some data =>
          match JSON_parse data with
          | Some j => match record_of_json j with Some _ => true | None => false end
          | None => true
          end
      end
  end.

Definition writeMetadataFile (allMetadata : gmap string ToolMetadata) (st : ModuleState)
    (fs : FileSystem) : FileSystem :=
  match getMetadataFilePath st with
  | None => fs
  | Some filePath =>
      let tmpPath := filePath +:+ ".tmp" in
      match writeFileSync fs tmpPath (JSON_stringify (record_to_json allMetadata)) with
      | None => fs
      | Some fs1 =>
          match renameSync fs1 tmpPath filePath with
          | None => fs1
          | Some fs2 => fs2
          end
      end
  end.

Definition setSessionDir (dir : string) (st : ModuleState) (fs : FileSystem) : ModuleState :=
  let st1 := {| _sessionDir := Some dir; _metadataMap := ∅; _fileCache := None |} in
  let all := readMetadataFile st1 fs in
  {| _sessionDir := Some dir;
     _metadataMap := foldl (fun m kv => <[fst kv := snd kv]> m) ∅ (map_to_list all);
     _fileCache := None |}.

Definition set (toolUseId : string) (metadata : ToolMetadata) (st : ModuleState)
    (fs : FileSystem) : ModuleState * FileSystem :=
  let cache :=
    match _fileCache st with
    | Some c => c
    | None => readMetadataFile st fs
    end in
  let cache' := record_set toolUseId metadata cache in
  ({| _sessionDir := _sessionDir st;
      _metadataMap := <[toolUseId := metadata]> (_metadataMap st);
      _fileCache := Some cache' |},
   writeMetadataFile cache' st fs).

Definition get (toolUseId : string) (st : ModuleState) (fs : FileSystem)
  : option Stored :=
  match _metadataMap st !! toolUseId with
  | Some inMemory => Some (Entry inMemory)
  | None => record_get toolUseId (readMetadataFile st fs)
  end.

Definition delete (toolUseId : string) (st : ModuleState) (fs : FileSystem)
  : ModuleState * FileSystem :=
  let cache :=
    match _fileCache st with
    | Some c => c
    | None => readMetadataFile st fs
    end in
  let cache' := base.delete toolUseId cache in
  ({| _sessionDir := _sessionDir st;
      _metadataMap := base.delete toolUseId (_metadataMap st);
      _fileCache := Some cache' |},
   writeMetadataFile cache' st fs).

Definition size (st : ModuleState) : nat := base.size (_metadataMap st).

End WithRuntime.
End MetadataStore.

(** ** The request rewriter

    The request body is the parsed JSON of the outgoing request, read at the
    types the two functions cast it to; the members they do not look at are
    carried along in the [_rest] fields. *)

Module Rewriter.
Import Js Json Fs MetadataStore.

Record InputSchema := {
  properties : option (obj json);
  required : option (list string);
  schema_rest : obj json
}.

Record Tool := {
  tool_name : option string;
  input_schema : option InputSchema;
  tool_rest : obj json
}.

Record Block := {
  block_type : option string;
  block_id : option string;
  block_input : option (obj json);
  block_rest : obj json
}.

Record Message := {
  role : option string;
  content : option (list Block);     (* [None] when it is not an array *)
  message_rest : obj json
}.

Record Body := {
  tools : option (list Tool);        (* [None] when missing or not an array *)
  messages : option (list Message);
  body_rest : obj json
}.

Definition TOOL_METADATA_FOR_ALL_TOOLS : bool := false.

Definition intent_schema : json :=
  JObj [("type", JStr "string");
        ("description",
         JStr "REQUIRED: Describe what you are trying to accomplish with this tool call (1-2 sentences)")].

Definition displayName_schema : json :=
  JObj [("type", JStr "string");
        ("description",
         JStr (lit "REQUIRED: Human-friendly name for this action (2-4 words, e.g., 'List Folders', 'Search Documents', 'Create Task')"))].

(** [l.includes(x)] *)
Definition list_includes (x : string) (l : list string) : bool :=
  existsb (String.eqb x) l.

(** [tool.name?.startsWith('mcp__')] *)
Definition isMcpTool (tool : Tool) : bool :=
  match tool_name tool with
  | Some n => starts_with "mcp__" n
  | None => false
  end.

(** The body of the loop over the tools: the tool after the pass, and
    whether it counts in [modifiedCount]. *)
Definition addMetadataToTool (tool : Tool) : Tool * bool :=
  if negb TOOL_METADATA_FOR_ALL_TOOLS && negb (isMcpTool tool) then (tool, false)
  else
    match input_schema tool with
    | Some schema =>
        match properties schema with
        | Some props =>
            let '(props1, modified1) :=
              if negb (obj_has "_intent" props)
              then (obj_set "_intent" intent_schema props, true)
              else (props, false) in
            let '(props2, modified2) :=
              if negb (obj_has "_displayName" props1)
              then (obj_set "_displayName" displayName_schema props1, true)
              else (props1, modified1) in
            if modified2 then
              let currentRequired := match required schema with Some r => r | None => [] end in
              let newRequired1 :=
                if negb (list_includes "_intent" currentRequired)
                then currentRequired ++ ["_intent"] else currentRequired in
              let newRequired2 :=
                if negb (list_includes "_displayName" currentRequired)
                then newRequired1 ++ ["_displayName"] else newRequired1 in
              ({| tool_name := tool_name tool;
                  input_schema := Some {| properties := Some props2;
                                          required := Some newRequired2;
                                          schema_rest := schema_rest schema |};
                  tool_rest := tool_rest tool |}, true)
            else (tool, false)
        | None => (tool, false)
        end
    | None => (tool, false)
    end.

Fixpoint addMetadataToTools (ts : list Tool) : list Tool * nat :=
  match ts with
  | [] => ([], O)
  | tool :: ts' =>
      let '(tool', modified) := addMetadataToTool tool in
      let '(rest, n) := addMetadataToTools ts' in
      (tool' :: rest, if modified then S n else n)
  end.

Definition addMetadataToAllTools (body : Body) : Body :=
  match tools body with
  | None => body
  | Some ts =>
      {| tools := Some (fst (addMetadataToTools ts));
         messages := messages body;
         body_rest := body_rest body |}
  end.

(** The number the pass reports in its log line. *)
Definition modifiedCount (body : Body) : nat :=
  match tools body with
  | None => O
  | Some ts => snd (addMetadataToTools ts)
  end.

Section WithRuntime.
Context `{Runtime}.

(** The state of the scan: the lazily read file and [injectedCount]. *)
Record ScanState := {
  fileMetadata : option (gmap string ToolMetadata);
  injectedCount : nat
}.

Definition has_metadata (input : obj json) : bool :=
  obj_has "_intent" input || obj_has "_displayName" input.

(** The stored metadata of an id: the in-memory map first, then the file,
    which is read at most once during a scan. *)
Definition lookupStored (st : ModuleState) (fs : FileSystem)
    (file : option (gmap string ToolMetadata)) (id : string)
  : option Stored * option (gmap string ToolMetadata) :=
  match _metadataMap st !! id with
  | Some m => (Some (Entry m), file)
  | None =>
      let read :=
        match file with
        | Some f => f
        | None => readMetadataFile st fs
        end in
      (record_get id read, Some read)
  end.

(** [if (stored.intent) input._intent = stored.intent;
     if (stored.displayName) input._displayName = stored.displayName] *)
Definition assignMetadata (stored : ToolMetadata) (input : obj json) : obj json :=
  let input1 :=
    match intent stored with
    | Some i => if str_truthy i then obj_set "_intent" (JStr i) input else input
    | None => input
    end in
  match displayName stored with
  | Some d => if str_truthy d then obj_set "_displayName" (JStr d) input1 else input1
  | None => input1
  end.

Definition is_tool_use (block : Block) : bool :=
  match block_type block with
  | Some t => String.eqb t "tool_use"
  | None => false
  end.

Definition injectIntoBlock (st : ModuleState) (fs : FileSystem)
    (scan : ScanState) (block : Block) : Block * ScanState :=
  if negb (is_tool_use block) || negb (opt_str_truthy (block_id block))
  then (block, scan)
  else
    match block_id block, block_input block with
    | Some id, Some input =>
        if has_metadata input then (block, scan)
        else
          let '(stored, fileMetadata') := lookupStored st fs (fileMetadata scan) id in
          match stored with
          | Some (Entry m) =>
              ({| block_type := block_type block; block_id := block_id block;
                  block_input := Some (assignMetadata m input);
                  block_rest := block_rest block |},
               {| fileMetadata := fileMetadata'; injectedCount := S (injectedCount scan) |})
          | Some (Inherited _) =>
              (* a member of [Object.prototype] has no [intent] and no
                 [displayName]: nothing is assigned, the block is counted *)
              (block, {| fileMetadata := fileMetadata'; injectedCount := S (injectedCount scan) |})
          | None =>
              (block, {| fileMetadata := fileMetadata'; injectedCount := injectedCount scan |})
          end
    | _, _ => (block, scan)
    end.

Fixpoint injectIntoBlocks (st : ModuleState) (fs : FileSystem)
    (scan : ScanState) (blocks : list Block) : list Block * ScanState :=
  match blocks with
  | [] => ([], scan)
  | block :: blocks' =>
      let '(block', scan1) := injectIntoBlock st fs scan block in
      let '(rest, scan2) := injectIntoBlocks st fs scan1 blocks' in
      (block' :: rest, scan2)
  end.

Definition injectIntoMessage (st : ModuleState) (fs : FileSystem)
    (scan : ScanState) (message : Message) : Message * ScanState :=
  match role message, content message with
  | Some r, Some blocks =>
      if String.eqb r "assistant" then
        let '(blocks', scan') := injectIntoBlocks st fs scan blocks in
        ({| role := role message; content := Some blocks';
            message_rest := message_rest message |}, scan')
      else (message, scan)
  | _, _ => (message, scan)
  end.

Fixpoint injectIntoMessages (st : ModuleState) (fs : FileSystem)
    (scan : ScanState) (msgs : list Message) : list Message * ScanState :=
  match msgs with
  | [] => ([], scan)
  | message :: msgs' =>
      let '(message', scan1) := injectIntoMessage st fs scan message in
      let '(rest, scan2) := injectIntoMessages st fs scan1 msgs' in
      (message' :: rest, scan2)
  end.

(** The lazily read copy of the file, once read, is the content of the
    file: nothing writes the file during the scan. *)
Definition scan_reads (st : ModuleState) (fs : FileSystem) (scan : ScanState) : Prop :=
  fileMetadata scan = None \/ fileMetadata scan = Some (readMetadataFile st fs).

Definition scanned (st : ModuleState) (fs : FileSystem) : ScanState :=
  {| fileMetadata := Some (readMetadataFile st fs); injectedCount := O |}.

Definition injectMetadataIntoHistory (st : ModuleState) (fs : FileSystem) (body : Body) : Body :=
  match messages body with
  | None => body
  | Some msgs =>
      {| tools := tools body;
         messages :=
           Some (fst (injectIntoMessages st fs
                        {| fileMetadata := None; injectedCount := O |} msgs));
         body_rest := body_rest body |}
  end.

End WithRuntime.

(** The block at position [j] of the content of message [i]. *)
Definition block_at (body : Body) (i j : nat) : option Block :=
  match messages body with
  | Some msgs =>
      match msgs !! i with
      | Some message =>
          match content message with
          | Some blocks => blocks !! j
          | None => None
          end
      | None => None
      end
  | None => None
  end.

End Rewriter.

(** ** The SSE metadata-stripping transform

    The two effects of the transform, [controller.enqueue] and
    [toolMetadataStore.set], are recorded in the order in which they happen;
    [run_store] replays the second kind on a store.  The call to the store
    returns: with the session file read at its declared type (see
    [MetadataStore]) nothing in [set] throws, so the [catch] of
    [emitBufferedBlock] is entered from [JSON.parse] and from reading a
    member of [null] only.  The counter [eventCount] and the lines for the
    debug log are left out: logging is switched off
    ([INTERCEPTOR_LOGGING_ENABLED] is [false]), and what the lines print
    of a block, its id and its name, are texts in the API. *)

Module Sse.
Import Js Json Fs.

Record TrackedToolBlock := {
  id : json;
  name : json;
  index : option json;
  bufferedJson : string
}.

(** [Map<number, TrackedToolBlock>]: keys compared by SameValueZero,
    iteration in insertion order. *)
Abbreviation TrackedBlocks := (list (option json * TrackedToolBlock)).

Fixpoint map_get (k : option json) (m : TrackedBlocks) : option TrackedToolBlock :=
  match m with
  | [] => None
  | (k', b) :: m' => if same_value_zero k k' then Some b else map_get k m'
  end.

Definition map_has (k : option json) (m : TrackedBlocks) : bool :=
  match map_get k m with Some _ => true | None => false end.

Fixpoint map_set (k : option json) (b : TrackedToolBlock) (m : TrackedBlocks) : TrackedBlocks :=
  match m with
  | [] => [(k, b)]
  | (k', b') :: m' =>
      if same_value_zero k k' then (k', b) :: m' else (k', b') :: map_set k b m'
  end.

Fixpoint map_delete (k : option json) (m : TrackedBlocks) : TrackedBlocks :=
  match m with
  | [] => []
  | (k', b') :: m' =>
      if same_value_zero k k' then m' else (k', b') :: map_delete k m'
  end.

Inductive Action :=
| Enqueue (chunk : string)
| StoreSet (toolUseId : json) (intent displayName : option string).

Definition newline : string := String "010" "".

Definition sseText (eventType dataStr : string) : string :=
  "event: " +:+ eventType +:+ newline +:+ "data: " +:+ dataStr +:+ newline +:+ newline.

Definition emitSseEvent (eventType dataStr : string) : Action :=
  Enqueue (sseText eventType dataStr).

(** The synthetic event object; an undefined [index] is left out when the
    object is printed. *)
Definition deltaEvent (index : option json) (partial_json : string) : json :=
  JObj ([("type", JStr "content_block_delta")]
        ++ match index with Some i => [("index", i)] | None => [] end
        ++ [("delta", JObj [("type", JStr "input_json_delta");
                            ("partial_json", JStr partial_json)])]).

(** [delete parsed._intent; delete parsed._displayName] *)
Definition delete_metadata (parsed : json) : json :=
  match parsed with
  | JObj fs => JObj (obj_delete "_displayName" (obj_delete "_intent" fs))
  | other => other
  end.

Section WithRuntime.
Context `{Runtime}.

Definition emitBufferedBlock (block : TrackedToolBlock) (index : option json) : list Action :=
  if negb (str_truthy (bufferedJson block)) then []
  else
    let fallback :=
      [emitSseEvent "content_block_delta"
         (JSON_stringify (deltaEvent index (bufferedJson block)))] in
    match JSON_parse (bufferedJson block) with
    | None => fallback
    | Some parsed =>
        match get_prop parsed "_intent", get_prop parsed "_displayName" with
        | Some i, Some d =>
            let intent := as_string i in
            let displayName := as_string d in
            (if opt_str_truthy intent || opt_str_truthy displayName
             then [StoreSet (id block) intent displayName] else [])
            ++ [emitSseEvent "content_block_delta"
                  (JSON_stringify
                     (deltaEvent index (JSON_stringify (delete_metadata parsed))))]
        | _, _ => fallback
        end
    end.

(** [contentBlock?.type === 'tool_use' && contentBlock.id && contentBlock.name != null] *)
Definition is_tool_use_start (contentBlock : option json) : bool :=
  is_str (get_prop_opt contentBlock "type") "tool_use"
  && opt_truthy (get_prop_opt contentBlock "id")
  && match get_prop_opt contentBlock "name" with
     | Some JNull | None => false
     | Some _ => true
     end.

(** [delta.partial_json ?? ''], coerced by [+=] *)
Definition partial_json_text (delta : option json) : string :=
  match get_prop_opt delta "partial_json" with
  | Some JNull | None => ""
  | Some v => to_string v
  end.

Definition processEvent (eventType dataStr : string) (trackedBlocks : TrackedBlocks)
  : option (TrackedBlocks * list Action) :=
  match JSON_parse dataStr with
  | None => Some (trackedBlocks, [emitSseEvent eventType dataStr])
  | Some data =>
      if String.eqb eventType "content_block_start" then
        contentBlock ← get_prop data "content_block";
        index ← get_prop data "index";
        if is_tool_use_start contentBlock then
          Some (map_set index
                  {| id := default JNull (get_prop_opt contentBlock "id");
                     name := default JNull (get_prop_opt contentBlock "name");
                     index := index;
                     bufferedJson := "" |} trackedBlocks,
                [emitSseEvent eventType dataStr])
        else Some (trackedBlocks, [emitSseEvent eventType dataStr])
      else if String.eqb eventType "content_block_delta" then
        index ← get_prop data "index";
        delta ← get_prop data "delta";
        match is_str (get_prop_opt delta "type") "input_json_delta", map_get index trackedBlocks with
        | true, Some block =>
            Some (map_set index
                    {| id := id block; name := name block; index := Sse.index block;
                       bufferedJson := bufferedJson block +:+ partial_json_text delta |}
                    trackedBlocks, [])
        | _, _ => Some (trackedBlocks, [emitSseEvent eventType dataStr])
        end
      else if String.eqb eventType "content_block_stop" then
        index ← get_prop data "index";
        match map_get index trackedBlocks with
        | Some block =>
            Some (map_delete index trackedBlocks,
                  emitBufferedBlock block index ++ [emitSseEvent eventType dataStr])
        | None => Some (trackedBlocks, [emitSseEvent eventType dataStr])
        end
      else Some (trackedBlocks, [emitSseEvent eventType dataStr])
  end.

(** The variables of one stream. *)
Record StreamState := {
  trackedBlocks : TrackedBlocks;
  lineBuffer : string;
  currentEventType : string;
  currentData : string
}.

Definition initial : StreamState :=
  {| trackedBlocks := []; lineBuffer := ""; currentEventType := ""; currentData := "" |}.

(** The body of the loop over the lines, the same in [transform] and in
    [flush]. *)
Definition processLine (line : string) (st : StreamState)
  : option (StreamState * list Action) :=
  let trimmed := trim line in
  if String.eqb trimmed "" then
    if str_truthy (currentEventType st) && str_truthy (currentData st) then
      '(tracked, acts) ← processEvent (currentEventType st) (currentData st) (trackedBlocks st);
      Some ({| trackedBlocks := tracked; lineBuffer := lineBuffer st;
               currentEventType := ""; currentData := "" |}, acts)
    else
      Some ({| trackedBlocks := trackedBlocks st; lineBuffer := lineBuffer st;
               currentEventType := ""; currentData := "" |}, [])
  else
    match match_field "event:" trimmed with
    | Some t =>
        Some ({| trackedBlocks := trackedBlocks st; lineBuffer := lineBuffer st;
                 currentEventType := trim t; currentData := currentData st |}, [])
    | None =>
        match match_field "data:" trimmed with
        | Some d =>
            Some ({| trackedBlocks := trackedBlocks st; lineBuffer := lineBuffer st;
                     currentEventType := currentEventType st; currentData := d |}, [])
        | None => Some (st, [])
        end
    end.

Fixpoint processLines (lines : list string) (st : StreamState)
  : option (StreamState * list Action) :=
  match lines with
  | [] => Some (st, [])
  | line :: lines' =>
      '(st1, acts1) ← processLine line st;
      '(st2, acts2) ← processLines lines' st1;
      Some (st2, acts1 ++ acts2)
  end.

Definition withLineBuffer (buffer : string) (st : StreamState) : StreamState :=
  {| trackedBlocks := trackedBlocks st; lineBuffer := buffer;
     currentEventType := currentEventType st; currentData := currentData st |}.

Definition transform (chunk : string) (st : StreamState)
  : option (StreamState * list Action) :=
  let text := lineBuffer st +:+ chunk in
  let '(lines, last) := pop (split_lines text) in
  processLines lines (withLineBuffer (default "" last) st).

Fixpoint emitRemaining (m : TrackedBlocks) : list Action :=
  match m with
  | [] => []
  | (index, block) :: m' => emitBufferedBlock block index ++ emitRemaining m'
  end.

Definition flush (st : StreamState) : option (StreamState * list Action) :=
  '(st1, acts1) ←
    (if str_truthy (trim (lineBuffer st)) then
       '(st', acts) ← processLines (split_lines (lineBuffer st)) st;
       if str_truthy (currentEventType st') && str_truthy (currentData st') then
         '(tracked, acts') ← processEvent (currentEventType st') (currentData st') (trackedBlocks st');
         Some ({| trackedBlocks := tracked; lineBuffer := lineBuffer st';
                  currentEventType := currentEventType st'; currentData := currentData st' |},
               acts ++ acts')
       else Some (st', acts)
     else Some (st, []));
  Some ({| trackedBlocks := []; lineBuffer := "";
           currentEventType := currentEventType st1; currentData := currentData st1 |},
        acts1 ++ emitRemaining (trackedBlocks st1)).

Fixpoint transformAll (chunks : list string) (st : StreamState)
  : option (StreamState * list Action) :=
  match chunks with
  | [] => Some (st, [])
  | chunk :: chunks' =>
      '(st1, acts1) ← transform chunk st;
      '(st2, acts2) ← transformAll chunks' st1;
      Some (st2, acts1 ++ acts2)
  end.

(** A whole stream piped through the transform: every chunk, then [flush].
    [None]: an exception errored the stream. *)
Definition pipeThrough (chunks : list string) : option (list Action) :=
  '(st, acts) ← transformAll chunks initial;
  '(_, acts') ← flush st;
  Some (acts ++ acts').

Fixpoint enqueued (acts : list Action) : list string :=
  match acts with
  | [] => []
  | Enqueue c :: acts' => c :: enqueued acts'
  | StoreSet _ _ _ :: acts' => enqueued acts'
  end.

(** The bytes read from the output side. *)
Definition outputText (acts : list Action) : string :=
  foldr String.append "" (enqueued acts).

(** The calls to the store, made at time [now].  The store is keyed by
    strings, as the ids of the API are; an id that is not a string is
    taken through its string form, the name under which the file holds
    it. *)
Definition run_store (now : Z) (acts : list Action)
    (st : MetadataStore.ModuleState) (fs : FileSystem)
  : MetadataStore.ModuleState * FileSystem :=
  foldl (fun w a =>
           match a with
           | Enqueue _ => w
           | StoreSet i intent displayName =>
               MetadataStore.set (to_string i)
                 {| MetadataStore.intent := intent;
                    MetadataStore.displayName := displayName;
                    MetadataStore.timestamp := now |} (fst w) (snd w)
           end) (st, fs) acts.

(** *** Streams in the standard framing

    An event in the framing [event: <type>\ndata: <json>\n\n] that
    [emitSseEvent] writes, and the vocabulary in which the properties of
    the transform are stated. *)

Record SseEvent := {
  eventType : string;
  dataStr : string
}.

Definition frame (e : SseEvent) : string := sseText (eventType e) (dataStr e).

Fixpoint render (events : list SseEvent) : string :=
  match events with
  | [] => ""
  | e :: events' => frame e +:+ render events'
  end.

(** A field of the standard framing: not empty, on one line, without white
    space around it, in well-formed UTF-8. *)
Definition standard_field (s : string) : bool :=
  str_truthy s && String.eqb (trim_start s) s && String.eqb (trim_end s) s
  && no_line_terminator s && well_formed s.

Definition is_block_event (eventType : string) : bool :=
  String.eqb eventType "content_block_start"
  || String.eqb eventType "content_block_delta"
  || String.eqb eventType "content_block_stop".

(** A standard event has standard fields, and when it is one of the three
    content-block events its data is not the JSON text [null], from which
    [processEvent] cannot read a property. *)
Definition standard_event (e : SseEvent) : bool :=
  standard_field (eventType e) && standard_field (dataStr e)
  && (negb (is_block_event (eventType e))
      || match JSON_parse (dataStr e) with
         | Some JNull => false
         | _ => true
         end).

(** [processEvent] over a sequence of events. *)
Fixpoint processEvents (events : list SseEvent) (tracked : TrackedBlocks)
  : option (TrackedBlocks * list Action) :=
  match events with
  | [] => Some (tracked, [])
  | e :: events' =>
      '(tracked1, acts1) ← processEvent (eventType e) (dataStr e) tracked;
      '(tracked2, acts2) ← processEvents events' tracked1;
      Some (tracked2, acts1 ++ acts2)
  end.

(** The events the transform withholds: the [input_json_delta] events of a
    block that is tracked when they arrive. *)
Definition suppressed (tracked : TrackedBlocks) (e : SseEvent) : bool :=
  String.eqb (eventType e) "content_block_delta"
  && match JSON_parse (dataStr e) with
     | Some data =>
         is_str (get_prop_opt (get_prop_opt (Some data) "delta") "type") "input_json_delta"
         && map_has (get_prop_opt (Some data) "index") tracked
     | None => false
     end.

Definition tracked_after (tracked : TrackedBlocks) (e : SseEvent) : TrackedBlocks :=
  match processEvent (eventType e) (dataStr e) tracked with
  | Some (tracked', _) => tracked'
  | None => tracked
  end.

(** The events of a stream that are not withheld, in their order. *)
Fixpoint kept (tracked : TrackedBlocks) (events : list SseEvent) : list SseEvent :=
  match events with
  | [] => []
  | e :: events' =>
      if suppressed tracked e then kept (tracked_after tracked e) events'
      else e :: kept (tracked_after tracked e) events'
  end.

End WithRuntime.

(** The text cut into chunks of one byte, and chunks put together again. *)
Fixpoint one_byte_chunks (text : string) : list string :=
  match text with
  | EmptyString => []
  | String c text' => String c "" :: one_byte_chunks text'
  end.

Definition concat_chunks (chunks : list string) : string :=
  foldr String.append "" chunks.

End Sse.

(** ** The reader of the output

    Not code of the interceptor: the reading of "the output stream, parsed
    back into its content blocks" under which the round-trip property is
    stated.  The consumer rebuilds the input of a tool call from the events
    it reads: the fragments of the [input_json_delta] events of a block are
    put together and parsed when the block stops. *)

Module Consumer.
Import Js Json.

Section WithRuntime.
Context `{Runtime}.

Record Reading := {
  eventName : string;
  eventData : string;
  open_blocks : list (option json * (json * string));   (* index, id, fragments *)
  toolInputs : list (json * option json)                 (* id, parsed input *)
}.

Fixpoint remove_block (index : option json) (l : list (option json * (json * string)))
  : list (option json * (json * string)) :=
  match l with
  | [] => []
  | (i, b) :: l' => if same_value_zero index i then l' else (i, b) :: remove_block index l'
  end.

Fixpoint find_block (index : option json) (l : list (option json * (json * string)))
  : option (json * string) :=
  match l with
  | [] => None
  | (i, b) :: l' => if same_value_zero index i then Some b else find_block index l'
  end.

Definition readEvent (r : Reading) : Reading :=
  let cleared blocks inputs :=
    {| eventName := ""; eventData := ""; open_blocks := blocks; toolInputs := inputs |} in
  match JSON_parse (eventData r) with
  | Some data =>
      let index := get_prop_opt (Some data) "index" in
      if String.eqb (eventName r) "content_block_start" then
        let block := get_prop_opt (Some data) "content_block" in
        if is_str (get_prop_opt block "type") "tool_use" then
          cleared (open_blocks r ++ [(index, (default JNull (get_prop_opt block "id"), ""))])
                  (toolInputs r)
        else cleared (open_blocks r) (toolInputs r)
      else if String.eqb (eventName r) "content_block_delta" then
        let delta := get_prop_opt (Some data) "delta" in
        match is_str (get_prop_opt delta "type") "input_json_delta",
              find_block index (open_blocks r), get_prop_opt delta "partial_json" with
        | true, Some (id, fragments), Some (JStr fragment) =>
            cleared (remove_block index (open_blocks r) ++ [(index, (id, fragments +:+ fragment))])
                    (toolInputs r)
        | _, _, _ => cleared (open_blocks r) (toolInputs r)
        end
      else if String.eqb (eventName r) "content_block_stop" then
        match find_block index (open_blocks r) with
        | Some (id, fragments) =>
            cleared (remove_block index (open_blocks r))
                    (toolInputs r ++ [(id, JSON_parse fragments)])
        | None => cleared (open_blocks r) (toolInputs r)
        end
      else cleared (open_blocks r) (toolInputs r)
  | None => cleared (open_blocks r) (toolInputs r)
  end.

Definition readLine (r : Reading) (line : string) : Reading :=
  if String.eqb line "" then readEvent r
  else
    match drop_prefix "event: " line, drop_prefix "data: " line with
    | Some t, _ =>
        {| eventName := t; eventData := eventData r; open_blocks := open_blocks r;
           toolInputs := toolInputs r |}
    | None, Some d =>
        {| eventName := eventName r; eventData := d; open_blocks := open_blocks r;
           toolInputs := toolInputs r |}
    | None, None => r
    end.

(** Reading the three lines of one event, with the blocks and inputs read
    so far. *)
Definition readFrame (r : Reading) (e : Sse.SseEvent) : Reading :=
  readEvent {| eventName := Sse.eventType e; eventData := Sse.dataStr e;
               open_blocks := open_blocks r; toolInputs := toolInputs r |}.

(** The tool inputs read from an output text: the id of each tool-use block
    and its input, [None] when the fragments do not parse. *)
Definition readToolInputs (text : string) : list (json * option json) :=
  toolInputs
    (foldl readLine
       {| eventName := ""; eventData := ""; open_blocks := []; toolInputs := [] |}
       (split_lines text)).

End WithRuntime.
End Consumer.

(** ** The OAuth controller

    The network, the browser and the operating system are an environment
    the flow queries: what metadata discovery returned, how each [listen]
    ends, what the registration and token endpoints answer, and what
    reaches the callback server.  [authenticate] yields the effects it
    performed, in order, and its result; the lines that metadata discovery
    logs through [onStatus] are not among them. *)

Module OAuth.
Import Js.

Definition CALLBACK_PORT_START : Z := 8914.
Definition CALLBACK_PORT_END : Z := 8924.
Definition CALLBACK_PATH : string := "/oauth/callback".
Definition CLIENT_NAME : string := "Craft Agent".

Record OAuthMetadata := {
  authorization_endpoint : string;
  token_endpoint : string;
  registration_endpoint : option string
}.

Record OAuthTokens := {
  accessToken : string;
  refreshToken : option string;
  expiresAt : option Z;
  tokenType : string
}.

(** *** The request handler of the callback server *)

(** A request as the handler reads it: the path and the three query
    parameters, [None] for a parameter that is absent. *)
Record CallbackRequest := {
  pathname : string;
  code : option string;
  state : option string;
  error : option string
}.

(** The arguments of [generateCallbackPage]. *)
Record CallbackPage := {
  title : string;
  isSuccess : bool;
  errorDetail : option string
}.

Inductive ResponseBody :=
| Page (page : CallbackPage)
| Text (text : string).

(** How the code promise is settled. *)
Inductive Settlement :=
| Resolve (code : string)
| Reject (message : string).

Record Handled := {
  statusCode : Z;
  body : ResponseBody;
  settlement : option Settlement;   (* [None]: the promise is left pending *)
  serverStopped : bool              (* [clearTimeout(timeout); this.stopServer()] *)
}.

Definition opt_str_eqb (a : option string) (b : string) : bool :=
  match a with Some x => String.eqb x b | None => false end.

Definition handleRequest (expectedState : string) (req : CallbackRequest) : Handled :=
  if String.eqb (pathname req) CALLBACK_PATH then
    if opt_str_truthy (error req) then
      {| statusCode := 400;
         body := Page {| title := "Authorization Failed"; isSuccess := false;
                         errorDetail := error req |};
         settlement := Some (Reject ("OAuth error: " +:+ default "" (error req)));
         serverStopped := true |}
    else if negb (opt_str_eqb (state req) expectedState) then
      {| statusCode := 400;
         body := Page {| title := "Security Error"; isSuccess := false;
                         errorDetail := Some "State mismatch - possible CSRF attack." |};
         settlement := Some (Reject "OAuth state mismatch");
         serverStopped := true |}
    else if negb (opt_str_truthy (code req)) then
      {| statusCode := 400;
         body := Page {| title := "Authorization Failed"; isSuccess := false;
                         errorDetail := Some "No authorization code received." |};
         settlement := Some (Reject "No authorization code");
         serverStopped := true |}
    else
      {| statusCode := 200;
         body := Page {| title := "Authorization Successful"; isSuccess := true;
                         errorDetail := None |};
         settlement := Some (Resolve (default "" (code req)));
         serverStopped := true |}
  else
    {| statusCode := 404; body := Text "Not found"; settlement := None;
       serverStopped := false |}.

(** *** Binding the callback server *)

Inductive ListenResult :=
| Listening
| AddressInUse                   (* an error whose code is EADDRINUSE *)
| ListenError (message : string).

Inductive Bind :=
| Bound (port : Z)
| BindFailed (message : string).

Record BindRun := {
  attempted : list Z;     (* the ports [listen] was called on, in order *)
  closed : list Z;        (* the candidates closed after a failed bind *)
  bind : Bind
}.

Definition ports_exhausted : string :=
  "All OAuth callback ports (" +:+ pretty CALLBACK_PORT_START +:+ "-"
  +:+ pretty CALLBACK_PORT_END +:+ ") are in use. Please restart the application.".

(** The loop [for (port = ...; port <= CALLBACK_PORT_END; port++)], with
    [remaining] iterations left. *)
Fixpoint bindFrom (listen : Z -> ListenResult) (remaining : nat) (port : Z) : BindRun :=
  match remaining with
  | O => {| attempted := []; closed := []; bind := BindFailed ports_exhausted |}
  | S remaining' =>
      match listen port with
      | Listening => {| attempted := [port]; closed := []; bind := Bound port |}
      | AddressInUse =>
          let run := bindFrom listen remaining' (port + 1) in
          {| attempted := port :: attempted run; closed := port :: closed run;
             bind := bind run |}
      | ListenError message =>
          {| attempted := [port]; closed := [port]; bind := BindFailed message |}
      end
  end.

Definition startCallbackServer (listen : Z -> ListenResult) : BindRun :=
  bindFrom listen (Z.to_nat (CALLBACK_PORT_END - CALLBACK_PORT_START + 1)) CALLBACK_PORT_START.

(** *** The flow *)

Definition redirectUri (port : Z) : string :=
  "http://localhost:" +:+ pretty port +:+ CALLBACK_PATH.

Record Registration := {
  client_name : string;
  redirect_uris : list string;
  grant_types : list string;
  response_types : list string;
  token_endpoint_auth_method : string
}.

Record TokenResponse := {
  access_token : string;
  refresh_token : option string;
  expires_in : option Z;
  token_type : option string
}.

(** What reaches the code promise after the browser has been opened. *)
Inductive Incoming :=
| Request (req : CallbackRequest)
| Timeout
| ServerError (message : string).

Record Environment := {
  discovered : option OAuthMetadata;            (* [discoverOAuthMetadata] *)
  verifier : string;
  challenge : string;
  generatedState : string;
  listen : Z -> ListenResult;
  register : Registration -> string + string;   (* error text, or [client_id] *)
  invalid_url : string -> option string;        (* [new URL(s)]: the message of the
                                                   TypeError, [None] when [s] parses *)
  incoming : list Incoming;
  exchange : list (string * string) -> string + TokenResponse;
  now : Z
}.

Inductive Effect :=
| Status (message : string)
| PostRegistration (endpoint : string) (request : Registration)
| OpenUrl (endpoint : string) (searchParams : list (string * string))
| PostToken (endpoint : string) (form : list (string * string))
| StopServer.

Inductive Outcome :=
| Authenticated (tokens : OAuthTokens) (clientId : string)
| Thrown (message : string)
| Pending.                         (* the code promise is never settled *)

Fixpoint awaitCode (expectedState : string) (events : list Incoming) : option Settlement :=
  match events with
  | [] => None
  | Request req :: events' =>
      match settlement (handleRequest expectedState req) with
      | Some s => Some s
      | None => awaitCode expectedState events'
      end
  | Timeout :: _ => Some (Reject "OAuth timeout - no callback received")
  | ServerError message :: _ => Some (Reject ("Callback server error: " +:+ message))
  end.

Definition registrationRequest (port : Z) : Registration :=
  {| client_name := CLIENT_NAME;
     redirect_uris := [redirectUri port];
     grant_types := ["authorization_code"; "refresh_token"];
     response_types := ["code"];
     token_endpoint_auth_method := "none" |}.

Definition authorizationParams (env : Environment) (clientId : string) (port : Z)
  : list (string * string) :=
  [("response_type", "code"); ("client_id", clientId); ("redirect_uri", redirectUri port);
   ("state", generatedState env); ("code_challenge", challenge env);
   ("code_challenge_method", "S256")].

Definition exchangeForm (env : Environment) (code clientId : string) (port : Z)
  : list (string * string) :=
  [("grant_type", "authorization_code"); ("code", code); ("redirect_uri", redirectUri port);
   ("client_id", clientId); ("code_verifier", verifier env)].

Definition tokensOf (env : Environment) (data : TokenResponse) : OAuthTokens :=
  {| accessToken := access_token data;
     refreshToken := refresh_token data;
     expiresAt :=
       match expires_in data with
       | Some s => if s =? 0 then None else Some (now env + s * 1000)
       | None => None
       end;
     tokenType :=
       match token_type data with
       | Some t => if str_truthy t then t else "Bearer"
       | None => "Bearer"
       end |}.

(** Steps 5 to 8 of [authenticate]: the authorization URL, the browser, the
    code and the token exchange.  An authorization endpoint that is no URL
    makes [new URL] throw: the flow ends there, before the browser is
    opened, and the callback server is left as it is. *)
Definition authorize (env : Environment) (metadata : OAuthMetadata) (clientId : string)
    (port : Z) : list Effect * Outcome :=
  match invalid_url env (authorization_endpoint metadata) with
  | Some message => ([], Thrown message)
  | None =>
      let opened :=
        [Status "Opening browser for authorization...";
         OpenUrl (authorization_endpoint metadata) (authorizationParams env clientId port);
         Status "Waiting for you to authorize in browser..."] in
      match awaitCode (generatedState env) (incoming env) with
      | None => (opened, Pending)
      | Some (Reject message) => (opened, Thrown message)
      | Some (Resolve authCode) =>
          let exchanging :=
            opened ++ [Status "Authorization code received!";
                       Status "Exchanging authorization code for tokens...";
                       PostToken (token_endpoint metadata)
                         (exchangeForm env authCode clientId port)] in
          match exchange env (exchangeForm env authCode clientId port) with
          | inl errorText =>
              (exchanging, Thrown ("Failed to exchange code for tokens: " +:+ errorText))
          | inr data =>
              (exchanging ++ [Status "Tokens received successfully!"],
               Authenticated (tokensOf env data) clientId)
          end
      end
  end.

Definition authenticate (env : Environment) (mcpUrl : string) : list Effect * Outcome :=
  let fetching := [Status "Fetching OAuth server configuration..."] in
  match discovered env with
  | None =>
      let msg := "No OAuth metadata found for " +:+ mcpUrl in
      (fetching ++ [Status ("Failed to get OAuth metadata: " +:+ msg)], Thrown msg)
  | Some metadata =>
      let starting :=
        fetching ++ [Status ("Found OAuth endpoints at " +:+ mcpUrl);
                     Status "Generated PKCE challenge and state";
                     Status "Starting callback server..."] in
      match bind (startCallbackServer (listen env)) with
      | BindFailed msg =>
          (starting ++ [Status ("Failed to start callback server: " +:+ msg)], Thrown msg)
      | Bound port =>
          let bound := starting ++ [Status ("Callback server listening on port " +:+ pretty port)] in
          (* [if (metadata.registration_endpoint)]: an endpoint that is the
             empty string is no endpoint *)
          if opt_str_truthy (registration_endpoint metadata) then
            let endpoint := default "" (registration_endpoint metadata) in
            let registering :=
              bound ++ [Status ("Registering client at " +:+ endpoint +:+ "...");
                        PostRegistration endpoint (registrationRequest port)] in
            match register env (registrationRequest port) with
            | inl errorText =>
                let msg := "Failed to register OAuth client: " +:+ errorText in
                (registering ++ [StopServer; Status ("Client registration failed: " +:+ msg)],
                 Thrown msg)
            | inr clientId =>
                let '(effects, outcome) := authorize env metadata clientId port in
                (registering ++ [Status ("Registered as client: " +:+ clientId)] ++ effects,
                 outcome)
            end
          else
            let clientId := "craft-agent" in
            let '(effects, outcome) := authorize env metadata clientId port in
            (bound ++ [Status ("Using default client ID: " +:+ clientId)] ++ effects, outcome)
      end
  end.

(** The flow registers a client when the metadata names a registration
    endpoint, and it gets to the browser when no registration was refused
    and the authorization endpoint is a URL. *)
Definition registers (metadata : OAuthMetadata) : bool :=
  opt_str_truthy (registration_endpoint metadata).

Definition reaches_browser (env : Environment) (metadata : OAuthMetadata) (port : Z) : bool :=
  match invalid_url env (authorization_endpoint metadata) with
  | Some _ => false
  | None =>
      if registers metadata
      then match register env (registrationRequest port) with
           | inl _ => false
           | inr _ => true
           end
      else true
  end.

(** The redirect URIs sent to the registration endpoint, and those put in
    the authorization URLs handed to the browser. *)
Fixpoint registeredRedirects (effects : list Effect) : list string :=
  match effects with
  | [] => []
  | PostRegistration _ request :: effects' => redirect_uris request ++ registeredRedirects effects'
  | _ :: effects' => registeredRedirects effects'
  end.

Fixpoint authorizationRedirects (effects : list Effect) : list (option string) :=
  match effects with
  | [] => []
  | OpenUrl _ params :: effects' => obj_get "redirect_uri" params :: authorizationRedirects effects'
  | _ :: effects' => authorizationRedirects effects'
  end.

End OAuth.

(** ** Discovery of the OAuth metadata

    [discoverOAuthMetadata] and [tryFetchMetadata], called without a logger
    as the tests of the repository call them.  [new URL] belongs to the
    runtime: the functions take the parser as an argument, and of a parsed
    URL they read [origin] and [pathname].  The network is the function
    [fetch]: its first argument is the number of requests made before, so
    that the same address may be answered differently the second time. *)

Module Discovery.
Import Js.

Record Url := {
  origin : string;
  url_pathname : string
}.

Inductive Response :=
| NotOk (status : Z)            (* [response.ok] is false *)
| OkBody (data : json)          (* [response.json()] resolves with [data] *)
| OkUnreadable.                 (* [response.json()] rejects *)

(** [None]: the request rejects. *)
Abbreviation Network := (nat -> string -> option Response).

Definition WELL_KNOWN : string := "/.well-known/oauth-authorization-server".

(** [getMcpBaseUrl] *)
Definition getMcpBaseUrl (URL_parse : string -> option Url) (mcpUrl : string) : string :=
  match URL_parse mcpUrl with
  | Some url => origin url
  | None => mcpUrl
  end.

(** [data.authorization_endpoint && data.token_endpoint]; reading a
    property of [null] throws, which the function catches. *)
Definition has_endpoints (data : json) : bool :=
  match get_prop data "authorization_endpoint", get_prop data "token_endpoint" with
  | Some a, Some t => opt_truthy a && opt_truthy t
  | _, _ => false
  end.

Definition tryFetchMetadata (fetch : Network) (made : nat) (url : string) : option json :=
  match fetch made url with
  | Some (OkBody data) => if has_endpoints data then Some data else None
  | Some (NotOk _) | Some OkUnreadable | None => None
  end.

Definition candidates (url : Url) : list string :=
  [origin url +:+ WELL_KNOWN; origin url +:+ WELL_KNOWN +:+ url_pathname url].

(** The loop over the candidates: the addresses requested, in order, and
    the metadata returned. *)
Fixpoint tryCandidates (fetch : Network) (made : nat) (cs : list string)
  : list string * option json :=
  match cs with
  | [] => ([], None)
  | candidate :: cs' =>
      match tryFetchMetadata fetch made candidate with
      | Some metadata => ([candidate], Some metadata)
      | None =>
          let '(requested, found) := tryCandidates fetch (S made) cs' in
          (candidate :: requested, found)
      end
  end.

Definition discoverOAuthMetadata (URL_parse : string -> option Url) (fetch : Network)
    (mcpUrl : string) : list string * option json :=
  match URL_parse mcpUrl with
  | None => ([], None)
  | Some url => tryCandidates fetch O (candidates url)
  end.

End Discovery.

(** ** The request as a cURL command

    [headersToCurl] and [toCurl] format a request for the debug log.  A
    [Headers] instance is read through its iterator and an array of pairs
    as it is; both go through [Object.fromEntries].  Header names are taken
    not to be array indices, which an object would list first, and letters
    are ASCII letters. *)

Module Curl.
Import Js.

Definition lower_char (c : ascii) : ascii :=
  let n := N_of_ascii c in
  if ((65 <=? n) && (n <=? 90))%N then ascii_of_N (n + 32) else c.

Definition upper_char (c : ascii) : ascii :=
  let n := N_of_ascii c in
  if ((97 <=? n) && (n <=? 122))%N then ascii_of_N (n - 32) else c.

Fixpoint map_chars (f : ascii -> ascii) (s : string) : string :=
  match s with
  | EmptyString => EmptyString
  | String c s' => String (f c) (map_chars f s')
  end.

(** The Kelvin sign U+212A, the one code point outside ASCII whose lower
    case is an ASCII letter, [k]. *)
Definition kelvin (a b c : ascii) : bool :=
  Ascii.eqb a "226" && Ascii.eqb b "132" && Ascii.eqb c "170".

(** [s.toLowerCase()], as far as the result is compared with ASCII text:
    the letters A to Z and the Kelvin sign are put in lower case, and the
    other code points, none of which becomes an ASCII letter, are left as
    they are. *)
Fixpoint toLowerCase (s : string) : string :=
  match s with
  | EmptyString => EmptyString
  | String a r1 =>
      match r1 with
      | String b (String c r3) =>
          if kelvin a b c then String "k" (toLowerCase r3)
          else String (lower_char a) (toLowerCase r1)
      | _ => String (lower_char a) (toLowerCase r1)
      end
  end.

(** [s.toUpperCase()] for a request method, an ASCII token. *)
Definition toUpperCase (s : string) : string := map_chars upper_char s.

(** The headers of a request: an array of pairs or a record.  A [Headers]
    object is given by the pairs its iteration yields. *)
Inductive HeadersInit :=
| HeaderEntries (entries : list (string * string))
| HeaderRecord (record : obj string).

(** [Object.fromEntries(entries)] *)
Definition fromEntries (entries : list (string * string)) : obj string :=
  foldl (fun o kv => obj_set (fst kv) (snd kv) o) [] entries.

Definition headerObj (headers : HeadersInit) : obj string :=
  match headers with
  | HeaderEntries entries => fromEntries entries
  | HeaderRecord record => record
  end.

Definition sensitiveKeys : list string := ["x-api-key"; "authorization"; "cookie"].

(** [sensitiveKeys.includes(key.toLowerCase())] *)
Definition is_sensitive (key : string) : bool :=
  existsb (String.eqb (toLowerCase key)) sensitiveKeys.

Definition headerFlag (kv : string * string) : string :=
  let redacted := if is_sensitive (fst kv) then "[REDACTED]" else snd kv in
  "-H '" +:+ fst kv +:+ ": " +:+ redacted +:+ "'".

Definition backslash : string := String "092" "".
Definition newline : string := String "010" "".

(** The separator [' \\\n  ']: a space, a backslash, a newline, two spaces. *)
Definition continuation : string := " " +:+ backslash +:+ newline +:+ "  ".

Definition headersToCurl (headers : option HeadersInit) : string :=
  match headers with
  | None => ""
  | Some h => join continuation (List.map headerFlag (headerObj h))
  end.

Inductive BodyInit :=
| BodyText (text : string)
| BodyOther.                    (* a body that is not a string *)

Record RequestInit := {
  method : option string;
  headers : option HeadersInit;
  body : option BodyInit
}.

(** [body.replace(/'/g, "'\\''")] *)
Fixpoint escapeQuotes (s : string) : string :=
  match s with
  | EmptyString => EmptyString
  | String c s' =>
      if Ascii.eqb c "'" then "'" +:+ backslash +:+ "''" +:+ escapeQuotes s'
      else String c (escapeQuotes s')
  end.

Definition toCurl (url : string) (init : option RequestInit) : string :=
  let method :=
    match init ≫= method with
    | Some m => toUpperCase m
    | None => "GET"
    end in
  let headers := headersToCurl (init ≫= headers) in
  let curl0 := "curl -X " +:+ method in
  let curl1 := if str_truthy headers then curl0 +:+ continuation +:+ headers else curl0 in
  let curl2 :=
    match init ≫= body with
    | Some (BodyText text) =>
        if str_truthy text
        then curl1 +:+ continuation +:+ "-d '" +:+ escapeQuotes text +:+ "'"
        else curl1
    | Some BodyOther | None => curl1
    end in
  curl2 +:+ continuation +:+ "'" +:+ url +:+ "'".

(** A lower-case name: lower-case letters, digits and hyphens. *)
Definition name_char (a : ascii) : bool :=
  let n := N_of_ascii a in
  ((97 <=? n) && (n <=? 122) || (48 <=? n) && (n <=? 57) || (n =? 45))%N.

Fixpoint name_chars (name : string) : bool :=
  match name with
  | EmptyString => true
  | String a name' => name_char a && name_chars name'
  end.

(** [key] is the lower-case [name] written in some mix of upper and lower
    case. *)
Fixpoint spells (name key : string) : bool :=
  match name, key with
  | EmptyString, EmptyString => true
  | String a name', String b key' =>
      (Ascii.eqb b a || Ascii.eqb b (upper_char a)) && spells name' key'
  | _, _ => false
  end.

(** The headers that carry credentials: [x-api-key], [authorization] and
    [cookie], in any spelling. *)
Definition carries_secret (key : string) : bool :=
  spells "x-api-key" key || spells "authorization" key || spells "cookie" key.

(** Two lists of headers with the same names in the same order, which
    differ at most in the values of the headers that carry credentials. *)
Definition same_but_secrets (a b : list (string * string)) : Prop :=
  Forall2 (fun x y => fst x = fst y /\ (carries_secret (fst x) = false -> snd x = snd y)) a b.

Definition same_but_secrets_init (a b : HeadersInit) : Prop :=
  match a, b with
  | HeaderEntries x, HeaderEntries y => same_but_secrets x y
  | HeaderRecord x, HeaderRecord y => same_but_secrets x y
  | _, _ => False
  end.

End Curl.

(** ** Vocabulary for statements about input streams and histories *)

Module Wire.
Import Js Json Sse.

(** Lines, each ended by a newline. *)
Fixpoint unlines (lines : list string) : string :=
  match lines with
  | [] => ""
  | line :: lines' => line +:+ newline +:+ unlines lines'
  end.

Fixpoint one_line (s : string) : bool :=
  match s with
  | EmptyString => true
  | String c s' => negb (Ascii.eqb c "010") && one_line s'
  end.

(** The text with every line ended by CR LF instead of LF. *)
Fixpoint crlf (text : string) : string :=
  match text with
  | EmptyString => EmptyString
  | String c text' =>
      if Ascii.eqb c "010" then String "013" (String "010" (crlf text'))
      else String c (crlf text')
  end.

(** A line that is not blank and is neither an [event:] nor a [data:]
    field: a comment, an [id:] or a [retry:] field. *)
Definition other_field (line : string) : bool :=
  str_truthy (trim line)
  && negb (starts_with "event:" (trim line))
  && negb (starts_with "data:" (trim line)).

Section WithRuntime.
Context `{Runtime}.

(** A [content_block_delta] event that carries [fragment] for the block
    at index [n], and a [content_block_stop] event for that block. *)
Definition carries (n : Z) (dataStr fragment : string) : Prop :=
  exists data,
    JSON_parse dataStr = Some data
    /\ get_prop_opt (Some data) "index" = Some (JNum n)
    /\ get_prop_opt (get_prop_opt (Some data) "delta") "type" = Some (JStr "input_json_delta")
    /\ get_prop_opt (get_prop_opt (Some data) "delta") "partial_json" = Some (JStr fragment).

Definition stops (n : Z) (dataStr : string) : Prop :=
  exists data,
    JSON_parse dataStr = Some data
    /\ get_prop_opt (Some data) "index" = Some (JNum n).

(** A [content_block_start] event that opens, at index [n], the tool-use
    block with the id [id] and the name [name]. *)
Definition starts (n : Z) (id name dataStr : string) : Prop :=
  exists data,
    JSON_parse dataStr = Some data
    /\ get_prop_opt (Some data) "index" = Some (JNum n)
    /\ get_prop_opt (get_prop_opt (Some data) "content_block") "type" = Some (JStr "tool_use")
    /\ get_prop_opt (get_prop_opt (Some data) "content_block") "id" = Some (JStr id)
    /\ get_prop_opt (get_prop_opt (Some data) "content_block") "name" = Some (JStr name).

(** The event opens a tool-use block. *)
Definition opens_tool_use (e : SseEvent) : bool :=
  String.eqb (eventType e) "content_block_start"
  && match JSON_parse (dataStr e) with
     | Some data =>
         is_str (get_prop_opt (get_prop_opt (Some data) "content_block") "type") "tool_use"
     | None => false
     end.

End WithRuntime.

(** A block the re-injection works on: a [tool_use] block with an id and an
    input that has no metadata yet. *)
Definition injectable (block : Rewriter.Block) (id : string) (input : obj json) : Prop :=
  Rewriter.block_type block = Some "tool_use"
  /\ Rewriter.block_id block = Some id
  /\ id <> ""
  /\ Rewriter.block_input block = Some input
  /\ Rewriter.has_metadata input = false.

Definition delta_events (deltas : list (string * string)) : list SseEvent :=
  (fun d => {| eventType := "content_block_delta"; dataStr := fst d |}) <$> deltas.

Definition stop_event (stopData : string) : SseEvent :=
  {| eventType := "content_block_stop"; dataStr := stopData |}.

Definition start_event (startData : string) : SseEvent :=
  {| eventType := "content_block_start"; dataStr := startData |}.

(** A response with one tool call: the events before it, the start of the
    block, the fragments of its input, its stop, and the events after
    it. *)
Definition tool_call (before : list SseEvent) (startData : string)
    (deltas : list (string * string)) (stopData : string) (after : list SseEvent)
  : list SseEvent :=
  before ++ start_event startData :: delta_events deltas ++ stop_event stopData :: after.

(** The tool input of the round trip: its text, what the text denotes, and
    the input without the metadata. *)
Definition metadata_input_text : string :=
  lit "{'foo':'bar','_intent':'x','_displayName':'y'}".

Definition metadata_input : json :=
  JObj [("foo", JStr "bar"); ("_intent", JStr "x"); ("_displayName", JStr "y")].

Definition clean_input : json := JObj [("foo", JStr "bar")].

(** The [toolMetadataStore.set] calls among the effects. *)
Fixpoint stored (acts : list Action) : list (json * option string * option string) :=
  match acts with
  | [] => []
  | Enqueue _ :: acts' => stored acts'
  | StoreSet i intent displayName :: acts' => (i, intent, displayName) :: stored acts'
  end.

End Wire.

(** ** Concrete scenarios used by the examples below *)

Module Scenario.
Import Js Json Fs.

(** A callback that carries an error parameter and a state that is not the
    one of the flow. *)
Definition forged_callback : OAuth.CallbackRequest :=
  {| OAuth.pathname := OAuth.CALLBACK_PATH;
     OAuth.code := None;
     OAuth.state := Some "forged";
     OAuth.error := Some "access_denied" |}.

(** The first two candidate ports are taken, the third is free. *)
Definition two_ports_taken (port : Z) : OAuth.ListenResult :=
  if (port <=? OAuth.CALLBACK_PORT_START + 1) then OAuth.AddressInUse else OAuth.Listening.

Definition demo_environment : OAuth.Environment :=
  {| OAuth.discovered :=
       Some {| OAuth.authorization_endpoint := "https://auth.example.com/authorize";
               OAuth.token_endpoint := "https://auth.example.com/token";
               OAuth.registration_endpoint := Some "https://auth.example.com/register" |};
     OAuth.verifier := "verifier";
     OAuth.challenge := "challenge";
     OAuth.generatedState := "expected";
     OAuth.listen := two_ports_taken;
     OAuth.register := fun _ => inr "client-1";
     OAuth.invalid_url := fun _ => None;
     OAuth.incoming := [];
     OAuth.exchange := fun _ => inl "unused";
     OAuth.now := 0 |}.

Definition demo_process : ProcessEnv :=
  {| homedir := "/home/user";
     CRAFT_SESSION_DIR := Some "/sessions/s1";
     ANTHROPIC_BASE_URL := None |}.

Definition empty_disk : FileSystem :=
  {| files := ∅; write_denied := ∅; unlink_denied := ∅ |}.

Definition demo_metadata : MetadataStore.ToolMetadata :=
  {| MetadataStore.intent := Some "x";
     MetadataStore.displayName := Some "y";
     MetadataStore.timestamp := 1700000000000 |}.

(** A response stream with one tool-use block whose input arrives in three
    fragments that together read
    [{"foo":"bar","_intent":"x","_displayName":"y"}]. *)
Definition tool_stream_events : list Sse.SseEvent :=
  [ {| Sse.eventType := "message_start";
       Sse.dataStr := lit "{'type':'message_start','message':{'id':'msg_1','role':'assistant'}}" |};
    {| Sse.eventType := "content_block_start";
       Sse.dataStr := lit "{'type':'content_block_start','index':0,'content_block':{'type':'tool_use','id':'toolu_1','name':'mcp__demo__search','input':{}}}" |};
    {| Sse.eventType := "content_block_delta";
       Sse.dataStr := lit "{'type':'content_block_delta','index':0,'delta':{'type':'input_json_delta','partial_json':'{\'foo\':\'bar\','}}" |};
    {| Sse.eventType := "content_block_delta";
       Sse.dataStr := lit "{'type':'content_block_delta','index':0,'delta':{'type':'input_json_delta','partial_json':'\'_intent\':\'x\',\'_display'}}" |};
    {| Sse.eventType := "content_block_delta";
       Sse.dataStr := lit "{'type':'content_block_delta','index':0,'delta':{'type':'input_json_delta','partial_json':'Name\':\'y\'}'}}" |};
    {| Sse.eventType := "content_block_stop";
       Sse.dataStr := lit "{'type':'content_block_stop','index':0}" |};
    {| Sse.eventType := "message_stop";
       Sse.dataStr := lit "{'type':'message_stop'}" |} ].

Definition tool_stream : string := Sse.render tool_stream_events.

(** What the transform writes for [tool_stream]. *)
Definition tool_stream_output : string :=
  Sse.render
    [ {| Sse.eventType := "message_start";
         Sse.dataStr := lit "{'type':'message_start','message':{'id':'msg_1','role':'assistant'}}" |};
      {| Sse.eventType := "content_block_start";
         Sse.dataStr := lit "{'type':'content_block_start','index':0,'content_block':{'type':'tool_use','id':'toolu_1','name':'mcp__demo__search','input':{}}}" |};
      {| Sse.eventType := "content_block_delta";
         Sse.dataStr := lit "{'type':'content_block_delta','index':0,'delta':{'type':'input_json_delta','partial_json':'{\'foo\':\'bar\'}'}}" |};
      {| Sse.eventType := "content_block_stop";
         Sse.dataStr := lit "{'type':'content_block_stop','index':0}" |};
      {| Sse.eventType := "message_stop";
         Sse.dataStr := lit "{'type':'message_stop'}" |} ].

(** A tool-use block that stops without any fragment. *)
Definition empty_tool_stream_events : list Sse.SseEvent :=
  [ {| Sse.eventType := "content_block_start";
       Sse.dataStr := lit "{'type':'content_block_start','index':1,'content_block':{'type':'tool_use','id':'toolu_2','name':'mcp__demo__list','input':{}}}" |};
    {| Sse.eventType := "content_block_stop";
       Sse.dataStr := lit "{'type':'content_block_stop','index':1}" |} ].

(** An event written without a space after the field names. *)
Definition compact_stream : string := lit "event:ping|data:{'type':'ping'}||".

(** A block event whose data is the JSON text [null]. *)
Definition null_data_stream : string := lit "event: content_block_stop|data: null||".

(** The request of the end-to-end scenario: one tool [mcp__demo__search]
    with a single property, and a built-in tool. *)
Definition demo_body : Rewriter.Body :=
  {| Rewriter.tools :=
       Some [ {| Rewriter.tool_name := Some "mcp__demo__search";
                 Rewriter.input_schema :=
                   Some {| Rewriter.properties := Some [("query", JObj [("type", JStr "string")])];
                           Rewriter.required := None;
                           Rewriter.schema_rest := [("type", JStr "object")] |};
                 Rewriter.tool_rest := [("description", JStr "Search the demo index")] |};
              {| Rewriter.tool_name := Some "Read";
                 Rewriter.input_schema :=
                   Some {| Rewriter.properties := Some [("path", JObj [("type", JStr "string")])];
                           Rewriter.required := Some ["path"];
                           Rewriter.schema_rest := [] |};
                 Rewriter.tool_rest := [] |} ];
     Rewriter.messages :=
       Some [ {| Rewriter.role := Some "user"; Rewriter.content := None;
                 Rewriter.message_rest := [("content", JStr "find it")] |};
              {| Rewriter.role := Some "assistant";
                 Rewriter.content :=
                   Some [ {| Rewriter.block_type := Some "tool_use";
                             Rewriter.block_id := Some "toolu_1";
                             Rewriter.block_input := Some [("foo", JStr "bar")];
                             Rewriter.block_rest := [("name", JStr "mcp__demo__search")] |} ];
                 Rewriter.message_rest := [] |} ];
     Rewriter.body_rest := [("model", JStr "demo")] |}.

(** A history whose tool-use block already carries [_intent]. *)
Definition marked_block : Rewriter.Block :=
  {| Rewriter.block_type := Some "tool_use";
     Rewriter.block_id := Some "toolu_1";
     Rewriter.block_input := Some [("foo", JStr "bar"); ("_intent", JStr "earlier")];
     Rewriter.block_rest := [] |}.

Definition marked_body : Rewriter.Body :=
  {| Rewriter.tools := None;
     Rewriter.messages :=
       Some [ {| Rewriter.role := Some "assistant";
                 Rewriter.content := Some [marked_block];
                 Rewriter.message_rest := [] |} ];
     Rewriter.body_rest := [] |}.

(** The body of an error response of the provider. *)
Definition demo_error_body : string :=
  lit "{'type':'error','error':{'type':'billing_error','message':'Payment required'}}".

(** A request for another path, and the callback the provider sends when
    the user has granted access. *)
Definition favicon_request : OAuth.CallbackRequest :=
  {| OAuth.pathname := "/favicon.ico";
     OAuth.code := None;
     OAuth.state := None;
     OAuth.error := None |}.

Definition valid_callback : OAuth.CallbackRequest :=
  {| OAuth.pathname := OAuth.CALLBACK_PATH;
     OAuth.code := Some "code-1";
     OAuth.state := Some "expected";
     OAuth.error := None |}.

(** The flow of [demo_environment] carried to its end, and the same flow
    with a registration endpoint that refuses the client. *)
Definition completed_environment : OAuth.Environment :=
  {| OAuth.discovered := OAuth.discovered demo_environment;
     OAuth.verifier := "verifier";
     OAuth.challenge := "challenge";
     OAuth.generatedState := "expected";
     OAuth.listen := two_ports_taken;
     OAuth.register := fun _ => inr "client-1";
     OAuth.invalid_url := fun _ => None;
     OAuth.incoming := [OAuth.Request favicon_request; OAuth.Request valid_callback];
     OAuth.exchange :=
       fun _ => inr {| OAuth.access_token := "access-1";
                       OAuth.refresh_token := None;
                       OAuth.expires_in := Some 3600;
                       OAuth.token_type := None |};
     OAuth.now := 0 |}.

Definition refused_environment : OAuth.Environment :=
  {| OAuth.discovered := OAuth.discovered demo_environment;
     OAuth.verifier := "verifier";
     OAuth.challenge := "challenge";
     OAuth.generatedState := "expected";
     OAuth.listen := two_ports_taken;
     OAuth.register := fun _ => inl "invalid_redirect_uri";
     OAuth.invalid_url := fun _ => None;
     OAuth.incoming := [OAuth.Request valid_callback];
     OAuth.exchange := fun _ => inl "unused";
     OAuth.now := 0 |}.

(** The server of the discovery tests that publishes its metadata under
    the path of the MCP endpoint only. *)
Definition ahrefs_url (mcpUrl : string) : option Discovery.Url :=
  if String.eqb mcpUrl "https://api.ahrefs.com/mcp/mcp"
  then Some {| Discovery.origin := "https://api.ahrefs.com";
               Discovery.url_pathname := "/mcp/mcp" |}
  else None.

Definition ahrefs_metadata : json :=
  JObj [("authorization_endpoint", JStr "https://api.ahrefs.com/oauth/authorize");
        ("token_endpoint", JStr "https://api.ahrefs.com/oauth/token")].

Definition ahrefs_network (made : nat) (url : string) : option Discovery.Response :=
  if String.eqb url "https://api.ahrefs.com/.well-known/oauth-authorization-server/mcp/mcp"
  then Some (Discovery.OkBody ahrefs_metadata)
  else Some (Discovery.NotOk 404).

(** The headers of a request to the provider, with two keys. *)
(** The three headers with credentials, in three spellings, and one
    without. *)
Definition secret_headers (apiKey token session : string) : Curl.HeadersInit :=
  Curl.HeaderRecord
    [("accept", "text/event-stream"); ("X-API-Key", apiKey);
     ("AUTHORIZATION", "Bearer " +:+ token); ("Cookie", "session=" +:+ session)].

Definition request_headers (apiKey token : string) : Curl.HeadersInit :=
  Curl.HeaderEntries
    [("Content-Type", "application/json"); ("X-Api-Key", apiKey);
     ("Authorization", "Bearer " +:+ token)].

(** A disk that holds an error captured at time 0, and the disk of a
    session that is resumed: its metadata file holds one entry. *)
(** The error file of an earlier failure is still there, in a directory
    that has since become read-only: the file can be overwritten, but not
    removed. *)
Definition locked_error_disk : FileSystem :=
  {| files :=
       {[ ApiError.ERROR_FILE demo_process :=
            lit "{'status':500,'statusText':'Server Error','message':'overloaded','timestamp':0}" ]};
     write_denied := ∅;
     unlink_denied := {[ ApiError.ERROR_FILE demo_process ]} |}.

Definition stale_error_disk : FileSystem :=
  {| files :=
       {[ ApiError.ERROR_FILE demo_process :=
            lit "{'status':500,'statusText':'Server Error','message':'overloaded','timestamp':0}" ]};
     write_denied := ∅;
     unlink_denied := ∅ |}.

Definition resumed_disk : FileSystem :=
  {| files :=
       {[ "/sessions/s1/tool-metadata.json" :=
            lit "{'toolu_1':{'intent':'x','displayName':'y','timestamp':1700000000000}}" ]};
     write_denied := ∅;
     unlink_denied := ∅ |}.

(** The same disk when the session file cannot be replaced. *)
Definition read_only_disk : FileSystem :=
  {| files := files resumed_disk;
     write_denied := {[ "/sessions/s1/tool-metadata.json" ]};
     unlink_denied := ∅ |}.

(** The three [input_json_delta] events of [tool_stream_events] with the
    fragments they carry, the stop event of the block, and the block as it
    is tracked after its start event. *)
Definition tool_stream_deltas : list (string * string) :=
  [ (lit "{'type':'content_block_delta','index':0,'delta':{'type':'input_json_delta','partial_json':'{\'foo\':\'bar\','}}",
     lit "{'foo':'bar',");
    (lit "{'type':'content_block_delta','index':0,'delta':{'type':'input_json_delta','partial_json':'\'_intent\':\'x\',\'_display'}}",
     lit "'_intent':'x','_display");
    (lit "{'type':'content_block_delta','index':0,'delta':{'type':'input_json_delta','partial_json':'Name\':\'y\'}'}}",
     lit "Name':'y'}") ].

Definition tool_stream_stop : string := lit "{'type':'content_block_stop','index':0}".

(** A response with two tool calls, the second after the first. *)
Definition two_tool_stream : string :=
  Sse.render
    (take 6 tool_stream_events
     ++ [ {| Sse.eventType := "content_block_start";
             Sse.dataStr := lit "{'type':'content_block_start','index':1,'content_block':{'type':'tool_use','id':'toolu_2','name':'Read','input':{}}}" |};
          {| Sse.eventType := "content_block_delta";
             Sse.dataStr := lit "{'type':'content_block_delta','index':1,'delta':{'type':'input_json_delta','partial_json':'{\'path\':\'a\',\'_intent\':\'z\'}'}}" |};
          {| Sse.eventType := "content_block_stop";
             Sse.dataStr := lit "{'type':'content_block_stop','index':1}" |};
          {| Sse.eventType := "message_stop";
             Sse.dataStr := lit "{'type':'message_stop'}" |} ]).

Definition tracked_search_block : Sse.TrackedToolBlock :=
  {| Sse.id := JStr "toolu_1";
     Sse.name := JStr "mcp__demo__search";
     Sse.index := Some (JNum 0);
     Sse.bufferedJson := "" |}.

(** A tool input that breaks off in the middle. *)
Definition truncated_deltas : list (string * string) :=
  [ (lit "{'type':'content_block_delta','index':0,'delta':{'type':'input_json_delta','partial_json':'{\'foo\':'}}",
     lit "{'foo':") ].

End Scenario.

(** * Properties *)

Module Examples.
Import Js Json.

Example parse_tool_input :
  Json.parse (Js.lit "{'foo':'bar','_intent':'x','_displayName':'y'}")
  = Some (Js.JObj [("foo", Js.JStr "bar"); ("_intent", Js.JStr "x"); ("_displayName", Js.JStr "y")]).
Proof. vm_compute. reflexivity. Qed.

Example stringify_nested :
  Json.stringify (Js.JObj [("a", Js.JArr [Js.JNum 1; Js.JNum (-20); Js.JNull]); ("b", Js.JStr (Js.lit "q'\"))])
  = Js.lit "{'a':[1,-20,null],'b':'q\'\\'}".
Proof. vm_compute. reflexivity. Qed.

Example parse_ws :
  Json.parse (Js.lit " { 'a' : [ 1 , true , { } ] , 'a' : 'A\n' } ")
  = Some (Js.JObj [("a", Js.JStr (Js.lit "A|"))]).
Proof. vm_compute. reflexivity. Qed.

Example schema_of_demo_search_is_augmented :
  match Rewriter.tools (Rewriter.addMetadataToAllTools Scenario.demo_body) with
  | Some [search; read] =>
      (Js.obj_has "query" <$> (Rewriter.input_schema search ≫= Rewriter.properties),
       Js.obj_has "_intent" <$> (Rewriter.input_schema search ≫= Rewriter.properties),
       Js.obj_has "_displayName" <$> (Rewriter.input_schema search ≫= Rewriter.properties),
       Rewriter.input_schema search ≫= Rewriter.required,
       Rewriter.input_schema read ≫= Rewriter.required,
       Js.obj_has "_intent" <$> (Rewriter.input_schema read ≫= Rewriter.properties))
      = (Some true, Some true, Some true, Some ["_intent"; "_displayName"],
         Some ["path"], Some false)
  | _ => False
  end.
Proof. vm_compute. reflexivity. Qed.

Example history_of_demo_body_is_injected :
  Rewriter.block_at
    (Rewriter.injectMetadataIntoHistory
       (fst (MetadataStore.set "toolu_1" Scenario.demo_metadata
               (MetadataStore.initial Scenario.demo_process) Scenario.empty_disk))
       Scenario.empty_disk Scenario.demo_body) 1 0
  = Some {| Rewriter.block_type := Some "tool_use";
            Rewriter.block_id := Some "toolu_1";
            Rewriter.block_input :=
              Some [("foo", Js.JStr "bar"); ("_intent", Js.JStr "x");
                    ("_displayName", Js.JStr "y")];
            Rewriter.block_rest := [("name", Js.JStr "mcp__demo__search")] |}.
Proof. vm_compute. reflexivity. Qed.

(** A block event with the data [null] makes [processEvent] throw: the
    stream is errored. *)
Example null_data_errors_the_stream :
  Sse.pipeThrough [Scenario.null_data_stream] = None.
Proof. vm_compute. reflexivity. Qed.

End Examples.

(** ** The OAuth callback handler and the port binding *)

Module OAuthFacts.
Import Js OAuth.

Lemma opt_str_truthy_false (s : option string) :
  opt_str_truthy s = false <-> s = None \/ s = Some "".
Proof.
  destruct s as [[|c t]|]; simpl; split; intros Hs; try discriminate; auto;
    destruct Hs as [Hs|Hs]; discriminate.
Qed.

Lemma opt_str_eqb_false (a : option string) (b : string) :
  opt_str_eqb a b = false <-> a <> Some b.
Proof.
  destruct a as [x|]; simpl.
  - rewrite String.eqb_neq. split; congruence.
  - split; congruence.
Qed.

(** C4, as stated, fails: on a callback with both an error parameter and a
    wrong state the flow is rejected with the provider error, not with the
    state mismatch. *)
Lemma callback_error_precedes_state_mismatch :
  state Scenario.forged_callback <> Some "expected"
  /\ settlement (handleRequest "expected" Scenario.forged_callback)
     = Some (Reject "OAuth error: access_denied")
  /\ settlement (handleRequest "expected" Scenario.forged_callback)
     <> Some (Reject "OAuth state mismatch").
Proof. repeat split; [discriminate | discriminate]. Qed.

(** C4, amended: on the callback path the handler rejects the flow on an
    explicit error parameter, on a state mismatch, or on a missing code,
    checked in that order; every rejection answers 400 and stops the
    server, and the three reasons are pairwise different. *)
Theorem callback_rejection_priority (expectedState : string) (req : CallbackRequest) :
  pathname req = CALLBACK_PATH ->
  let handled := handleRequest expectedState req in
  (forall e, error req = Some e -> e <> "" ->
     settlement handled = Some (Reject ("OAuth error: " +:+ e)))
  /\ (error req = None \/ error req = Some "" ->
      state req <> Some expectedState ->
      settlement handled = Some (Reject "OAuth state mismatch"))
  /\ (error req = None \/ error req = Some "" ->
      state req = Some expectedState ->
      code req = None \/ code req = Some "" ->
      settlement handled = Some (Reject "No authorization code"))
  /\ (forall reason, settlement handled = Some (Reject reason) ->
      statusCode handled = 400 /\ serverStopped handled = true)
  /\ (forall e, "OAuth error: " +:+ e <> "OAuth state mismatch"
                /\ "OAuth error: " +:+ e <> "No authorization code")
  /\ "OAuth state mismatch" <> "No authorization code".
Proof.
  intros Hpath handled. subst handled. unfold handleRequest.
  rewrite Hpath, String.eqb_refl.
  split; [|split; [|split; [|split; [|split]]]].
  - intros e He Hne. rewrite He. cbn [opt_str_truthy default from_option id].
    destruct e as [|c t]; [congruence | reflexivity].
  - intros Herr Hstate.
    apply opt_str_truthy_false in Herr. rewrite Herr.
    apply opt_str_eqb_false in Hstate. rewrite Hstate. reflexivity.
  - intros Herr Hstate Hcode.
    apply opt_str_truthy_false in Herr. rewrite Herr.
    rewrite Hstate. cbn [opt_str_eqb]. rewrite String.eqb_refl. cbn [negb].
    apply opt_str_truthy_false in Hcode. rewrite Hcode. reflexivity.
  - intros reason Hreason.
    destruct (opt_str_truthy (error req)); [split; reflexivity|].
    destruct (negb (opt_str_eqb (state req) expectedState)); [split; reflexivity|].
    destruct (negb (opt_str_truthy (code req))); [split; reflexivity|].
    cbn [settlement] in Hreason. discriminate.
  - intros e. split; discriminate.
  - discriminate.
Qed.

Lemma callback_rejection_priority_witness :
  settlement (handleRequest "expected" Scenario.forged_callback)
  = Some (Reject ("OAuth error: " +:+ "access_denied")).
Proof.
  pose proof (callback_rejection_priority "expected" Scenario.forged_callback eq_refl) as Hp.
  destruct Hp as [Herr _].
  apply Herr; [reflexivity | discriminate].
Defined.

(** The loop skips a run of [k] occupied ports and settles on the next
    one, whatever [listen] answers there. *)
Lemma bindFrom_skips (listen : Z -> ListenResult) (k : nat) :
  forall (remaining : nat) (port : Z),
    (k < remaining)%nat ->
    (forall p, port <= p < port + Z.of_nat k -> listen p = AddressInUse) ->
    let run := bindFrom listen remaining port in
    match listen (port + Z.of_nat k) with
    | Listening =>
        bind run = Bound (port + Z.of_nat k)
        /\ attempted run = seqZ port (Z.of_nat k + 1)
        /\ closed run = seqZ port (Z.of_nat k)
    | AddressInUse => True
    | ListenError message =>
        bind run = BindFailed message
        /\ attempted run = seqZ port (Z.of_nat k + 1)
        /\ closed run = seqZ port (Z.of_nat k + 1)
    end.
Proof.
  induction k as [|k IH]; intros remaining port Hlt Hbusy.
  - destruct remaining as [|remaining]; [lia|].
    change (Z.of_nat 0) with 0. rewrite Z.add_0_r. simpl.
    destruct (listen port); simpl; auto.
  - destruct remaining as [|remaining]; [lia|]. simpl bindFrom.
    rewrite (Hbusy port) by lia.
    specialize (IH remaining (port + 1)).
    assert (Hlt' : (k < remaining)%nat) by lia.
    assert (Hbusy' : forall p, port + 1 <= p < port + 1 + Z.of_nat k -> listen p = AddressInUse)
      by (intros p Hp; apply Hbusy; lia).
    specialize (IH Hlt' Hbusy'). simpl in IH.
    replace (port + Z.of_nat (S k)) with (port + 1 + Z.of_nat k) by lia.
    assert (Hseq : forall len, 0 <= len -> port :: seqZ (port + 1) len = seqZ port (len + 1)).
    { intros len Hlen. rewrite (seqZ_cons port (len + 1)) by lia.
      f_equal. f_equal; lia. }
    simpl.
    destruct (listen (port + 1 + Z.of_nat k)); auto.
    + destruct IH as [Hb [Ha Hc]]. rewrite Hb, Ha, Hc.
      rewrite !Hseq by lia.
      replace (Z.of_nat (S k)) with (Z.of_nat k + 1) by lia. auto.
    + destruct IH as [Hb [Ha Hc]]. rewrite Hb, Ha, Hc.
      rewrite !Hseq by lia.
      replace (Z.of_nat (S k)) with (Z.of_nat k + 1) by lia. auto.
Qed.

Lemma registeredRedirects_app (a b : list Effect) :
  registeredRedirects (a ++ b) = registeredRedirects a ++ registeredRedirects b.
Proof.
  induction a as [|e a IH]; [reflexivity|].
  destruct e; simpl; rewrite ?IH; auto. now rewrite <- app_assoc.
Qed.

Lemma authorizationRedirects_app (a b : list Effect) :
  authorizationRedirects (a ++ b) = authorizationRedirects a ++ authorizationRedirects b.
Proof.
  induction a as [|e a IH]; [reflexivity|].
  destruct e; simpl; rewrite ?IH; auto.
Qed.

(** What [authorize] contributes: one authorization URL when the
    authorization endpoint is a URL, no registration. *)
Lemma authorize_redirects (env : Environment) (metadata : OAuthMetadata)
    (clientId : string) (port : Z) :
  registeredRedirects (fst (authorize env metadata clientId port)) = []
  /\ authorizationRedirects (fst (authorize env metadata clientId port))
     = match invalid_url env (authorization_endpoint metadata) with
       | Some _ => []
       | None => [Some (redirectUri port)]
       end.
Proof.
  unfold authorize.
  destruct (invalid_url env (authorization_endpoint metadata)); [split; reflexivity|].
  destruct (awaitCode (generatedState env) (incoming env)) as [[authCode|message]|];
    [|split; reflexivity|split; reflexivity].
  destruct (exchange env (exchangeForm env authCode clientId port)); split; reflexivity.
Qed.

(** Once the server is bound on [port], the redirect URIs of the flow are
    those of [port]. *)
Lemma authenticate_redirects (env : Environment) (mcpUrl : string)
    (metadata : OAuthMetadata) (port : Z) :
  discovered env = Some metadata ->
  bind (startCallbackServer (listen env)) = Bound port ->
  registeredRedirects (fst (authenticate env mcpUrl))
  = (if registers metadata then [redirectUri port] else [])
  /\ authorizationRedirects (fst (authenticate env mcpUrl))
     = (if reaches_browser env metadata port then [Some (redirectUri port)] else []).
Proof.
  intros Hmeta Hbind. unfold authenticate, reaches_browser, registers. rewrite Hmeta, Hbind.
  pose proof (authorize_redirects env metadata) as Hauth.
  destruct (opt_str_truthy (registration_endpoint metadata)).
  - destruct (register env (registrationRequest port)) as [errorText|clientId].
    + destruct (invalid_url env (authorization_endpoint metadata)); split; reflexivity.
    + destruct (Hauth clientId port) as [Hreg Hurl].
      destruct (authorize env metadata clientId port) as [effs outcome].
      cbn [fst] in *.
      rewrite !registeredRedirects_app, !authorizationRedirects_app, Hreg, Hurl.
      destruct (invalid_url env (authorization_endpoint metadata)); split; reflexivity.
  - destruct (Hauth "craft-agent" port) as [Hreg Hurl].
    destruct (authorize env metadata "craft-agent" port) as [effs outcome].
    cbn [fst] in *.
    rewrite !registeredRedirects_app, !authorizationRedirects_app, Hreg, Hurl.
    destruct (invalid_url env (authorization_endpoint metadata)); split; reflexivity.
Qed.



End OAuthFacts.

(** ** The request rewriter *)

Module RewriterFacts.
Import Js Json Fs MetadataStore Rewriter.

Lemma obj_has_set_same {A} (k : string) (v : A) (o : obj A) :
  obj_has k (obj_set k v o) = true.
Proof.
  unfold obj_has. induction o as [|[k' v'] o IH]; simpl.
  - now rewrite String.eqb_refl.
  - destruct (String.eqb k k') eqn:E; simpl; rewrite E; auto.
Qed.

Lemma obj_has_set_other {A} (k k' : string) (v : A) (o : obj A) :
  k <> k' -> obj_has k (obj_set k' v o) = obj_has k o.
Proof.
  intros Hne. unfold obj_has. induction o as [|[k2 v2] o IH]; simpl.
  - apply String.eqb_neq in Hne. now rewrite Hne.
  - destruct (String.eqb k' k2) eqn:E; simpl.
    + apply String.eqb_eq in E. subst k2.
      apply String.eqb_neq in Hne. now rewrite Hne.
    + destruct (String.eqb k k2); auto.
Qed.

(** A second pass over a tool the first pass has seen changes nothing. *)
Lemma addMetadataToTool_again (tool : Tool) :
  addMetadataToTool (fst (addMetadataToTool tool)) = (fst (addMetadataToTool tool), false).
Proof.
  destruct tool as [n schema rest].
  unfold addMetadataToTool, isMcpTool. cbn [tool_name input_schema tool_rest].
  destruct (negb TOOL_METADATA_FOR_ALL_TOOLS
            && negb match n with Some n' => starts_with "mcp__" n' | None => false end)
    eqn:Hskip.
  { cbn [fst tool_name input_schema]. now rewrite Hskip. }
  destruct schema as [[props req srest]|]; cbn [properties required schema_rest].
  2:{ cbn [fst tool_name input_schema]. now rewrite Hskip. }
  destruct props as [props|].
  2:{ cbn [fst tool_name input_schema properties]. now rewrite Hskip. }
  destruct (obj_has "_intent" props) eqn:Hi; cbn [negb].
  - destruct (obj_has "_displayName" props) eqn:Hd; cbn [negb fst].
    + cbn [tool_name input_schema properties]. rewrite Hskip, Hi. cbn [negb].
      now rewrite Hd.
    + cbn [tool_name input_schema properties required schema_rest tool_rest].
      rewrite Hskip.
      rewrite obj_has_set_other by discriminate. rewrite Hi. cbn [negb].
      now rewrite obj_has_set_same.
  - rewrite obj_has_set_other by discriminate.
    destruct (obj_has "_displayName" props) eqn:Hd; cbn [negb fst].
    + cbn [tool_name input_schema properties required schema_rest tool_rest].
      rewrite Hskip. rewrite obj_has_set_same. cbn [negb].
      rewrite obj_has_set_other by discriminate. now rewrite Hd.
    + cbn [tool_name input_schema properties required schema_rest tool_rest].
      rewrite Hskip.
      rewrite (obj_has_set_other "_intent" "_displayName") by discriminate.
      rewrite obj_has_set_same. cbn [negb].
      now rewrite obj_has_set_same.
Qed.

Lemma addMetadataToTools_again (ts : list Tool) :
  addMetadataToTools (fst (addMetadataToTools ts)) = (fst (addMetadataToTools ts), O).
Proof.
  induction ts as [|tool ts IH]; [reflexivity|].
  simpl. pose proof (addMetadataToTool_again tool) as Htool.
  destruct (addMetadataToTool tool) as [tool' modified].
  destruct (addMetadataToTools ts) as [rest n].
  simpl in *. rewrite Htool, IH. reflexivity.
Qed.

(** C6: applying the schema augmentation to a body it has already been
    applied to returns that body unchanged, so no property and no entry of
    a required list is added, and the pass counts no modified tool. *)
Theorem addMetadataToAllTools_idempotent (body : Body) :
  addMetadataToAllTools (addMetadataToAllTools body) = addMetadataToAllTools body
  /\ modifiedCount (addMetadataToAllTools body) = O.
Proof.
  unfold addMetadataToAllTools, modifiedCount.
  destruct (tools body) as [ts|] eqn:Htools; simpl.
  - rewrite addMetadataToTools_again. simpl. auto.
  - rewrite Htools. auto.
Qed.

End RewriterFacts.

Module InjectFacts.
Import Js Json Fs MetadataStore Rewriter.

Section WithStore.
Context `{Runtime}.
Variables (st : ModuleState) (fs : FileSystem).

(** The block a scan leaves does not depend on how far the scan has come,
    and the scan keeps reading the same file. *)
Lemma lookupStored_scan (file : option (gmap string ToolMetadata)) (id : string) :
  file = None \/ file = Some (readMetadataFile st fs) ->
  lookupStored st fs file id
  = (fst (lookupStored st fs (Some (readMetadataFile st fs)) id),
     snd (lookupStored st fs file id))
  /\ (snd (lookupStored st fs file id) = None
      \/ snd (lookupStored st fs file id) = Some (readMetadataFile st fs)).
Proof.
  intros Hfile. unfold lookupStored.
  destruct (_metadataMap st !! id) as [m|]; simpl; [auto|].
  destruct Hfile as [-> | ->]; auto.
Qed.

(** The block a scan leaves does not depend on how far the scan has come,
    and the scan keeps reading the same file. *)
Lemma injectIntoBlock_scan (scan : ScanState) (block : Block) :
  scan_reads st fs scan ->
  fst (injectIntoBlock st fs scan block) = fst (injectIntoBlock st fs (scanned st fs) block)
  /\ scan_reads st fs (snd (injectIntoBlock st fs scan block)).
Proof.
  intros Hscan. unfold injectIntoBlock.
  destruct (negb (is_tool_use block) || negb (opt_str_truthy (block_id block))); [auto|].
  destruct (block_id block) as [id|]; [|auto].
  destruct (block_input block) as [input|]; [|auto].
  destruct (has_metadata input); [auto|].
  destruct (lookupStored_scan (fileMetadata scan) id Hscan) as [Hlookup Hfile].
  rewrite Hlookup. cbn [scanned fileMetadata].
  destruct (lookupStored st fs (Some (readMetadataFile st fs)) id) as [stored file'].
  cbn [fst]. destruct stored as [[m|name]|]; cbn [fst snd]; split; auto.
Qed.

(** A block that carries one of the two fields is left as it is. *)
Lemma injectIntoBlock_has_metadata (scan : ScanState) (block : Block) (input : obj json) :
  block_input block = Some input ->
  has_metadata input = true ->
  injectIntoBlock st fs scan block = (block, scan).
Proof.
  intros Hinput Hmeta. unfold injectIntoBlock. rewrite Hinput, Hmeta.
  destruct (negb (is_tool_use block) || negb (opt_str_truthy (block_id block))); [auto|].
  destruct (block_id block); reflexivity.
Qed.

Lemma has_metadata_set_intent (v : json) (input : obj json) :
  has_metadata (obj_set "_intent" v input) = true.
Proof. unfold has_metadata. now rewrite RewriterFacts.obj_has_set_same. Qed.

Lemma has_metadata_set_displayName (v : json) (input : obj json) :
  has_metadata (obj_set "_displayName" v input) = true.
Proof.
  unfold has_metadata. rewrite (RewriterFacts.obj_has_set_same "_displayName").
  apply orb_true_r.
Qed.

(** Assigning the stored fields either marks the input or leaves it alone. *)
Lemma assignMetadata_cases (m : ToolMetadata) (input : obj json) :
  has_metadata (assignMetadata m input) = true \/ assignMetadata m input = input.
Proof.
  unfold assignMetadata.
  destruct (displayName m) as [d|]; [destruct (str_truthy d)|].
  - left. apply has_metadata_set_displayName.
  - destruct (intent m) as [i|]; [destruct (str_truthy i)|]; auto.
    left. apply has_metadata_set_intent.
  - destruct (intent m) as [i|]; [destruct (str_truthy i)|]; auto.
    left. apply has_metadata_set_intent.
Qed.

(** A second scan leaves the block of a first scan as it is. *)
Lemma injectIntoBlock_again (block : Block) :
  fst (injectIntoBlock st fs (scanned st fs)
         (fst (injectIntoBlock st fs (scanned st fs) block)))
  = fst (injectIntoBlock st fs (scanned st fs) block).
Proof.
  destruct block as [ty bid input rest].
  unfold injectIntoBlock at 2 3. unfold is_tool_use.
  cbn [block_type block_id block_input block_rest].
  destruct (negb (match ty with Some t => String.eqb t "tool_use" | None => false end)
            || negb (opt_str_truthy bid)) eqn:Hskip.
  { cbn [fst]. unfold injectIntoBlock, is_tool_use.
    cbn [block_type block_id block_input]. now rewrite Hskip. }
  destruct bid as [id|].
  2:{ cbn [fst]. unfold injectIntoBlock, is_tool_use.
      cbn [block_type block_id block_input]. now rewrite Hskip. }
  destruct input as [input|].
  2:{ cbn [fst]. unfold injectIntoBlock, is_tool_use.
      cbn [block_type block_id block_input]. now rewrite Hskip. }
  destruct (has_metadata input) eqn:Hmeta.
  { cbn [fst]. unfold injectIntoBlock, is_tool_use.
    cbn [block_type block_id block_input]. now rewrite Hskip, Hmeta. }
  destruct (lookupStored st fs (fileMetadata (scanned st fs)) id) as [stored file'] eqn:Hlookup.
  destruct stored as [[m|name]|]; cbn [fst].
  - unfold injectIntoBlock, is_tool_use.
    cbn [block_type block_id block_input block_rest]. rewrite Hskip.
    destruct (assignMetadata_cases m input) as [Hmarked | Hsame].
    + now rewrite Hmarked.
    + rewrite Hsame, Hmeta, Hlookup. cbn [fst]. now rewrite Hsame.
  - unfold injectIntoBlock, is_tool_use.
    cbn [block_type block_id block_input block_rest].
    now rewrite Hskip, Hmeta, Hlookup.
  - unfold injectIntoBlock, is_tool_use.
    cbn [block_type block_id block_input block_rest].
    now rewrite Hskip, Hmeta, Hlookup.
Qed.

Local Abbreviation block_result :=
  (fun block => fst (injectIntoBlock st fs (scanned st fs) block)).

Local Abbreviation message_result :=
  (fun message => fst (injectIntoMessage st fs (scanned st fs) message)).

Lemma injectIntoBlocks_scan (blocks : list Block) :
  forall scan, scan_reads st fs scan ->
    fst (injectIntoBlocks st fs scan blocks) = List.map block_result blocks
    /\ scan_reads st fs (snd (injectIntoBlocks st fs scan blocks)).
Proof.
  induction blocks as [|block blocks IH]; intros scan Hscan; [simpl; auto|].
  simpl. destruct (injectIntoBlock_scan scan block Hscan) as [Hfst Hsnd].
  destruct (injectIntoBlock st fs scan block) as [block' scan1]. simpl in Hfst, Hsnd.
  destruct (IH scan1 Hsnd) as [Hrest Hok].
  destruct (injectIntoBlocks st fs scan1 blocks) as [rest scan2]. simpl in *.
  subst. auto.
Qed.

Lemma scanned_reads : scan_reads st fs (scanned st fs).
Proof. right. reflexivity. Qed.

Lemma injectIntoMessage_scan (scan : ScanState) (message : Message) :
  scan_reads st fs scan ->
  fst (injectIntoMessage st fs scan message) = message_result message
  /\ scan_reads st fs (snd (injectIntoMessage st fs scan message)).
Proof.
  intros Hscan. unfold injectIntoMessage.
  destruct (role message) as [r|]; [|auto].
  destruct (content message) as [blocks|]; [|auto].
  destruct (String.eqb r "assistant"); [|auto].
  destruct (injectIntoBlocks_scan blocks scan Hscan) as [Hfst Hsnd].
  destruct (injectIntoBlocks_scan blocks (scanned st fs) scanned_reads) as [Hfst' _].
  destruct (injectIntoBlocks st fs scan blocks) as [blocks1 scan1].
  destruct (injectIntoBlocks st fs (scanned st fs) blocks) as [blocks2 scan2].
  simpl in *. subst. auto.
Qed.

Lemma injectIntoMessages_scan (msgs : list Message) :
  forall scan, scan_reads st fs scan ->
    fst (injectIntoMessages st fs scan msgs) = List.map message_result msgs
    /\ scan_reads st fs (snd (injectIntoMessages st fs scan msgs)).
Proof.
  induction msgs as [|message msgs IH]; intros scan Hscan; [simpl; auto|].
  simpl. destruct (injectIntoMessage_scan scan message Hscan) as [Hfst Hsnd].
  destruct (injectIntoMessage st fs scan message) as [message' scan1]. simpl in Hfst, Hsnd.
  destruct (IH scan1 Hsnd) as [Hrest Hok].
  destruct (injectIntoMessages st fs scan1 msgs) as [rest scan2]. simpl in *.
  subst. auto.
Qed.

Lemma message_result_again (message : Message) :
  message_result (message_result message) = message_result message.
Proof.
  unfold injectIntoMessage at 2 3.
  destruct (role message) as [r|] eqn:Hrole.
  2:{ simpl. unfold injectIntoMessage. now rewrite Hrole. }
  destruct (content message) as [blocks|] eqn:Hcontent.
  2:{ simpl. unfold injectIntoMessage. now rewrite Hrole, Hcontent. }
  destruct (String.eqb r "assistant") eqn:Hassistant.
  2:{ simpl. unfold injectIntoMessage. now rewrite Hrole, Hcontent, Hassistant. }
  destruct (injectIntoBlocks_scan blocks (scanned st fs) scanned_reads) as [Hfst _].
  destruct (injectIntoBlocks st fs (scanned st fs) blocks) as [blocks1 scan1].
  simpl in Hfst. subst blocks1. simpl.
  unfold injectIntoMessage. simpl. rewrite Hassistant.
  destruct (injectIntoBlocks_scan (List.map block_result blocks) (scanned st fs) scanned_reads)
    as [Hfst' _].
  destruct (injectIntoBlocks st fs (scanned st fs) (List.map block_result blocks))
    as [blocks2 scan2].
  simpl in Hfst'. subst blocks2. simpl. f_equal. f_equal.
  rewrite List.map_map. apply List.map_ext. intros block. apply injectIntoBlock_again.
Qed.

Lemma block_result_lookup (blocks : list Block) (j : nat) (block : Block) (input : obj json) :
  blocks !! j = Some block ->
  block_input block = Some input ->
  has_metadata input = true ->
  List.map block_result blocks !! j = Some block.
Proof.
  intros Hj Hinput Hmeta.
  change (List.map block_result blocks) with (block_result <$> blocks).
  rewrite list_lookup_fmap, Hj. simpl.
  now rewrite (injectIntoBlock_has_metadata _ _ _ Hinput Hmeta).
Qed.

Lemma message_result_content (message : Message) (blocks : list Block) :
  content message = Some blocks ->
  message_result message = message
  \/ content (message_result message) = Some (List.map block_result blocks).
Proof.
  intros Hcontent. unfold injectIntoMessage. rewrite Hcontent.
  destruct (role message) as [r|]; [|auto].
  destruct (String.eqb r "assistant"); [|auto].
  destruct (injectIntoBlocks_scan blocks (scanned st fs) scanned_reads) as [Hblocks _].
  destruct (injectIntoBlocks st fs (scanned st fs) blocks) as [blocks1 scan1].
  cbn [fst] in *. subst blocks1. right. reflexivity.
Qed.

(** C7: running the re-injection over a history it has already been run
    over, with the store unchanged, returns that history unchanged; and a
    block whose input already has [_intent] or [_displayName] is found
    unchanged, at the same place, after the pass. *)
Theorem injectMetadataIntoHistory_idempotent (body : Body) :
  injectMetadataIntoHistory st fs (injectMetadataIntoHistory st fs body)
  = injectMetadataIntoHistory st fs body
  /\ (forall (i j : nat) (block : Block) (input : obj json),
        block_at body i j = Some block ->
        block_input block = Some input ->
        has_metadata input = true ->
        block_at (injectMetadataIntoHistory st fs body) i j = Some block).
Proof.
  assert (Hstart : scan_reads st fs {| fileMetadata := None; injectedCount := O |})
    by (left; reflexivity).
  unfold injectMetadataIntoHistory.
  destruct (messages body) as [msgs|] eqn:Hmsgs.
  2:{ rewrite Hmsgs. split; [reflexivity|]. intros i j block input Hat _ _. exact Hat. }
  destruct (injectIntoMessages_scan msgs _ Hstart) as [Hfst _].
  simpl. rewrite Hfst.
  destruct (injectIntoMessages_scan (List.map message_result msgs) _ Hstart) as [Hfst' _].
  rewrite Hfst'. split.
  - f_equal. f_equal. rewrite List.map_map. apply List.map_ext.
    intros message. apply message_result_again.
  - intros i j block input Hat Hinput Hmeta.
    unfold block_at in *. rewrite Hmsgs in Hat. cbn [messages].
    change (List.map message_result msgs) with (message_result <$> msgs).
    rewrite list_lookup_fmap.
    destruct (msgs !! i) as [message|]; [|discriminate]. cbn [fmap option_fmap option_map].
    destruct (content message) as [blocks|] eqn:Hcontent; [|discriminate].
    destruct (message_result_content message blocks Hcontent) as [Hsame | Hmapped].
    + now rewrite Hsame, Hcontent.
    + rewrite Hmapped.
      exact (block_result_lookup blocks j block input Hat Hinput Hmeta).
Qed.

End WithStore.

Lemma injectMetadataIntoHistory_idempotent_witness :
  block_at
    (injectMetadataIntoHistory
       (fst (MetadataStore.set "toolu_1" Scenario.demo_metadata
               (MetadataStore.initial Scenario.demo_process) Scenario.empty_disk))
       Scenario.empty_disk Scenario.marked_body) 0 0
  = Some Scenario.marked_block.
Proof.
  apply (proj2 (injectMetadataIntoHistory_idempotent
                  (fst (MetadataStore.set "toolu_1" Scenario.demo_metadata
                          (MetadataStore.initial Scenario.demo_process) Scenario.empty_disk))
                  Scenario.empty_disk Scenario.marked_body)
           0%nat 0%nat Scenario.marked_block
           [("foo", JStr "bar"); ("_intent", JStr "earlier")]);
    reflexivity.
Defined.

End InjectFacts.

(** ** The metadata store and the API error file *)

Module StoreFacts.
Import Js Json Fs MetadataStore.

Lemma meta_of_to_json (m : ToolMetadata) : meta_of_json (meta_to_json m) = Some m.
Proof. destruct m as [[i|] [d|] t]; reflexivity. Qed.

Lemma entries_of_to_json (l : list (string * ToolMetadata)) :
  entries_of_json (List.map (fun kv => (fst kv, meta_to_json (snd kv))) l)
  = Some (list_to_map l).
Proof.
  induction l as [|[k m] l IH]; [reflexivity|].
  cbn [List.map entries_of_json fst snd list_to_map foldr].
  now rewrite meta_of_to_json, IH.
Qed.

(** Decoding the printed form of a record gives the record back. *)
Lemma record_of_to_json (r : gmap string ToolMetadata) :
  record_of_json (record_to_json r) = Some r.
Proof.
  unfold record_of_json, record_to_json.
  rewrite entries_of_to_json. f_equal. apply list_to_map_to_list.
Qed.

(** The loop of [setSessionDir] copies the entries it is given. *)
Lemma copy_entries (l : list (string * ToolMetadata)) :
  forall acc : gmap string ToolMetadata,
    NoDup l.*1 ->
    foldl (fun m kv => <[fst kv := snd kv]> m) acc l = list_to_map l ∪ acc.
Proof.
  induction l as [|[k v] l IH]; intros acc Hnd; simpl.
  - now rewrite (left_id_L ∅ (∪)).
  - inversion Hnd as [|? ? Hk Hnd']; subst.
    rewrite IH by assumption.
    rewrite <- insert_union_l.
    rewrite <- insert_union_r; [reflexivity|].
    now apply not_elem_of_list_to_map_1.
Qed.

Lemma copy_all (all : gmap string ToolMetadata) :
  foldl (fun m kv => <[fst kv := snd kv]> m) ∅ (map_to_list all) = all.
Proof.
  rewrite copy_entries by apply NoDup_fst_map_to_list.
  rewrite (right_id_L ∅ (∪)). apply list_to_map_to_list.
Qed.

(** Assigning to a record: every name but [__proto__] gets its entry, and
    the other entries stay. *)
Lemma record_set_same (k : string) (m : ToolMetadata) (r : gmap string ToolMetadata) :
  k <> "__proto__" -> record_set k m r !! k = Some m.
Proof.
  intros Hk. unfold record_set. apply String.eqb_neq in Hk. rewrite Hk.
  destruct (r !! k); apply lookup_insert_eq.
Qed.

Lemma record_set_other (k k' : string) (m : ToolMetadata) (r : gmap string ToolMetadata) :
  k' <> k -> record_set k m r !! k' = r !! k'.
Proof.
  intros Hk. unfold record_set.
  destruct (r !! k); [now apply lookup_insert_ne|].
  destruct (String.eqb k "__proto__"); [reflexivity | now apply lookup_insert_ne].
Qed.

Lemma record_set_proto (m : ToolMetadata) (r : gmap string ToolMetadata) :
  r !! "__proto__" = None -> record_set "__proto__" m r = r.
Proof. intros Hr. unfold record_set. now rewrite Hr. Qed.

Section WithRuntime.
Context `{Runtime}.

(** When [set] has written the file of session directory [D] for an id
    other than [__proto__], another process (fresh module state) that
    calls [setSessionDir D] finds the metadata in its in-memory map and
    returns it from [get]. *)
Lemma written_entry_is_read_elsewhere (fs : FileSystem) (st : ModuleState)
    (env : ProcessEnv) (D toolUseId : string) (metadata : ToolMetadata) :
  _sessionDir st = Some D ->
  D <> "" ->
  join D "tool-metadata.json" +:+ ".tmp" ∉ write_denied fs ->
  join D "tool-metadata.json" ∉ write_denied fs ->
  typed_file st fs = true ->
  toolUseId <> "__proto__" ->
  (forall shadow, _fileCache (fst (set toolUseId metadata st fs)) = Some shadow ->
                  round_trips (record_to_json shadow)) ->
  let disk := snd (set toolUseId metadata st fs) in
  let other := setSessionDir D (initial env) disk in
  _metadataMap other !! toolUseId = Some metadata
  /\ get toolUseId other disk = Some (Entry metadata).
Proof.
  intros Hdir HD Htmp Hpath _ Hid Hround disk other.
  assert (Htruthy : str_truthy D = true).
  { unfold str_truthy. apply negb_true_iff, String.eqb_neq. exact HD. }
  set (shadow := record_set toolUseId metadata
                   match _fileCache st with
                   | Some c => c
                   | None => readMetadataFile st fs
                   end).
  assert (Hdisk : files disk !! join D "tool-metadata.json"
                  = Some (JSON_stringify (record_to_json shadow))).
  { subst disk. unfold set. simpl. fold shadow.
    unfold writeMetadataFile, getMetadataFilePath. rewrite Hdir, Htruthy.
    unfold writeFileSync. rewrite decide_False by exact Htmp.
    unfold renameSync. simpl. rewrite lookup_insert_eq.
    rewrite decide_False by exact Hpath. simpl.
    apply lookup_insert_eq. }
  assert (Hmap : _metadataMap other = shadow).
  { subst other. unfold setSessionDir. simpl.
    unfold readMetadataFile, getMetadataFilePath. simpl. rewrite Htruthy.
    unfold readFileSync. rewrite Hdisk.
    rewrite (Hround shadow) by reflexivity.
    rewrite record_of_to_json. apply copy_all. }
  assert (Hget : _metadataMap other !! toolUseId = Some metadata).
  { rewrite Hmap. now apply record_set_same. }
  split; [exact Hget|].
  unfold get. now rewrite Hget.
Qed.

End WithRuntime.

(** C8 fails at the id [__proto__].  A process whose session directory is
    [/sessions/s1] calls [set] with that id on an empty disk, and the write
    goes through: the process itself gets the metadata back, but the file
    it has written holds the empty record.  Another process that calls
    [setSessionDir] on the directory has nothing in its in-memory map, and
    its [get] returns the member [__proto__] of [Object.prototype] instead
    of the metadata. *)
Theorem proto_entry_is_not_written :
  let st := initial Scenario.demo_process in
  let disk := snd (set "__proto__" Scenario.demo_metadata st Scenario.empty_disk) in
  let other := setSessionDir "/sessions/s1" (initial Scenario.demo_process) disk in
  get "__proto__" (fst (set "__proto__" Scenario.demo_metadata st Scenario.empty_disk)) disk
  = Some (Entry Scenario.demo_metadata)
  /\ files disk !! "/sessions/s1/tool-metadata.json" = Some "{}"
  /\ files disk !! "/sessions/s1/tool-metadata.json.tmp" = None
  /\ _metadataMap other = ∅
  /\ get "__proto__" other disk = Some (Inherited "__proto__").
Proof. vm_compute. repeat split; reflexivity. Qed.

End StoreFacts.

Module ApiErrorFacts.
Import Js Json Fs ApiError.

Section WithRuntime.
Context `{Runtime}.

Lemma stored_error_is_truthy_object (e : LastApiError) :
  truthy (error_to_json e) = true
  /\ get_prop_opt (Some (error_to_json e)) "timestamp" = Some (JNum (timestamp e)).
Proof. split; reflexivity. Qed.

(** Reading the file the capture wrote: the error comes back, and the file
    is gone when it can be removed. *)
Lemma getStoredError_pops (env : ProcessEnv) (fs : FileSystem) (e : LastApiError) :
  ERROR_FILE env ∉ write_denied fs ->
  round_trips (error_to_json e) ->
  let written := setStoredError env (Some e) fs in
  fst (getStoredError env written) = Some (error_to_json e)
  /\ (ERROR_FILE env ∉ unlink_denied fs ->
      files (snd (getStoredError env written)) !! ERROR_FILE env = None).
Proof.
  intros Hwrite Hround written.
  assert (Hfile : files written !! ERROR_FILE env
                  = Some (JSON_stringify (error_to_json e))).
  { subst written. unfold setStoredError, writeFileSync.
    rewrite decide_False by exact Hwrite. simpl. apply lookup_insert_eq. }
  assert (Hdenied : unlink_denied written = unlink_denied fs).
  { subst written. unfold setStoredError, writeFileSync.
    rewrite decide_False by exact Hwrite. reflexivity. }
  unfold getStoredError, existsSync, readFileSync, unlinkSync.
  rewrite Hfile. rewrite bool_decide_eq_true_2 by eauto. simpl.
  rewrite Hround. rewrite Hdenied.
  destruct (decide (ERROR_FILE env ∈ unlink_denied fs)) as [Hin|Hout]; simpl.
  - split; [reflexivity | contradiction].
  - split; [reflexivity | intros _; apply lookup_delete_eq].
Qed.

Lemma getLastApiError_missing (env : ProcessEnv) (now : Z) (fs : FileSystem) :
  files fs !! ERROR_FILE env = None ->
  fst (getLastApiError env now fs) = None.
Proof.
  intros Hnone. unfold getLastApiError, getStoredError, existsSync.
  rewrite Hnone. rewrite bool_decide_eq_false_2; [reflexivity|].
  intros [x Hx]. discriminate.
Qed.

(** C9, amended: after an error response (status 400 or more) of the
    messages endpoint has been captured at time [t0], a first
    [getLastApiError] inside the five-minute window returns the stored
    error, and, provided the error file can be removed, a second call
    returns null; a first call made when five minutes or more have passed
    returns null, although the entry has never been read. *)
Theorem last_api_error_is_popped (env : ProcessEnv) (fs : FileSystem) (url : string)
    (status : Z) (statusText : string) (body : option string) (t0 : Z) :
  shouldCaptureApiErrors env url = true ->
  400 <= status ->
  ERROR_FILE env ∉ write_denied fs ->
  round_trips (error_to_json (capturedError status statusText body t0)) ->
  let captured := logResponse env url status statusText body t0 fs in
  (forall t1, t1 - t0 < MAX_ERROR_AGE_MS ->
     fst (getLastApiError env t1 captured)
     = Some (error_to_json (capturedError status statusText body t0))
     /\ (ERROR_FILE env ∉ unlink_denied fs ->
         forall t2, fst (getLastApiError env t2 (snd (getLastApiError env t1 captured))) = None))
  /\ (forall t1, MAX_ERROR_AGE_MS <= t1 - t0 ->
        fst (getLastApiError env t1 captured) = None).
Proof.
  intros Hurl Hstatus Hwrite Hround captured.
  assert (Hcaptured : captured
                      = setStoredError env (Some (capturedError status statusText body t0)) fs).
  { subst captured. unfold logResponse. rewrite Hurl.
    assert (Hle : (400 <=? status) = true) by (apply Z.leb_le; exact Hstatus).
    now rewrite Hle. }
  destruct (getStoredError_pops env fs _ Hwrite Hround) as [Hread Hgone].
  rewrite <- Hcaptured in Hread, Hgone.
  assert (Hts : timestamp (capturedError status statusText body t0) = t0)
    by (destruct body; reflexivity).
  destruct (stored_error_is_truthy_object (capturedError status statusText body t0))
    as [Htruthy Hstamp].
  split.
  - intros t1 Hfresh.
    assert (Hcall : getLastApiError env t1 captured
                    = (Some (error_to_json (capturedError status statusText body t0)),
                       snd (getStoredError env captured))).
    { unfold getLastApiError.
      destruct (getStoredError env captured) as [stored disk]. simpl in Hread. subst stored.
      rewrite Htruthy. unfold is_fresh. rewrite Hstamp, Hts.
      assert (Hlt : (t1 - t0 <? MAX_ERROR_AGE_MS) = true) by (apply Z.ltb_lt; exact Hfresh).
      now rewrite Hlt. }
    rewrite Hcall. simpl. split; [reflexivity|].
    intros Hunlink t2. apply getLastApiError_missing. exact (Hgone Hunlink).
  - intros t1 Hstale. unfold getLastApiError.
    destruct (getStoredError env captured) as [stored disk]. simpl in Hread. subst stored.
    rewrite Htruthy. unfold is_fresh. rewrite Hstamp, Hts.
    assert (Hlt : (t1 - t0 <? MAX_ERROR_AGE_MS) = false) by (apply Z.ltb_ge; exact Hstale).
    now rewrite Hlt.
Qed.

End WithRuntime.

(** C9, as stated, fails: when the error file cannot be removed, the
    failed removal is ignored, and a second call that follows immediately
    returns the error once more instead of null. *)
Lemma undeletable_error_is_read_twice :
  let captured :=
    logResponse Scenario.demo_process "https://api.anthropic.com/v1/messages" 402
      "Payment Required" (Some Scenario.demo_error_body) 1000 Scenario.locked_error_disk in
  let error :=
    error_to_json (capturedError 402 "Payment Required" (Some Scenario.demo_error_body) 1000) in
  fst (getLastApiError Scenario.demo_process 1001 captured) = Some error
  /\ fst (getLastApiError Scenario.demo_process 1001
            (snd (getLastApiError Scenario.demo_process 1001 captured)))
     = Some error
  /\ fst (getLastApiError Scenario.demo_process 1001
            (snd (getLastApiError Scenario.demo_process 1001 captured)))
     <> None.
Proof. split; [|split]; vm_compute; [reflexivity | reflexivity | discriminate]. Qed.

Lemma last_api_error_is_popped_witness :
  let captured :=
    logResponse Scenario.demo_process "https://api.anthropic.com/v1/messages" 402
      "Payment Required" (Some Scenario.demo_error_body) 1000 Scenario.empty_disk in
  fst (getLastApiError Scenario.demo_process 1060 captured)
  = Some (error_to_json
            (capturedError 402 "Payment Required" (Some Scenario.demo_error_body) 1000))
  /\ fst (getLastApiError Scenario.demo_process 1061
            (snd (getLastApiError Scenario.demo_process 1060 captured)))
     = None.
Proof.
  intros captured.
  pose proof (last_api_error_is_popped (H := reference) Scenario.demo_process
                Scenario.empty_disk
                "https://api.anthropic.com/v1/messages" 402 "Payment Required"
                (Some Scenario.demo_error_body) 1000
                eq_refl ltac:(lia)
                ltac:(cbn [write_denied Scenario.empty_disk]; apply not_elem_of_empty)
                ltac:(vm_compute; reflexivity)) as [Hfresh _].
  destruct (Hfresh 1060 ltac:(unfold MAX_ERROR_AGE_MS; lia)) as [Hfirst Hsecond].
  split; [exact Hfirst|].
  apply Hsecond. cbn [unlink_denied Scenario.empty_disk]. apply not_elem_of_empty.
Defined.

End ApiErrorFacts.

(** ** The SSE transform: single events *)

Module SseEventFacts.
Import Js Json Sse.

Section WithRuntime.
Context `{Runtime}.

Lemma emitRemaining_app (a b : TrackedBlocks) :
  emitRemaining (a ++ b) = emitRemaining a ++ emitRemaining b.
Proof.
  induction a as [|[index block] a IH]; [reflexivity|].
  cbn [app emitRemaining]. now rewrite IH, app_assoc.
Qed.

(** C10: when a tracked block stops with an empty buffer, [processEvent]
    stops tracking it and enqueues the stop event alone; the block emits
    nothing, neither there nor when [flush] goes over the blocks that are
    still tracked. *)
Theorem empty_buffer_emits_no_delta (dataStr : string) (data : json)
    (index : option json) (block : TrackedToolBlock) (tracked : TrackedBlocks) :
  JSON_parse dataStr = Some data ->
  get_prop data "index" = Some index ->
  map_get index tracked = Some block ->
  bufferedJson block = "" ->
  processEvent "content_block_stop" dataStr tracked
  = Some (map_delete index tracked, [emitSseEvent "content_block_stop" dataStr])
  /\ emitBufferedBlock block index = []
  /\ (forall before after,
        emitRemaining (before ++ (index, block) :: after)
        = emitRemaining before ++ emitRemaining after).
Proof.
  intros Hparse Hindex Htracked Hempty.
  assert (Hnone : emitBufferedBlock block index = []).
  { unfold emitBufferedBlock. now rewrite Hempty. }
  split; [|split].
  - unfold processEvent. rewrite Hparse.
    change (String.eqb "content_block_stop" "content_block_start") with false.
    change (String.eqb "content_block_stop" "content_block_delta") with false.
    change (String.eqb "content_block_stop" "content_block_stop") with true.
    cbn iota. rewrite Hindex. cbn [mbind option_bind].
    now rewrite Htracked, Hnone.
  - exact Hnone.
  - intros before after. rewrite emitRemaining_app.
    cbn [emitRemaining]. now rewrite Hnone.
Qed.

End WithRuntime.

Lemma empty_buffer_emits_no_delta_witness :
  processEvents Scenario.empty_tool_stream_events []
  = Some ([], List.map (fun e => Enqueue (frame e)) Scenario.empty_tool_stream_events).
Proof.
  pose proof (empty_buffer_emits_no_delta (H := reference)
                (lit "{'type':'content_block_stop','index':1}")
                (JObj [("type", JStr "content_block_stop"); ("index", JNum 1)])
                (Some (JNum 1))
                {| id := JStr "toolu_2"; name := JStr "mcp__demo__list";
                   index := Some (JNum 1); bufferedJson := "" |}
                [(Some (JNum 1),
                  {| id := JStr "toolu_2"; name := JStr "mcp__demo__list";
                     index := Some (JNum 1); bufferedJson := "" |})]
                ltac:(vm_compute; reflexivity) eq_refl eq_refl eq_refl) as [Hstop _].
  unfold Scenario.empty_tool_stream_events. cbn [processEvents eventType dataStr].
  replace (processEvent "content_block_start"
             (lit "{'type':'content_block_start','index':1,'content_block':{'type':'tool_use','id':'toolu_2','name':'mcp__demo__list','input':{}}}")
             [])
    with (Some ([(Some (JNum 1),
                  {| id := JStr "toolu_2"; name := JStr "mcp__demo__list";
                     index := Some (JNum 1); bufferedJson := "" |})],
                [emitSseEvent "content_block_start"
                   (lit "{'type':'content_block_start','index':1,'content_block':{'type':'tool_use','id':'toolu_2','name':'mcp__demo__list','input':{}}}")]))
    by (vm_compute; reflexivity).
  cbn [mbind option_bind]. rewrite Hstop. reflexivity.
Defined.

End SseEventFacts.

(** ** The SSE transform: chunk boundaries *)

Module SseChunkFacts.
Import Js Json Sse.

Lemma append_cons (c : ascii) (a b : string) : String c a +:+ b = String c (a +:+ b).
Proof. reflexivity. Qed.

Lemma append_assoc (a b c : string) : (a +:+ b) +:+ c = a +:+ (b +:+ c).
Proof.
  induction a as [|x a IH]; [reflexivity|].
  rewrite !append_cons. now rewrite IH.
Qed.

Lemma append_empty_r (a : string) : a +:+ "" = a.
Proof.
  induction a as [|x a IH]; [reflexivity|].
  rewrite append_cons. now rewrite IH.
Qed.

(** The complete lines of a text and the partial line after them: the two
    parts [transform] takes from [text.split('\n')]. *)
Local Abbreviation complete text := (fst (pop (split_lines text))).
Local Abbreviation partial text := (default "" (snd (pop (split_lines text)))).

Lemma split_lines_cons (text : string) : exists line lines, split_lines text = line :: lines.
Proof.
  induction text as [|c text [line [lines IH]]]; [now exists "", []|].
  cbn [split_lines]. destruct (Ascii.eqb c "010"); [eauto|].
  rewrite IH. eauto.
Qed.

Lemma pop_cons {A} (x y : A) (l : list A) :
  pop (x :: y :: l) = (x :: fst (pop (y :: l)), snd (pop (y :: l))).
Proof.
  change (pop (x :: y :: l)) with (let '(r, last) := pop (y :: l) in (x :: r, last)).
  destruct (pop (y :: l)). reflexivity.
Qed.

Lemma split_newline (text : string) :
  complete (String "010" text) = "" :: complete text
  /\ partial (String "010" text) = partial text.
Proof.
  assert (Hsplit : split_lines (String "010" text) = "" :: split_lines text) by reflexivity.
  rewrite Hsplit.
  destruct (split_lines_cons text) as [line [lines ->]].
  rewrite pop_cons. auto.
Qed.

Lemma split_other (c : ascii) (text : string) :
  Ascii.eqb c "010" = false ->
  complete (String c text)
  = match complete text with
    | [] => []
    | line :: lines => String c line :: lines
    end
  /\ partial (String c text)
     = match complete text with
       | [] => String c (partial text)
       | _ :: _ => partial text
       end.
Proof.
  intros Hc. cbn [split_lines]. rewrite Hc.
  destruct (split_lines_cons text) as [line [lines ->]].
  destruct lines as [|line2 lines]; [auto|].
  rewrite !pop_cons. auto.
Qed.

(** Cutting a text in two: the complete lines of the whole are those of the
    first part followed by those of its partial line put before the second
    part. *)
Lemma split_append (a b : string) :
  complete (a +:+ b) = complete a ++ complete (partial a +:+ b)
  /\ partial (a +:+ b) = partial (partial a +:+ b).
Proof.
  induction a as [|c a [IHc IHp]]; [auto|].
  rewrite append_cons.
  destruct (Ascii.eqb c "010") eqn:Hc.
  - apply Ascii.eqb_eq in Hc. subst c.
    destruct (split_newline (a +:+ b)) as [-> ->].
    destruct (split_newline a) as [-> ->].
    rewrite IHc, IHp. auto.
  - destruct (split_other c (a +:+ b) Hc) as [-> ->].
    destruct (split_other c a Hc) as [-> ->].
    rewrite IHc, IHp.
    destruct (complete a) as [|line lines].
    + rewrite append_cons.
      destruct (split_other c (partial a +:+ b) Hc) as [-> ->]. auto.
    + auto.
Qed.

Section WithRuntime.
Context `{Runtime}.

Local Abbreviation retarget := (fun (buffer : string) (r : StreamState * list Action) =>
  (withLineBuffer buffer (fst r), snd r)).

(** The loop over the lines neither reads nor writes the line buffer. *)
Lemma processLine_buffer (line buffer : string) (st : StreamState) :
  processLine line (withLineBuffer buffer st) = retarget buffer <$> processLine line st.
Proof.
  unfold processLine, withLineBuffer.
  cbn [trackedBlocks lineBuffer currentEventType currentData].
  destruct (String.eqb (trim line) "").
  - destruct (str_truthy (currentEventType st) && str_truthy (currentData st)); [|reflexivity].
    destruct (processEvent (currentEventType st) (currentData st) (trackedBlocks st))
      as [[tracked acts]|]; reflexivity.
  - destruct (match_field "event:" (trim line)); [reflexivity|].
    destruct (match_field "data:" (trim line)); reflexivity.
Qed.

Lemma withLineBuffer_twice (a b : string) (st : StreamState) :
  withLineBuffer a (withLineBuffer b st) = withLineBuffer a st.
Proof. reflexivity. Qed.

Lemma processLines_buffer (lines : list string) :
  forall (buffer : string) (st : StreamState),
    processLines lines (withLineBuffer buffer st) = retarget buffer <$> processLines lines st.
Proof.
  induction lines as [|line lines IH]; intros buffer st; [reflexivity|].
  cbn [processLines]. rewrite processLine_buffer.
  destruct (processLine line st) as [[st1 acts1]|]; [|reflexivity].
  cbn [fmap option_fmap option_map mbind option_bind fst snd]. rewrite IH.
  destruct (processLines lines st1) as [[st2 acts2]|]; reflexivity.
Qed.

Lemma processLines_app (a b : list string) (st : StreamState) :
  processLines (a ++ b) st
  = '(st1, acts1) ← processLines a st;
    '(st2, acts2) ← processLines b st1;
    Some (st2, acts1 ++ acts2).
Proof.
  revert st. induction a as [|line a IH]; intros st.
  - cbn [app processLines mbind option_bind].
    destruct (processLines b st) as [[st2 acts2]|]; reflexivity.
  - cbn [app processLines].
    destruct (processLine line st) as [[st1 acts1]|]; [|reflexivity].
    cbn [mbind option_bind]. rewrite IH.
    destruct (processLines a st1) as [[st2 acts2]|]; [|reflexivity].
    cbn [mbind option_bind].
    destruct (processLines b st2) as [[st3 acts3]|]; [|reflexivity].
    cbn [mbind option_bind]. now rewrite app_assoc.
Qed.

Lemma transform_unfold (chunk : string) (st : StreamState) :
  transform chunk st
  = processLines (complete (lineBuffer st +:+ chunk))
      (withLineBuffer (partial (lineBuffer st +:+ chunk)) st).
Proof.
  unfold transform. destruct (pop (split_lines (lineBuffer st +:+ chunk))). reflexivity.
Qed.

(** Two chunks, one after the other, do what their concatenation does. *)
Lemma transform_append (a b : string) (st : StreamState) :
  ('(st1, acts1) ← transform a st;
   '(st2, acts2) ← transform b st1;
   Some (st2, acts1 ++ acts2))
  = transform (a +:+ b) st.
Proof.
  rewrite !transform_unfold. rewrite <- append_assoc.
  destruct (split_append (lineBuffer st +:+ a) b) as [-> ->].
  rewrite processLines_app. rewrite !processLines_buffer.
  destruct (processLines (complete (lineBuffer st +:+ a)) st) as [[st1 acts1]|]; [|reflexivity].
  cbn [fmap option_fmap option_map mbind option_bind fst snd].
  rewrite transform_unfold. cbn [withLineBuffer lineBuffer].
  change {| trackedBlocks := trackedBlocks st1;
            lineBuffer := partial (lineBuffer st +:+ a);
            currentEventType := currentEventType st1;
            currentData := currentData st1 |}
    with (withLineBuffer (partial (lineBuffer st +:+ a)) st1).
  rewrite !processLines_buffer.
  destruct (processLines (complete (partial (lineBuffer st +:+ a) +:+ b)) st1)
    as [[st2 acts2]|]; reflexivity.
Qed.

Lemma transformAll_concat (chunks : list string) :
  forall (chunk : string) (st : StreamState),
    transformAll (chunk :: chunks) st = transform (concat_chunks (chunk :: chunks)) st.
Proof.
  induction chunks as [|chunk2 chunks IH]; intros chunk st.
  - cbn [transformAll concat_chunks foldr]. rewrite append_empty_r.
    destruct (transform chunk st) as [[st1 acts1]|]; [|reflexivity].
    cbn [mbind option_bind]. now rewrite app_nil_r.
  - change (transformAll (chunk :: chunk2 :: chunks) st)
      with ('(st1, acts1) ← transform chunk st;
            '(st2, acts2) ← transformAll (chunk2 :: chunks) st1;
            Some (st2, acts1 ++ acts2)).
    change (concat_chunks (chunk :: chunk2 :: chunks))
      with (chunk +:+ concat_chunks (chunk2 :: chunks)).
    rewrite <- transform_append.
    destruct (transform chunk st) as [[st1 acts1]|]; [|reflexivity].
    cbn [mbind option_bind]. now rewrite IH.
Qed.

(** However the bytes are cut into chunks, the transform performs the same
    effects as on the single chunk of all the bytes. *)
Lemma pipeThrough_concat (chunks : list string) :
  pipeThrough chunks = pipeThrough [concat_chunks chunks].
Proof.
  unfold pipeThrough. destruct chunks as [|chunk chunks].
  - reflexivity.
  - rewrite transformAll_concat.
    cbn [transformAll].
    destruct (transform (concat_chunks (chunk :: chunks)) initial) as [[st1 acts1]|];
      [|reflexivity].
    cbn [mbind option_bind]. now rewrite app_nil_r.
Qed.

Lemma concat_one_byte_chunks (text : string) : concat_chunks (one_byte_chunks text) = text.
Proof.
  induction text as [|c text IH]; [reflexivity|].
  cbn [one_byte_chunks concat_chunks foldr]. fold (concat_chunks (one_byte_chunks text)).
  now rewrite IH.
Qed.

(** C2: fed byte by byte or as one chunk, the transform enqueues the same
    chunks and makes the same calls to the store; in particular the bytes
    read from its output are the same. *)
Theorem chunk_boundary_invariance (text : string) :
  pipeThrough (one_byte_chunks text) = pipeThrough [text]
  /\ outputText <$> pipeThrough (one_byte_chunks text) = outputText <$> pipeThrough [text].
Proof.
  assert (Hsame : pipeThrough (one_byte_chunks text) = pipeThrough [text])
    by (rewrite pipeThrough_concat; now rewrite concat_one_byte_chunks).
  split; [exact Hsame | now rewrite Hsame].
Qed.

End WithRuntime.
End SseChunkFacts.

(** ** White space and line terminators *)

Module TextFacts.
Import Js.

Lemma trim_start_cons (a : ascii) (r1 : string) :
  trim_start (String a r1)
  = if is_space a then trim_start r1
    else match r1 with
         | EmptyString => String a r1
         | String b r2 =>
             if space2 a b then trim_start r2
             else match r2 with
                  | EmptyString => String a r1
                  | String c r3 => if space3 a b c then trim_start r3 else String a r1
                  end
         end.
Proof. reflexivity. Qed.

Lemma all_space_cons (a : ascii) (r1 : string) :
  all_space (String a r1)
  = if is_space a then all_space r1
    else match r1 with
         | EmptyString => false
         | String b r2 =>
             if space2 a b then all_space r2
             else match r2 with
                  | EmptyString => false
                  | String c r3 => if space3 a b c then all_space r3 else false
                  end
         end.
Proof. reflexivity. Qed.

Lemma trim_start_step (s : string) :
  trim_start s = match after_space s with Some r => trim_start r | None => s end.
Proof.
  destruct s as [|a r1]; [reflexivity|].
  rewrite trim_start_cons. unfold after_space.
  destruct (is_space a); [reflexivity|].
  destruct r1 as [|b r2]; [reflexivity|].
  destruct (space2 a b); [reflexivity|].
  destruct r2 as [|c r3]; [reflexivity|].
  destruct (space3 a b c); reflexivity.
Qed.

Lemma all_space_step (s : string) :
  all_space s
  = match s with
    | EmptyString => true
    | String _ _ => match after_space s with Some r => all_space r | None => false end
    end.
Proof.
  destruct s as [|a r1]; [reflexivity|].
  rewrite all_space_cons. unfold after_space.
  destruct (is_space a); [reflexivity|].
  destruct r1 as [|b r2]; [reflexivity|].
  destruct (space2 a b); [reflexivity|].
  destruct r2 as [|c r3]; [reflexivity|].
  destruct (space3 a b c); reflexivity.
Qed.

Lemma after_space_shorter (s r : string) :
  after_space s = Some r -> (String.length r < String.length s)%nat.
Proof.
  destruct s as [|a [|b [|c t]]]; cbn [after_space];
    repeat match goal with |- context [if ?x then _ else _] => destruct x end;
    intros Hr; try discriminate; injection Hr as <-; cbn [String.length]; lia.
Qed.

(** Induction along the white space at the head of a text. *)
Lemma space_ind (P : string -> Prop) :
  P "" ->
  (forall s r, after_space s = Some r -> P r -> P s) ->
  (forall s, s <> "" -> after_space s = None -> P s) ->
  forall s, P s.
Proof.
  intros Hempty Hspace Hother.
  assert (Hall : forall n s, (String.length s <= n)%nat -> P s).
  { induction n as [|n IH]; intros s Hlen.
    - destruct s; [exact Hempty | cbn [String.length] in Hlen; lia].
    - destruct (after_space s) as [r|] eqn:Hs.
      + apply (Hspace s r Hs). apply IH.
        pose proof (after_space_shorter s r Hs). lia.
      + destruct s as [|a t]; [exact Hempty|]. now apply Hother. }
  intros s. now apply (Hall (String.length s)).
Qed.

Lemma after_space_app (s r x : string) :
  after_space s = Some r -> after_space (s +:+ x) = Some (r +:+ x).
Proof.
  destruct s as [|a [|b [|c t]]]; cbn [after_space String.append];
    rewrite ?SseChunkFacts.append_cons; cbn [after_space];
    repeat match goal with |- context [if ?c then _ else _] => destruct c end;
    intros Hr; try discriminate; injection Hr as <-; reflexivity.
Qed.

Lemma space3_cr (a b : ascii) : space3 a b "013" = false.
Proof.
  unfold space3, line_separator.
  change (Ascii.eqb "013" _) with false.
  change (128 <=? N_of_ascii "013")%N with false.
  rewrite !andb_false_r. reflexivity.
Qed.

Lemma space2_cr (a : ascii) : space2 a "013" = false.
Proof. unfold space2. change (Ascii.eqb "013" "160") with false. apply andb_false_r. Qed.

Lemma after_space_cr (s : string) :
  s <> "" -> after_space s = None -> after_space (s +:+ String "013" "") = None.
Proof.
  intros Hne. destruct s as [|a [|b [|c t]]]; [congruence|..].
  - change (String a "" +:+ String "013" "") with (String a (String "013" "")).
    cbn [after_space].
    destruct (is_space a); [discriminate|]. now rewrite space2_cr.
  - change (String a (String b "") +:+ String "013" "")
      with (String a (String b (String "013" ""))).
    cbn [after_space].
    destruct (is_space a); [discriminate|]. destruct (space2 a b); [discriminate|].
    now rewrite space3_cr.
  - rewrite !SseChunkFacts.append_cons. cbn [after_space].
    destruct (is_space a); [discriminate|]. destruct (space2 a b); [discriminate|].
    destruct (space3 a b c); [discriminate | reflexivity].
Qed.

Lemma all_space_cr (s : string) : all_space (s +:+ String "013" "") = all_space s.
Proof.
  induction s as [| s r Hs IH | s Hne Hs] using space_ind.
  - reflexivity.
  - rewrite (all_space_step s), (all_space_step (s +:+ String "013" "")).
    rewrite (after_space_app s r _ Hs), Hs, IH.
    destruct s; [discriminate | reflexivity].
  - rewrite (all_space_step s), (all_space_step (s +:+ String "013" "")).
    rewrite (after_space_cr s Hne Hs), Hs.
    destruct s; [congruence | reflexivity].
Qed.

Lemma trim_end_cr (s : string) : trim_end (s +:+ String "013" "") = trim_end s.
Proof.
  induction s as [|c s IH]; [reflexivity|].
  rewrite SseChunkFacts.append_cons. cbn [trim_end].
  rewrite <- SseChunkFacts.append_cons, all_space_cr, IH. reflexivity.
Qed.

Lemma trim_cr (line : string) : trim (line +:+ String "013" "") = trim line.
Proof.
  unfold trim. induction line as [| s r Hs IH | s Hne Hs] using space_ind.
  - reflexivity.
  - rewrite (trim_start_step s), (trim_start_step (s +:+ String "013" "")).
    now rewrite (after_space_app s r _ Hs), Hs.
  - rewrite (trim_start_step s), (trim_start_step (s +:+ String "013" "")).
    rewrite (after_space_cr s Hne Hs), Hs. apply trim_end_cr.
Qed.

(** A text that [trim_end] leaves as it is does not consist of white
    space, and stays as it is behind any character in front of which
    no white space begins. *)
Lemma kept_text_is_not_space (s : string) : s <> "" -> trim_end s = s -> all_space s = false.
Proof.
  destruct s as [|c s]; [congruence|]. intros _. cbn [trim_end].
  destruct (all_space (String c s)); [discriminate | reflexivity].
Qed.

Lemma trim_end_behind (c : ascii) (s : string) :
  all_space (String c s) = false -> trim_end s = s -> trim_end (String c s) = String c s.
Proof. intros Hc Hs. cbn [trim_end]. now rewrite Hc, Hs. Qed.

Lemma all_space_plain (c : ascii) (s : string) :
  after_space (String c s) = None -> all_space (String c s) = false.
Proof. intros Hc. now rewrite all_space_step, Hc. Qed.

Lemma all_space_behind_space (s : string) :
  all_space (String " " s) = all_space s.
Proof. reflexivity. Qed.

Lemma starts_line_separator_plain (a : ascii) (r : string) :
  Ascii.eqb a "226" = false -> starts_line_separator (String a r) = false.
Proof.
  intros Ha. destruct r as [|b [|c r]]; cbn [starts_line_separator]; try reflexivity.
  unfold line_separator. now rewrite Ha.
Qed.

Lemma no_line_terminator_plain (a : ascii) (r : string) :
  is_line_terminator a = false -> Ascii.eqb a "226" = false ->
  no_line_terminator (String a r) = no_line_terminator r.
Proof.
  intros Hterm Ha. cbn [no_line_terminator].
  now rewrite Hterm, (starts_line_separator_plain a r Ha).
Qed.

Lemma no_line_terminator_head (a : ascii) (r : string) :
  no_line_terminator (String a r) = true ->
  Ascii.eqb a "010" = false /\ no_line_terminator r = true.
Proof.
  cbn [no_line_terminator]. rewrite !andb_true_iff, !negb_true_iff.
  unfold is_line_terminator. rewrite orb_false_iff. tauto.
Qed.

End TextFacts.

(** ** The SSE transform: streams in the standard framing *)

Module SseFramingFacts.
Import Js Json Sse.

Local Abbreviation complete text := (fst (pop (split_lines text))).
Local Abbreviation partial text := (default "" (snd (pop (split_lines text)))).

Lemma standard_field_spec (s : string) :
  standard_field s = true ->
  s <> "" /\ trim_start s = s /\ trim_end s = s /\ no_line_terminator s = true.
Proof.
  unfold standard_field, str_truthy. rewrite !andb_true_iff.
  rewrite negb_true_iff, String.eqb_neq, !String.eqb_eq. tauto.
Qed.

Lemma trim_standard (s : string) : standard_field s = true -> trim s = s.
Proof.
  intros Hs. destruct (standard_field_spec s Hs) as (_ & Hstart & Hend & _).
  unfold trim. now rewrite Hstart, Hend.
Qed.

(** A line without line terminator, its newline, and the text after it. *)
Lemma split_line (line rest : string) :
  no_line_terminator line = true ->
  complete (line +:+ String "010" rest) = line :: complete rest
  /\ partial (line +:+ String "010" rest) = partial rest.
Proof.
  induction line as [|c line IH]; intros Hline.
  - apply SseChunkFacts.split_newline.
  - apply TextFacts.no_line_terminator_head in Hline as [Hc Hline].
    destruct (IH Hline) as [IHc IHp].
    rewrite SseChunkFacts.append_cons.
    destruct (SseChunkFacts.split_other c (line +:+ String "010" rest) Hc) as [-> ->].
    now rewrite IHc, IHp.
Qed.

Lemma frame_lines (e : SseEvent) (rest : string) :
  frame e +:+ rest
  = ("event: " +:+ eventType e)
    +:+ String "010" (("data: " +:+ dataStr e) +:+ String "010" ("" +:+ String "010" rest)).
Proof.
  unfold frame, sseText, newline. rewrite !SseChunkFacts.append_assoc. reflexivity.
Qed.

(** A text that starts with letters, a colon or a space: no white space of
    several bytes and no line separator begins at such a character. *)
Ltac plain_prefix :=
  repeat first
    [ rewrite TextFacts.no_line_terminator_plain by reflexivity
    | apply TextFacts.trim_end_behind;
      [first [ apply TextFacts.all_space_plain;
               match goal with |- after_space (String _ ?r) = None =>
                 destruct r as [|? [|? ?]]; reflexivity
               end
             | rewrite TextFacts.all_space_behind_space;
               now apply TextFacts.kept_text_is_not_space ]|] ].

Lemma event_line_standard (t : string) :
  standard_field t = true ->
  no_line_terminator ("event: " +:+ t) = true
  /\ trim ("event: " +:+ t) = "event: " +:+ t
  /\ match_field "event:" ("event: " +:+ t) = Some t.
Proof.
  intros Ht. destruct (standard_field_spec t Ht) as (Hne & Hstart & Hend & Hterm).
  split; [|split].
  - change ("event: " +:+ t)
      with (String "e" (String "v" (String "e" (String "n" (String "t" (String ":" (String " " t))))))).
    plain_prefix. exact Hterm.
  - unfold trim.
    change (trim_start ("event: " +:+ t)) with ("event: " +:+ t).
    change ("event: " +:+ t)
      with (String "e" (String "v" (String "e" (String "n" (String "t" (String ":" (String " " t))))))).
    plain_prefix. exact Hend.
  - unfold match_field.
    change (drop_prefix "event:" ("event: " +:+ t)) with (Some (String " " t)).
    cbv beta iota.
    change (trim_start (String " " t)) with (trim_start t).
    rewrite Hstart. destruct t as [|c t]; [congruence|]. now rewrite Hterm.
Qed.

Lemma data_line_standard (d : string) :
  standard_field d = true ->
  no_line_terminator ("data: " +:+ d) = true
  /\ trim ("data: " +:+ d) = "data: " +:+ d
  /\ match_field "event:" ("data: " +:+ d) = None
  /\ match_field "data:" ("data: " +:+ d) = Some d.
Proof.
  intros Hd. destruct (standard_field_spec d Hd) as (Hne & Hstart & Hend & Hterm).
  split; [|split; [|split; [reflexivity|]]].
  - change ("data: " +:+ d)
      with (String "d" (String "a" (String "t" (String "a" (String ":" (String " " d)))))).
    plain_prefix. exact Hterm.
  - unfold trim.
    change (trim_start ("data: " +:+ d)) with ("data: " +:+ d).
    change ("data: " +:+ d)
      with (String "d" (String "a" (String "t" (String "a" (String ":" (String " " d)))))).
    plain_prefix. exact Hend.
  - unfold match_field.
    change (drop_prefix "data:" ("data: " +:+ d)) with (Some (String " " d)).
    cbv beta iota.
    change (trim_start (String " " d)) with (trim_start d).
    rewrite Hstart. destruct d as [|c d]; [congruence|]. now rewrite Hterm.
Qed.

Section WithRuntime.
Context `{Runtime}.

(** A chunk the transform makes up itself: a [content_block_delta] event. *)
Local Abbreviation synthetic chunk := (exists d : string, chunk = sseText "content_block_delta" d).

Lemma enqueued_app (a b : list Action) : enqueued (a ++ b) = enqueued a ++ enqueued b.
Proof.
  induction a as [|[chunk|i x y] a IH]; cbn [app enqueued]; now rewrite ?IH.
Qed.

Lemma emitBufferedBlock_synthetic (block : TrackedToolBlock) (index : option json) :
  Forall (fun chunk => synthetic chunk) (enqueued (emitBufferedBlock block index)).
Proof.
  unfold emitBufferedBlock.
  destruct (negb (str_truthy (bufferedJson block))); [constructor|].
  destruct (JSON_parse (bufferedJson block)) as [parsed|].
  2:{ repeat constructor. eauto. }
  destruct (get_prop parsed "_intent") as [i|]; [|repeat constructor; eauto].
  destruct (get_prop parsed "_displayName") as [d|]; [|repeat constructor; eauto].
  destruct (opt_str_truthy (as_string i) || opt_str_truthy (as_string d));
    cbn [app enqueued emitSseEvent]; repeat constructor; eauto.
Qed.

Lemma emitRemaining_synthetic (tracked : TrackedBlocks) :
  Forall (fun chunk => synthetic chunk) (enqueued (emitRemaining tracked)).
Proof.
  induction tracked as [|[index block] tracked IH]; [constructor|].
  cbn [emitRemaining]. rewrite enqueued_app. apply Forall_app. split; [|exact IH].
  apply emitBufferedBlock_synthetic.
Qed.

Lemma get_prop_defined (data : json) (k : string) :
  data <> JNull -> get_prop data k = Some (get_prop_opt (Some data) k).
Proof. destruct data; intros Hdata; try reflexivity. congruence. Qed.

(** One standard event: it is withheld and nothing is enqueued, or its own
    frame is enqueued, after at most the synthetic event of its block. *)
Lemma processEvent_standard (e : SseEvent) (tracked : TrackedBlocks) :
  standard_event e = true ->
  exists acts,
    processEvent (eventType e) (dataStr e) tracked = Some (tracked_after tracked e, acts)
    /\ if suppressed tracked e then enqueued acts = []
       else exists pre, enqueued acts = pre ++ [frame e]
                        /\ Forall (fun chunk => synthetic chunk) pre.
Proof.
  intros He. unfold standard_event in He. apply andb_true_iff in He as [_ Hdata].
  unfold is_block_event in Hdata.
  unfold tracked_after, suppressed, processEvent.
  destruct (JSON_parse (dataStr e)) as [data|].
  2:{ rewrite andb_false_r. eexists. split; [reflexivity|].
      exists []. split; [reflexivity|constructor]. }
  destruct (String.eqb (eventType e) "content_block_start") eqn:Hstart.
  { assert (Hnull : data <> JNull) by (intros ->; discriminate).
    rewrite !(get_prop_defined data) by exact Hnull. cbn [mbind option_bind].
    apply String.eqb_eq in Hstart. rewrite Hstart.
    change (String.eqb "content_block_start" "content_block_delta") with false.
    cbn [andb].
    destruct (is_tool_use_start (get_prop_opt (Some data) "content_block"));
      (eexists; split; [reflexivity|]; exists []; split;
       [unfold frame; now rewrite Hstart | constructor]). }
  destruct (String.eqb (eventType e) "content_block_delta") eqn:Hdelta.
  { assert (Hnull : data <> JNull) by (intros ->; discriminate).
    rewrite !(get_prop_defined data) by exact Hnull. cbn [mbind option_bind].
    cbn [andb]. unfold map_has.
    destruct (is_str (get_prop_opt (get_prop_opt (Some data) "delta") "type") "input_json_delta").
    - destruct (map_get (get_prop_opt (Some data) "index") tracked) as [block|].
      + eexists. split; reflexivity.
      + eexists. split; [reflexivity|]. exists []. split; [reflexivity|constructor].
    - eexists. split; [reflexivity|]. exists []. split; [reflexivity|constructor]. }
  cbn [andb].
  destruct (String.eqb (eventType e) "content_block_stop").
  - assert (Hnull : data <> JNull) by (intros ->; discriminate).
    rewrite !(get_prop_defined data) by exact Hnull. cbn [mbind option_bind].
    destruct (map_get (get_prop_opt (Some data) "index") tracked) as [block|].
    + eexists. split; [reflexivity|].
      exists (enqueued (emitBufferedBlock block (get_prop_opt (Some data) "index"))).
      split; [now rewrite enqueued_app | apply emitBufferedBlock_synthetic].
    + eexists. split; [reflexivity|]. exists []. split; [reflexivity|constructor].
  - eexists. split; [reflexivity|]. exists []. split; [reflexivity|constructor].
Qed.

(** A sequence of standard events: every event that is not withheld is
    enqueued as it came, in order, and the other chunks are synthetic. *)
Lemma processEvents_standard (events : list SseEvent) :
  Forall (fun e => standard_event e = true) events ->
  forall tracked, exists tracked' acts,
    processEvents events tracked = Some (tracked', acts)
    /\ sublist (frame <$> kept tracked events) (enqueued acts)
    /\ Forall (fun chunk => chunk ∈ (frame <$> kept tracked events) \/ synthetic chunk)
              (enqueued acts).
Proof.
  induction 1 as [|e events He _ IH]; intros tracked.
  - exists tracked, []. repeat split; constructor.
  - destruct (processEvent_standard e tracked He) as (acts1 & Hstep & Hacts1).
    destruct (IH (tracked_after tracked e)) as (tracked' & acts2 & Hrest & Hsub & Hall).
    exists tracked', (acts1 ++ acts2).
    cbn [processEvents kept]. rewrite Hstep. cbn [mbind option_bind]. rewrite Hrest.
    cbn [mbind option_bind]. split; [reflexivity|]. rewrite enqueued_app.
    destruct (suppressed tracked e).
    + rewrite Hacts1. cbn [app]. auto.
    + destruct Hacts1 as (pre & -> & Hpre). rewrite <- app_assoc. cbn [fmap list_fmap].
      split.
      * apply sublist_inserts_l. cbn [app]. now apply sublist_skip.
      * apply Forall_app. split; [|apply Forall_cons; split].
        -- eapply Forall_impl; [exact Hpre|]. cbn beta. auto.
        -- left. apply list_elem_of_here.
        -- eapply Forall_impl; [exact Hall|]. cbn beta.
           intros chunk [Hin|Hs]; [left; now apply list_elem_of_further | auto].
Qed.

(** The three lines of a frame. *)
Local Abbreviation frame_as_lines e :=
  ["event: " +:+ eventType e; "data: " +:+ dataStr e; ""].

Lemma render_lines (events : list SseEvent) :
  Forall (fun e => standard_event e = true) events ->
  complete (render events) = concat ((fun e => frame_as_lines e) <$> events)
  /\ partial (render events) = "".
Proof.
  induction 1 as [|e events He _ [IHc IHp]]; [auto|].
  unfold standard_event in He. apply andb_true_iff in He as [He _].
  apply andb_true_iff in He as [Ht Hd].
  destruct (event_line_standard _ Ht) as (Hte & _).
  destruct (data_line_standard _ Hd) as (Hde & _).
  cbn [render]. rewrite frame_lines.
  destruct (split_line _ (("data: " +:+ dataStr e)
                           +:+ String "010" ("" +:+ String "010" (render events))) Hte)
    as [-> ->].
  destruct (split_line _ ("" +:+ String "010" (render events)) Hde) as [-> ->].
  destruct (split_line "" (render events) eq_refl) as [-> ->].
  rewrite IHc, IHp. auto.
Qed.

Lemma processLine_event (t : string) (st : StreamState) :
  standard_field t = true ->
  processLine ("event: " +:+ t) st
  = Some ({| trackedBlocks := trackedBlocks st; lineBuffer := lineBuffer st;
             currentEventType := t; currentData := currentData st |}, []).
Proof.
  intros Ht. destruct (event_line_standard _ Ht) as (_ & Htrim & Hmatch).
  unfold processLine. rewrite Htrim, Hmatch, (trim_standard _ Ht).
  change (String.eqb ("event: " +:+ t) "") with false. reflexivity.
Qed.

Lemma processLine_data (d : string) (st : StreamState) :
  standard_field d = true ->
  processLine ("data: " +:+ d) st
  = Some ({| trackedBlocks := trackedBlocks st; lineBuffer := lineBuffer st;
             currentEventType := currentEventType st; currentData := d |}, []).
Proof.
  intros Hd. destruct (data_line_standard _ Hd) as (_ & Htrim & Hnot_event & Hmatch).
  unfold processLine. rewrite Htrim, Hnot_event, Hmatch.
  change (String.eqb ("data: " +:+ d) "") with false. reflexivity.
Qed.

Lemma processLine_blank (st : StreamState) :
  str_truthy (currentEventType st) = true ->
  str_truthy (currentData st) = true ->
  processLine "" st
  = '(tracked, acts) ← processEvent (currentEventType st) (currentData st) (trackedBlocks st);
    Some ({| trackedBlocks := tracked; lineBuffer := lineBuffer st;
             currentEventType := ""; currentData := "" |}, acts).
Proof.
  intros Ht Hd. unfold processLine.
  change (String.eqb (trim "") "") with true. cbv iota. now rewrite Ht, Hd.
Qed.

Lemma processLines_frame (e : SseEvent) (st : StreamState) :
  standard_event e = true ->
  processLines (frame_as_lines e) st
  = '(tracked, acts) ← processEvent (eventType e) (dataStr e) (trackedBlocks st);
    Some ({| trackedBlocks := tracked; lineBuffer := lineBuffer st;
             currentEventType := ""; currentData := "" |}, acts).
Proof.
  intros He. unfold standard_event in He. apply andb_true_iff in He as [He' _].
  apply andb_true_iff in He' as [Ht Hd].
  destruct (standard_field_spec _ Ht) as (Hne_t & _).
  destruct (standard_field_spec _ Hd) as (Hne_d & _).
  assert (Htt : str_truthy (eventType e) = true)
    by (unfold str_truthy; apply negb_true_iff, String.eqb_neq; exact Hne_t).
  assert (Htd : str_truthy (dataStr e) = true)
    by (unfold str_truthy; apply negb_true_iff, String.eqb_neq; exact Hne_d).
  cbn [processLines].
  rewrite (processLine_event _ st Ht). cbn [mbind option_bind].
  rewrite (processLine_data _ _ Hd). cbn [mbind option_bind].
  rewrite processLine_blank by assumption.
  cbn [trackedBlocks lineBuffer currentEventType currentData].
  destruct (processEvent (eventType e) (dataStr e) (trackedBlocks st)) as [[tracked acts]|];
    cbn [mbind option_bind app]; [now rewrite app_nil_r | reflexivity].
Qed.

Lemma processLines_render (events : list SseEvent) :
  Forall (fun e => standard_event e = true) events ->
  forall st, exists st' acts,
    processLines (concat ((fun e => frame_as_lines e) <$> events)) st = Some (st', acts)
    /\ processEvents events (trackedBlocks st) = Some (trackedBlocks st', acts)
    /\ lineBuffer st' = lineBuffer st.
Proof.
  induction 1 as [|e events He Hevents IH]; intros st.
  - exists st, []. auto.
  - cbn [fmap list_fmap concat].
    rewrite SseChunkFacts.processLines_app. rewrite (processLines_frame e st He).
    destruct (processEvent_standard e (trackedBlocks st) He) as (acts1 & Hstep & _).
    rewrite Hstep. cbn [mbind option_bind].
    destruct (IH {| trackedBlocks := tracked_after (trackedBlocks st) e;
                    lineBuffer := lineBuffer st;
                    currentEventType := ""; currentData := "" |})
      as (st' & acts2 & Hlines & Hevs & Hbuffer).
    rewrite Hlines. cbn [mbind option_bind].
    exists st', (acts1 ++ acts2). split; [reflexivity|].
    cbn [processEvents]. rewrite Hstep. cbn [mbind option_bind].
    cbn [trackedBlocks] in Hevs. rewrite Hevs. cbn [mbind option_bind].
    split; [reflexivity | exact Hbuffer].
Qed.


End WithRuntime.


Example kept_events_of_tool_stream :
  eventType <$> kept [] Scenario.tool_stream_events
  = ["message_start"; "content_block_start"; "content_block_stop"; "message_stop"].
Proof. vm_compute. reflexivity. Qed.

End SseFramingFacts.

(** ** Reading the members of a parsed event *)

Module BlockFacts.
Import Js Json.

Lemma get_prop_of_object (data : json) (k : string) (v : json) :
  get_prop_opt (Some data) k = Some v -> get_prop data k = Some (Some v).
Proof. destruct data; cbn [get_prop_opt get_prop]; intros Hk; try discriminate. now rewrite Hk. Qed.

Lemma get_prop_sibling (data : json) (k k' : string) (v : json) :
  get_prop_opt (Some data) k = Some v ->
  get_prop data k' = Some (get_prop_opt (Some data) k').
Proof. destruct data; cbn [get_prop_opt get_prop]; intros Hk; try discriminate. reflexivity. Qed.

End BlockFacts.

(** ** More on the OAuth controller: the binding loop, the callback and
    the flow as a whole *)

Module OAuthFlowFacts.
Import Js OAuth.

Lemma seqZ_head (port len : Z) :
  0 <= len -> port :: seqZ (port + 1) len = seqZ port (len + 1).
Proof.
  intros Hlen. rewrite (seqZ_cons port (len + 1)) by lia.
  f_equal. f_equal; lia.
Qed.

(** What the loop has done when it ends, by the way it ends. *)
Lemma bindFrom_spec (listen : Z -> ListenResult) (remaining : nat) :
  forall port : Z,
    let run := bindFrom listen remaining port in
    match bind run with
    | Bound p =>
        port <= p < port + Z.of_nat remaining
        /\ listen p = Listening
        /\ (forall q, port <= q < p -> listen q = AddressInUse)
        /\ attempted run = seqZ port (p - port + 1)
        /\ closed run = seqZ port (p - port)
    | BindFailed message =>
        (exists p, port <= p < port + Z.of_nat remaining
                   /\ listen p = ListenError message
                   /\ (forall q, port <= q < p -> listen q = AddressInUse)
                   /\ attempted run = seqZ port (p - port + 1)
                   /\ closed run = seqZ port (p - port + 1))
        \/ (message = ports_exhausted
            /\ (forall q, port <= q < port + Z.of_nat remaining -> listen q = AddressInUse)
            /\ attempted run = seqZ port (Z.of_nat remaining)
            /\ closed run = seqZ port (Z.of_nat remaining))
    end.
Proof.
  induction remaining as [|remaining IH]; intros port run; subst run.
  - cbn [bindFrom bind attempted closed]. right.
    split; [reflexivity|]. split; [intros q Hq; lia|]. split; reflexivity.
  - cbn [bindFrom]. destruct (listen port) eqn:Hport; cbn [bind attempted closed].
    + split; [lia|]. split; [exact Hport|]. split; [intros q Hq; lia|].
      replace (port - port + 1) with 1 by lia. replace (port - port) with 0 by lia.
      split; reflexivity.
    + specialize (IH (port + 1)). cbv zeta in IH.
      destruct (bind (bindFrom listen remaining (port + 1))) as [p|message].
      * destruct IH as (Hp & Hfree & Hbusy & Hatt & Hclosed).
        split; [lia|]. split; [exact Hfree|].
        split.
        { intros q Hq. destruct (Z.eq_dec q port) as [->|Hne]; [exact Hport|].
          apply Hbusy. lia. }
        rewrite Hatt, Hclosed.
        split.
        { rewrite seqZ_head by lia. f_equal. lia. }
        { rewrite seqZ_head by lia. f_equal. lia. }
      * destruct IH as [(p & Hp & Herr & Hbusy & Hatt & Hclosed)
                       |(Hmsg & Hbusy & Hatt & Hclosed)].
        { left. exists p. split; [lia|]. split; [exact Herr|].
          split.
          { intros q Hq. destruct (Z.eq_dec q port) as [->|Hne]; [exact Hport|].
            apply Hbusy. lia. }
          rewrite Hatt, Hclosed.
          split; (rewrite seqZ_head by lia; f_equal; lia). }
        { right. split; [exact Hmsg|].
          split.
          { intros q Hq. destruct (Z.eq_dec q port) as [->|Hne]; [exact Hport|].
            apply Hbusy. lia. }
          rewrite Hatt, Hclosed.
          split; (rewrite seqZ_head by lia; f_equal; lia). }
    + left. exists port. split; [lia|]. split; [exact Hport|].
      split; [intros q Hq; lia|].
      replace (port - port + 1) with 1 by lia. split; reflexivity.
Qed.

(** X1: The port the server is bound on is a port of the range, it is one on
    which [listen] succeeded, every port of the range below it was found
    occupied, and the candidates tried are exactly the ports up to it. *)
Theorem bound_port_is_first_free (listen : Z -> ListenResult) (p : Z) :
  bind (startCallbackServer listen) = Bound p ->
  CALLBACK_PORT_START <= p <= CALLBACK_PORT_END
  /\ listen p = Listening
  /\ (forall q, CALLBACK_PORT_START <= q < p -> listen q = AddressInUse)
  /\ attempted (startCallbackServer listen)
     = seqZ CALLBACK_PORT_START (p - CALLBACK_PORT_START + 1)
  /\ closed (startCallbackServer listen)
     = seqZ CALLBACK_PORT_START (p - CALLBACK_PORT_START).
Proof.
  intros Hbound.
  pose proof (bindFrom_spec listen
                (Z.to_nat (CALLBACK_PORT_END - CALLBACK_PORT_START + 1))
                CALLBACK_PORT_START) as Hspec.
  cbv zeta in Hspec. fold (startCallbackServer listen) in Hspec.
  rewrite Hbound in Hspec.
  destruct Hspec as (Hp & Hfree & Hbusy & Hatt & Hclosed).
  split; [unfold CALLBACK_PORT_START, CALLBACK_PORT_END in *; lia|].
  split; [exact Hfree|]. split; [exact Hbusy|]. split; [exact Hatt | exact Hclosed].
Qed.

Lemma bound_port_is_first_free_witness :
  Scenario.two_ports_taken 8916 = Listening
  /\ (forall q, CALLBACK_PORT_START <= q < 8916 -> Scenario.two_ports_taken q = AddressInUse).
Proof.
  pose proof (bound_port_is_first_free Scenario.two_ports_taken 8916
                ltac:(vm_compute; reflexivity)) as Hp.
  destruct Hp as (_ & Hfree & Hbusy & _).
  split; [exact Hfree | exact Hbusy].
Defined.

(** X2: When every port of the range is occupied, the loop has tried and
    closed all eleven candidates, in order, and the flow fails with the
    message that names the range. *)
Theorem all_ports_in_use (listen : Z -> ListenResult) :
  (forall q, CALLBACK_PORT_START <= q <= CALLBACK_PORT_END -> listen q = AddressInUse) ->
  bind (startCallbackServer listen) = BindFailed ports_exhausted
  /\ attempted (startCallbackServer listen) = seqZ CALLBACK_PORT_START 11
  /\ closed (startCallbackServer listen) = seqZ CALLBACK_PORT_START 11
  /\ forall (env : Environment) (mcpUrl : string) (metadata : OAuthMetadata),
       OAuth.listen env = listen ->
       discovered env = Some metadata ->
       snd (authenticate env mcpUrl) = Thrown ports_exhausted.
Proof.
  intros Hbusy.
  pose proof (bindFrom_spec listen
                (Z.to_nat (CALLBACK_PORT_END - CALLBACK_PORT_START + 1))
                CALLBACK_PORT_START) as Hspec.
  cbv zeta in Hspec. fold (startCallbackServer listen) in Hspec.
  assert (Hlen : Z.of_nat (Z.to_nat (CALLBACK_PORT_END - CALLBACK_PORT_START + 1)) = 11)
    by reflexivity.
  rewrite Hlen in Hspec.
  destruct (bind (startCallbackServer listen)) as [p|message] eqn:Hbind.
  - destruct Hspec as (Hp & Hfree & _).
    rewrite Hbusy in Hfree by (unfold CALLBACK_PORT_START, CALLBACK_PORT_END in *; lia).
    discriminate.
  - assert (Hcase : message = ports_exhausted
                    /\ attempted (startCallbackServer listen) = seqZ CALLBACK_PORT_START 11
                    /\ closed (startCallbackServer listen) = seqZ CALLBACK_PORT_START 11).
    { destruct Hspec as [(p & Hp & Herr & _)|(Hmsg & _ & Hatt & Hclosed)].
      - rewrite Hbusy in Herr by (unfold CALLBACK_PORT_START, CALLBACK_PORT_END in *; lia).
        discriminate.
      - auto. }
    destruct Hcase as (-> & Hatt & Hclosed).
    split; [reflexivity|]. split; [exact Hatt|]. split; [exact Hclosed|].
    intros env mcpUrl metadata Hlisten Hmeta.
    unfold authenticate. rewrite Hmeta, Hlisten, Hbind. reflexivity.
Qed.

Lemma all_ports_in_use_witness :
  bind (startCallbackServer (fun _ => AddressInUse)) = BindFailed ports_exhausted.
Proof.
  exact (proj1 (all_ports_in_use (fun _ => AddressInUse) (fun q _ => eq_refl))).
Defined.

(** X3: No candidate server is left open by the loop: every port on which
    [listen] was called has been closed again, except the one the server
    is bound on. *)
Theorem failed_candidates_are_closed (listen : Z -> ListenResult) :
  attempted (startCallbackServer listen)
  = closed (startCallbackServer listen)
    ++ match bind (startCallbackServer listen) with
       | Bound p => [p]
       | BindFailed _ => []
       end.
Proof.
  unfold startCallbackServer.
  generalize (Z.to_nat (CALLBACK_PORT_END - CALLBACK_PORT_START + 1)) as remaining.
  generalize CALLBACK_PORT_START as port.
  intros port remaining. revert port.
  induction remaining as [|remaining IH]; intros port; [reflexivity|].
  cbn [bindFrom]. destruct (listen port); cbn [attempted closed bind app];
    [reflexivity | | reflexivity].
  rewrite IH. reflexivity.
Qed.

(** *** The callback *)

Lemma other_path_is_ignored (expectedState : string) (req : CallbackRequest) :
  pathname req <> CALLBACK_PATH ->
  settlement (handleRequest expectedState req) = None.
Proof.
  intros Hpath. unfold handleRequest.
  apply String.eqb_neq in Hpath. rewrite Hpath. reflexivity.
Qed.

Lemma callback_path_settles (expectedState : string) (req : CallbackRequest) :
  pathname req = CALLBACK_PATH ->
  settlement (handleRequest expectedState req) <> None.
Proof.
  intros Hpath. unfold handleRequest. rewrite Hpath, String.eqb_refl.
  destruct (opt_str_truthy (error req)); [discriminate|].
  destruct (negb (opt_str_eqb (state req) expectedState)); [discriminate|].
  destruct (negb (opt_str_truthy (code req))); discriminate.
Qed.

(** X4: Requests for other paths are answered 404 and change nothing; the
    first request for the callback path settles the flow, with the outcome
    of that request alone: nothing that arrives later is taken into
    account. *)
Theorem first_callback_settles (expectedState : string) (before : list CallbackRequest)
    (req : CallbackRequest) (after : list Incoming) :
  Forall (fun r => pathname r <> CALLBACK_PATH) before ->
  pathname req = CALLBACK_PATH ->
  awaitCode expectedState ((Request <$> before) ++ Request req :: after)
  = settlement (handleRequest expectedState req)
  /\ settlement (handleRequest expectedState req) <> None
  /\ Forall (fun r => statusCode (handleRequest expectedState r) = 404
                      /\ serverStopped (handleRequest expectedState r) = false) before.
Proof.
  intros Hbefore Hpath.
  pose proof (callback_path_settles expectedState req Hpath) as Hsettles.
  split; [|split; [exact Hsettles|]].
  - induction Hbefore as [|r before Hr _ IH].
    + cbn [fmap list_fmap app awaitCode].
      destruct (settlement (handleRequest expectedState req)); [reflexivity | congruence].
    + cbn [fmap list_fmap app awaitCode].
      rewrite (other_path_is_ignored expectedState r Hr). exact IH.
  - eapply Forall_impl; [exact Hbefore|].
    intros r Hr. unfold handleRequest.
    apply String.eqb_neq in Hr. rewrite Hr. split; reflexivity.
Qed.

Lemma first_callback_settles_witness :
  awaitCode "expected"
    ((Request <$> [Scenario.favicon_request])
     ++ Request Scenario.forged_callback :: [Request Scenario.valid_callback])
  = Some (Reject "OAuth error: access_denied").
Proof.
  refine (proj1 (first_callback_settles "expected" [Scenario.favicon_request]
                   Scenario.forged_callback [Request Scenario.valid_callback] _ eq_refl)).
  repeat constructor. discriminate.
Defined.

(** A code is delivered only by a callback that carries the expected
    state. *)
Lemma awaitCode_resolved (expectedState authCode : string) (events : list Incoming) :
  awaitCode expectedState events = Some (Resolve authCode) ->
  exists req,
    Request req ∈ events
    /\ pathname req = CALLBACK_PATH
    /\ state req = Some expectedState
    /\ code req = Some authCode
    /\ authCode <> ""
    /\ opt_str_truthy (error req) = false.
Proof.
  induction events as [|event events IH]; [discriminate|].
  destruct event as [req| |message]; cbn [awaitCode]; [|discriminate|discriminate].
  destruct (settlement (handleRequest expectedState req)) as [s|] eqn:Hs.
  - intros Hres. injection Hres as ->. exists req.
    split; [apply list_elem_of_here|].
    unfold handleRequest in Hs.
    destruct (String.eqb (pathname req) CALLBACK_PATH) eqn:Hpath; [|discriminate].
    apply String.eqb_eq in Hpath.
    destruct (opt_str_truthy (error req)) eqn:Herr; [discriminate|].
    destruct (opt_str_eqb (state req) expectedState) eqn:Hstate; [|discriminate].
    cbn [negb] in Hs.
    destruct (opt_str_truthy (code req)) eqn:Hcode; [|discriminate].
    cbn [negb settlement] in Hs. injection Hs as Hcodeq.
    destruct (state req) as [s|]; [|discriminate]. cbn [opt_str_eqb] in Hstate.
    apply String.eqb_eq in Hstate. subst s.
    destruct (code req) as [c|]; [|discriminate]. cbn [default from_option id] in Hcodeq.
    subst c. cbn [opt_str_truthy] in Hcode.
    repeat split; try reflexivity; try assumption.
    intros ->. discriminate.
  - intros Hres. destruct (IH Hres) as (r & Hin & Hrest).
    exists r. split; [now apply list_elem_of_further | exact Hrest].
Qed.

(** *** The flow *)

Ltac list_member H :=
  repeat (apply elem_of_cons in H as [H|H]; [try discriminate|]);
  try (apply elem_of_nil in H; contradiction).

(** The effects of [authorize]: one authorization URL when the
    authorization endpoint is a URL, and at most one token request, which
    follows it. *)
Lemma authorize_effects (env : Environment) (metadata : OAuthMetadata)
    (clientId : string) (port : Z) :
  let effects := fst (authorize env metadata clientId port) in
  let outcome := snd (authorize env metadata clientId port) in
  (invalid_url env (authorization_endpoint metadata) = None ->
   OpenUrl (authorization_endpoint metadata) (authorizationParams env clientId port) ∈ effects)
  /\ (forall e, e ∈ effects ->
        OpenUrl (authorization_endpoint metadata) (authorizationParams env clientId port)
        ∈ effects)
  /\ (forall endpoint params, OpenUrl endpoint params ∈ effects ->
        endpoint = authorization_endpoint metadata
        /\ params = authorizationParams env clientId port)
  /\ (forall endpoint form, PostToken endpoint form ∈ effects ->
        endpoint = token_endpoint metadata
        /\ exists authCode,
             awaitCode (generatedState env) (incoming env) = Some (Resolve authCode)
             /\ form = exchangeForm env authCode clientId port)
  /\ (forall tokens client, outcome = Authenticated tokens client ->
        client = clientId
        /\ exists authCode data,
             awaitCode (generatedState env) (incoming env) = Some (Resolve authCode)
             /\ exchange env (exchangeForm env authCode clientId port) = inr data
             /\ tokens = tokensOf env data
             /\ PostToken (token_endpoint metadata) (exchangeForm env authCode clientId port)
                ∈ effects)
  /\ (StopServer ∉ effects)
  /\ (forall endpoint request, PostRegistration endpoint request ∉ effects).
Proof.
  intros effects outcome. subst effects outcome. unfold authorize.
  destruct (invalid_url env (authorization_endpoint metadata)) as [invalid|].
  { cbn [fst snd].
    split; [discriminate|].
    split; [intros e Hin; list_member Hin|].
    split; [intros endpoint params Hin; list_member Hin|].
    split; [intros endpoint form Hin; list_member Hin|].
    split; [intros tokens client Hout; discriminate|].
    split; [intros Hin; list_member Hin|].
    intros endpoint request Hin. list_member Hin. }
  destruct (awaitCode (generatedState env) (incoming env)) as [[authCode|message]|];
    [destruct (exchange env (exchangeForm env authCode clientId port)) as [errorText|data] eqn:Hex|..];
    cbn [fst snd app];
    (split; [intros _; apply list_elem_of_further, list_elem_of_here|]);
    (split; [intros e _; apply list_elem_of_further, list_elem_of_here|]).
  - split; [intros endpoint params Hin; list_member Hin; injection Hin as -> ->; auto|].
    split.
    { intros endpoint form Hin. list_member Hin. injection Hin as -> ->.
      split; [reflexivity|]. exists authCode. auto. }
    split; [intros tokens client Hout; discriminate|].
    split; [intros Hin; list_member Hin|].
    intros endpoint request Hin. list_member Hin.
  - split; [intros endpoint params Hin; list_member Hin; injection Hin as -> ->; auto|].
    split.
    { intros endpoint form Hin. list_member Hin. injection Hin as -> ->.
      split; [reflexivity|]. exists authCode. auto. }
    split.
    { intros tokens client Hout. injection Hout as <- <-. split; [reflexivity|].
      exists authCode, data. split; [reflexivity|]. split; [exact Hex|].
      split; [reflexivity|].
      do 5 apply list_elem_of_further. apply list_elem_of_here. }
    split; [intros Hin; list_member Hin|].
    intros endpoint request Hin. list_member Hin.
  - split; [intros endpoint params Hin; list_member Hin; injection Hin as -> ->; auto|].
    split; [intros endpoint form Hin; list_member Hin|].
    split; [intros tokens client Hout; discriminate|].
    split; [intros Hin; list_member Hin|].
    intros endpoint request Hin. list_member Hin.
  - split; [intros endpoint params Hin; list_member Hin; injection Hin as -> ->; auto|].
    split; [intros endpoint form Hin; list_member Hin|].
    split; [intros tokens client Hout; discriminate|].
    split; [intros Hin; list_member Hin|].
    intros endpoint request Hin. list_member Hin.
Qed.

Ltac effect_member H :=
  repeat first [ apply elem_of_app in H as [H|H]
               | apply elem_of_cons in H as [H|H]
               | (apply elem_of_nil in H; contradiction) ];
  try discriminate.

(** [authenticate] reaches the browser only through [authorize], with the
    port the server is bound on; before that it has sent nothing but
    status lines and the registration request. *)
Lemma authenticate_cases (env : Environment) (mcpUrl : string) :
  let effects := fst (authenticate env mcpUrl) in
  let outcome := snd (authenticate env mcpUrl) in
  ((forall endpoint params, OpenUrl endpoint params ∉ effects)
   /\ (forall endpoint form, PostToken endpoint form ∉ effects)
   /\ (forall tokens clientId, outcome <> Authenticated tokens clientId))
  \/ exists metadata port clientId before,
       discovered env = Some metadata
       /\ bind (startCallbackServer (listen env)) = Bound port
       /\ effects = before ++ fst (authorize env metadata clientId port)
       /\ outcome = snd (authorize env metadata clientId port)
       /\ (forall endpoint params, OpenUrl endpoint params ∉ before)
       /\ (forall endpoint form, PostToken endpoint form ∉ before).
Proof.
  intros effects outcome. subst effects outcome. unfold authenticate.
  destruct (discovered env) as [metadata|] eqn:Hmeta.
  - cbv zeta.
    destruct (bind (startCallbackServer (listen env))) as [port|msg] eqn:Hbind.
    + destruct (opt_str_truthy (registration_endpoint metadata)).
      * destruct (register env (registrationRequest port)) as [errorText|clientId].
        { left. cbn [fst snd].
          split; [intros e p Hin; effect_member Hin|].
          split; [intros e f Hin; effect_member Hin|].
          intros tokens clientId. discriminate. }
        { right.
          destruct (authorize env metadata clientId port) as [effs outcome] eqn:Hauth.
          cbn [fst snd].
          eexists metadata, port, clientId, _.
          split; [reflexivity|]. split; [reflexivity|].
          rewrite Hauth. cbn [fst snd].
          split; [rewrite app_assoc; reflexivity|]. split; [reflexivity|].
          split; [intros e p Hin; effect_member Hin | intros e f Hin; effect_member Hin]. }
      * right.
        destruct (authorize env metadata "craft-agent" port) as [effs outcome] eqn:Hauth.
        cbn [fst snd].
        eexists metadata, port, "craft-agent", _.
        split; [reflexivity|]. split; [reflexivity|].
        rewrite Hauth. cbn [fst snd].
        split; [rewrite app_assoc; reflexivity|]. split; [reflexivity|].
        split; [intros e p Hin; effect_member Hin | intros e f Hin; effect_member Hin].
    + left. cbn [fst snd].
      split; [intros e p Hin; effect_member Hin|].
      split; [intros e f Hin; effect_member Hin|].
      intros tokens clientId. discriminate.
  - left. cbv zeta. cbn [fst snd].
    split; [intros e p Hin; effect_member Hin|].
    split; [intros e f Hin; effect_member Hin|].
    intros tokens clientId. discriminate.
Qed.

(** X5: Whenever [authenticate] posts to the token endpoint, the request goes
    to the endpoint of the discovered metadata, it carries the PKCE
    verifier, and its [redirect_uri] and [client_id] are those of the
    authorization URL that was opened in the browser before, which carried
    the PKCE challenge with method S256 and the state of the flow. *)
Theorem token_request_matches_authorization (env : Environment) (mcpUrl endpoint : string)
    (form : list (string * string)) :
  PostToken endpoint form ∈ fst (authenticate env mcpUrl) ->
  exists metadata params port,
    discovered env = Some metadata
    /\ bind (startCallbackServer (listen env)) = Bound port
    /\ endpoint = token_endpoint metadata
    /\ OpenUrl (authorization_endpoint metadata) params ∈ fst (authenticate env mcpUrl)
    /\ obj_get "redirect_uri" form = Some (redirectUri port)
    /\ obj_get "redirect_uri" params = Some (redirectUri port)
    /\ obj_get "client_id" form = obj_get "client_id" params
    /\ obj_get "grant_type" form = Some "authorization_code"
    /\ obj_get "code_verifier" form = Some (verifier env)
    /\ obj_get "code_challenge" params = Some (challenge env)
    /\ obj_get "code_challenge_method" params = Some "S256"
    /\ obj_get "state" params = Some (generatedState env).
Proof.
  intros Hin.
  destruct (authenticate_cases env mcpUrl)
    as [(_ & Hnone & _)|(metadata & port & clientId & before & Hmeta & Hbind & Heff & _ & _ & Hbefore)].
  - exfalso. exact (Hnone _ _ Hin).
  - destruct (authorize_effects env metadata clientId port) as (_ & Hopens & _ & Hpost & _).
    rewrite Heff in Hin. apply elem_of_app in Hin as [Hin|Hin];
      [exfalso; exact (Hbefore _ _ Hin)|].
    pose proof (Hopens _ Hin) as Hopen.
    destruct (Hpost _ _ Hin) as (-> & authCode & _ & ->).
    exists metadata, (authorizationParams env clientId port), port.
    split; [exact Hmeta|]. split; [exact Hbind|]. split; [reflexivity|].
    split; [rewrite Heff; apply elem_of_app; right; exact Hopen|].
    repeat split; reflexivity.
Qed.

Lemma token_request_matches_authorization_witness :
  exists params,
    OpenUrl "https://auth.example.com/authorize" params
      ∈ fst (authenticate Scenario.completed_environment "https://mcp.example.com/mcp")
    /\ obj_get "redirect_uri" params = Some "http://localhost:8916/oauth/callback".
Proof.
  destruct (token_request_matches_authorization Scenario.completed_environment
              "https://mcp.example.com/mcp" "https://auth.example.com/token"
              (exchangeForm Scenario.completed_environment "code-1" "client-1" 8916)
              ltac:(vm_compute; repeat first [apply list_elem_of_here | apply list_elem_of_further]))
    as (metadata & params & port & Hmeta & Hbind & _ & Hopen & _ & Hredirect & _).
  injection Hmeta as <-.
  assert (Hport : port = 8916)
    by (vm_compute in Hbind; injection Hbind as <-; reflexivity).
  subst port.
  exists params. split; [exact Hopen | exact Hredirect].
Defined.

(** X6: A flow that ends with tokens has received, on the callback path, a
    request without error parameter that carried the state of the flow
    and a code; that code is the one sent to the token endpoint, and the
    tokens are those of the answer. *)
Theorem tokens_come_from_the_expected_callback (env : Environment) (mcpUrl : string)
    (tokens : OAuthTokens) (clientId : string) :
  snd (authenticate env mcpUrl) = Authenticated tokens clientId ->
  exists req authCode endpoint form data,
    Request req ∈ incoming env
    /\ pathname req = CALLBACK_PATH
    /\ state req = Some (generatedState env)
    /\ code req = Some authCode
    /\ authCode <> ""
    /\ opt_str_truthy (error req) = false
    /\ PostToken endpoint form ∈ fst (authenticate env mcpUrl)
    /\ obj_get "code" form = Some authCode
    /\ obj_get "client_id" form = Some clientId
    /\ exchange env form = inr data
    /\ tokens = tokensOf env data.
Proof.
  intros Hout.
  destruct (authenticate_cases env mcpUrl)
    as [(_ & _ & Hnone)|(metadata & port & client & before & Hmeta & Hbind & Heff & Houtcome & _)].
  - exfalso. exact (Hnone _ _ Hout).
  - destruct (authorize_effects env metadata client port) as (_ & _ & _ & _ & Hauth & _).
    rewrite Houtcome in Hout.
    destruct (Hauth _ _ Hout) as (-> & authCode & data & Hcode & Hex & -> & Hpost).
    destruct (awaitCode_resolved _ _ _ Hcode)
      as (req & Hin & Hpath & Hstate & Hreq & Hne & Herr).
    exists req, authCode, (token_endpoint metadata),
      (exchangeForm env authCode client port), data.
    split; [exact Hin|]. split; [exact Hpath|]. split; [exact Hstate|].
    split; [exact Hreq|]. split; [exact Hne|]. split; [exact Herr|].
    split; [rewrite Heff; apply elem_of_app; right; exact Hpost|].
    split; [reflexivity|]. split; [reflexivity|]. split; [exact Hex | reflexivity].
Qed.

Lemma tokens_come_from_the_expected_callback_witness :
  exists req,
    Request req ∈ incoming Scenario.completed_environment
    /\ state req = Some "expected"
    /\ code req = Some "code-1".
Proof.
  destruct (tokens_come_from_the_expected_callback Scenario.completed_environment
              "https://mcp.example.com/mcp"
              (tokensOf Scenario.completed_environment
                 {| access_token := "access-1"; refresh_token := None;
                    expires_in := Some 3600; token_type := None |})
              "client-1" ltac:(vm_compute; reflexivity))
    as (req & authCode & endpoint & form & data & Hin & _ & Hstate & Hcode & _ & _ & Hpost
        & Hform & _).
  assert (Hauth : authCode = "code-1").
  { vm_compute in Hpost. effect_member Hpost. injection Hpost as _ ->.
    cbn in Hform. congruence. }
  subst authCode.
  exists req. split; [exact Hin|]. split; [exact Hstate | exact Hcode].
Defined.

(** X7: When the metadata names a registration endpoint (a string that is
    not empty) and the endpoint refuses the client, the callback server
    that was already bound is stopped, the flow fails with the answer of
    the endpoint, and neither the browser nor the token endpoint is
    reached. *)
Theorem registration_failure_stops_server (env : Environment) (mcpUrl : string)
    (metadata : OAuthMetadata) (port : Z) (endpoint errorText : string) :
  discovered env = Some metadata ->
  bind (startCallbackServer (listen env)) = Bound port ->
  registration_endpoint metadata = Some endpoint ->
  endpoint <> "" ->
  register env (registrationRequest port) = inl errorText ->
  snd (authenticate env mcpUrl) = Thrown ("Failed to register OAuth client: " +:+ errorText)
  /\ StopServer ∈ fst (authenticate env mcpUrl)
  /\ PostRegistration endpoint (registrationRequest port) ∈ fst (authenticate env mcpUrl)
  /\ (forall e params, OpenUrl e params ∉ fst (authenticate env mcpUrl))
  /\ (forall e form, PostToken e form ∉ fst (authenticate env mcpUrl)).
Proof.
  intros Hmeta Hbind Hendpoint Hne Hregister.
  assert (Htruthy : opt_str_truthy (Some endpoint) = true).
  { cbn [opt_str_truthy]. unfold str_truthy. now apply negb_true_iff, String.eqb_neq. }
  unfold authenticate. rewrite Hmeta. cbv zeta. rewrite Hbind, Hendpoint, Htruthy, Hregister.
  cbn [fst snd default from_option id].
  split; [reflexivity|].
  split; [apply elem_of_app; right; apply list_elem_of_here|].
  split.
  { apply elem_of_app. left. apply elem_of_app. right.
    apply list_elem_of_further, list_elem_of_here. }
  split; [intros e p Hin; effect_member Hin | intros e f Hin; effect_member Hin].
Qed.

Lemma registration_failure_stops_server_witness :
  StopServer ∈ fst (authenticate Scenario.refused_environment "https://mcp.example.com/mcp").
Proof.
  exact (proj1 (proj2 (registration_failure_stops_server Scenario.refused_environment
                         "https://mcp.example.com/mcp" _ 8916
                         "https://auth.example.com/register" "invalid_redirect_uri"
                         eq_refl ltac:(vm_compute; reflexivity) eq_refl
                         ltac:(discriminate) eq_refl))).
Defined.

End OAuthFlowFacts.

(** ** Discovery of the OAuth metadata *)

Module DiscoveryFacts.
Import Js Discovery.

Lemma tryFetchMetadata_found (fetch : Network) (made : nat) (url : string) (data : json) :
  tryFetchMetadata fetch made url = Some data ->
  fetch made url = Some (OkBody data)
  /\ opt_truthy (get_prop_opt (Some data) "authorization_endpoint") = true
  /\ opt_truthy (get_prop_opt (Some data) "token_endpoint") = true.
Proof.
  unfold tryFetchMetadata.
  destruct (fetch made url) as [[status|body|]|]; try discriminate.
  destruct (has_endpoints body) eqn:Hends; [|discriminate].
  intros Hdata. injection Hdata as ->. split; [reflexivity|].
  unfold has_endpoints in Hends.
  destruct data; cbn [get_prop] in Hends; try discriminate.
  apply andb_true_iff in Hends. exact Hends.
Qed.

Lemma tryCandidates_found (fetch : Network) (cs : list string) :
  forall (made : nat) (data : json),
    snd (tryCandidates fetch made cs) = Some data ->
    exists n candidate,
      candidate ∈ cs
      /\ last (fst (tryCandidates fetch made cs)) = Some candidate
      /\ tryFetchMetadata fetch n candidate = Some data.
Proof.
  induction cs as [|c cs IH]; intros made data; [discriminate|].
  cbn [tryCandidates].
  destruct (tryFetchMetadata fetch made c) as [metadata|] eqn:Htry.
  - cbn [fst snd]. intros Hdata. injection Hdata as ->.
    exists made, c. split; [apply list_elem_of_here|]. split; [reflexivity | exact Htry].
  - specialize (IH (S made) data).
    destruct (tryCandidates fetch (S made) cs) as [requested found]. cbn [fst snd] in *.
    intros Hdata. destruct (IH Hdata) as (n & candidate & Hin & Hlast & Hfound).
    exists n, candidate. split; [now apply list_elem_of_further|].
    split; [|exact Hfound].
    destruct requested as [|r requested]; [discriminate|].
    rewrite last_cons, Hlast. reflexivity.
Qed.

(** X8: The metadata that discovery returns has an authorization endpoint and
    a token endpoint; it is the body of a successful answer to the last
    request made, which went to one of the two well-known addresses under
    the origin of the MCP URL. *)
Theorem discovered_metadata_is_complete (URL_parse : string -> option Url)
    (fetch : Network) (mcpUrl : string) (data : json) :
  snd (discoverOAuthMetadata URL_parse fetch mcpUrl) = Some data ->
  opt_truthy (get_prop_opt (Some data) "authorization_endpoint") = true
  /\ opt_truthy (get_prop_opt (Some data) "token_endpoint") = true
  /\ exists url n candidate,
       URL_parse mcpUrl = Some url
       /\ candidate ∈ candidates url
       /\ last (fst (discoverOAuthMetadata URL_parse fetch mcpUrl)) = Some candidate
       /\ fetch n candidate = Some (OkBody data).
Proof.
  unfold discoverOAuthMetadata.
  destruct (URL_parse mcpUrl) as [url|]; [|discriminate].
  intros Hdata.
  destruct (tryCandidates_found fetch _ _ _ Hdata) as (n & candidate & Hin & Hlast & Hfound).
  destruct (tryFetchMetadata_found _ _ _ _ Hfound) as (Hfetch & Hauth & Htoken).
  split; [exact Hauth|]. split; [exact Htoken|].
  exists url, n, candidate. auto.
Qed.

Lemma discovered_metadata_is_complete_witness :
  opt_truthy (get_prop_opt (Some Scenario.ahrefs_metadata) "token_endpoint") = true.
Proof.
  exact (proj1 (proj2 (discovered_metadata_is_complete Scenario.ahrefs_url
                         Scenario.ahrefs_network "https://api.ahrefs.com/mcp/mcp"
                         Scenario.ahrefs_metadata ltac:(vm_compute; reflexivity)))).
Defined.

(** X9: Discovery makes no request for an MCP URL that does not parse.
    Otherwise it asks the origin root first; it asks the path-scoped
    address exactly when the first answer was not usable, and returns
    what that second request gives.  No other address is requested, and
    both lie under the origin of the MCP URL. *)
Theorem discovery_requests (URL_parse : string -> option Url) (fetch : Network)
    (mcpUrl : string) :
  let requested := fst (discoverOAuthMetadata URL_parse fetch mcpUrl) in
  let found := snd (discoverOAuthMetadata URL_parse fetch mcpUrl) in
  match URL_parse mcpUrl with
  | None => requested = [] /\ found = None
  | Some url =>
      let root := origin url +:+ WELL_KNOWN in
      let scoped := origin url +:+ WELL_KNOWN +:+ url_pathname url in
      match tryFetchMetadata fetch 0 root with
      | Some metadata => requested = [root] /\ found = Some metadata
      | None => requested = [root; scoped] /\ found = tryFetchMetadata fetch 1 scoped
      end
      /\ Forall (fun address => starts_with (origin url) address = true) requested
  end.
Proof.
  intros requested found. subst requested found. unfold discoverOAuthMetadata.
  destruct (URL_parse mcpUrl) as [url|]; [|split; reflexivity].
  cbv zeta. cbn [candidates tryCandidates].
  assert (Hprefix : forall rest, starts_with (origin url) (origin url +:+ rest) = true).
  { intros rest. unfold starts_with. induction (origin url) as [|c o IH].
    - now destruct rest.
    - rewrite SseChunkFacts.append_cons. cbn [String.prefix].
      destruct (ascii_dec c c) as [_|Hne]; [exact IH | congruence]. }
  destruct (tryFetchMetadata fetch 0 (origin url +:+ WELL_KNOWN)) as [metadata|].
  - cbn [fst snd]. split; [split; reflexivity|]. repeat constructor. apply Hprefix.
  - destruct (tryFetchMetadata fetch 1 (origin url +:+ WELL_KNOWN +:+ url_pathname url))
      as [metadata|]; cbn [fst snd]; (split; [split; reflexivity|]);
      repeat constructor; apply Hprefix.
Qed.

End DiscoveryFacts.

(** ** The cURL rendering of a request *)

Module CurlFacts.
Import Js Curl.

(** Two header objects with the same names in the same order, which differ
    at most in the values that [headersToCurl] redacts. *)
Local Abbreviation same_public_headers a b :=
  (Forall2 (fun x y : string * string =>
              fst x = fst y /\ (is_sensitive (fst x) = false -> snd x = snd y)) a b).

Lemma obj_set_same_public (k v1 v2 : string) (a b : obj string) :
  same_public_headers a b ->
  (is_sensitive k = false -> v1 = v2) ->
  same_public_headers (obj_set k v1 a) (obj_set k v2 b).
Proof.
  intros Hab Hv. induction Hab as [|[ka va] [kb vb] a b [Hk Hval] Hab IH].
  - constructor; [split; [reflexivity | exact Hv] | constructor].
  - cbn [fst snd] in Hk, Hval. subst kb. cbn [obj_set].
    destruct (String.eqb k ka) eqn:Hkk.
    + apply String.eqb_eq in Hkk. subst ka.
      constructor; [split; [reflexivity | exact Hv] | exact Hab].
    + constructor; [split; [reflexivity | exact Hval] | exact IH].
Qed.

Lemma fromEntries_same_public (x y : list (string * string)) :
  same_public_headers x y ->
  same_public_headers (fromEntries x) (fromEntries y).
Proof.
  unfold fromEntries.
  assert (Hgen : forall a b, same_public_headers a b -> same_public_headers x y ->
            same_public_headers (foldl (fun o kv => obj_set (fst kv) (snd kv) o) a x)
                                (foldl (fun o kv => obj_set (fst kv) (snd kv) o) b y)).
  { intros a b Hab Hxy. revert a b Hab.
    induction Hxy as [|[kx vx] [ky vy] x y [Hk Hval] Hxy IH]; intros a b Hab; [exact Hab|].
    cbn [foldl fst snd] in *. subst ky. apply IH.
    now apply obj_set_same_public. }
  intros Hxy. apply Hgen; [constructor | exact Hxy].
Qed.

Lemma headerFlags_same_public (a b : obj string) :
  same_public_headers a b -> List.map headerFlag a = List.map headerFlag b.
Proof.
  induction 1 as [|[ka va] [kb vb] a b [Hk Hval] Hab IH]; [reflexivity|].
  cbn [List.map]. rewrite IH. f_equal.
  cbn [fst snd] in Hk, Hval. subst kb. unfold headerFlag. cbn [fst snd].
  destruct (is_sensitive ka); [reflexivity|]. now rewrite Hval.
Qed.

Lemma lower_of_spelling (a b : ascii) :
  name_char a = true ->
  (Ascii.eqb b a || Ascii.eqb b (upper_char a)) = true ->
  lower_char b = a /\ Ascii.eqb b "226" = false.
Proof.
  intros Ha Hb. apply orb_true_iff in Hb as [Hb|Hb]; apply Ascii.eqb_eq in Hb; subst b;
    revert Ha; destruct a as [[|] [|] [|] [|] [|] [|] [|] [|]];
    vm_compute; intros Ha; try discriminate; split; reflexivity.
Qed.

(** Putting a spelling of a name in lower case gives the name. *)
Lemma toLowerCase_spelling (name : string) :
  name_chars name = true ->
  forall key, spells name key = true -> toLowerCase key = name.
Proof.
  induction name as [|a name IH]; intros Hname key Hkey.
  - destruct key; [reflexivity | discriminate].
  - destruct key as [|b key]; [discriminate|].
    cbn [name_chars] in Hname. apply andb_true_iff in Hname as [Ha Hname].
    cbn [spells] in Hkey. apply andb_true_iff in Hkey as [Hb Hkey].
    destruct (lower_of_spelling a b Ha Hb) as [Hlower Hplain].
    assert (Hstep : toLowerCase (String b key) = String (lower_char b) (toLowerCase key)).
    { cbn [toLowerCase]. destruct key as [|c [|d key]]; try reflexivity.
      unfold kelvin. now rewrite Hplain. }
    rewrite Hstep, Hlower, (IH Hname key Hkey). reflexivity.
Qed.

(** The headers that carry credentials are among those that
    [headersToCurl] redacts. *)
Lemma secrets_are_sensitive (key : string) :
  carries_secret key = true -> is_sensitive key = true.
Proof.
  unfold carries_secret, is_sensitive, sensitiveKeys. intros Hkey.
  apply orb_true_iff in Hkey as [Hkey|Hkey]; [apply orb_true_iff in Hkey as [Hkey|Hkey]|].
  - rewrite (toLowerCase_spelling "x-api-key" eq_refl key Hkey). reflexivity.
  - rewrite (toLowerCase_spelling "authorization" eq_refl key Hkey). reflexivity.
  - rewrite (toLowerCase_spelling "cookie" eq_refl key Hkey). reflexivity.
Qed.

Lemma same_but_secrets_public (a b : list (string * string)) :
  same_but_secrets a b -> same_public_headers a b.
Proof.
  intros Hab. eapply Forall2_impl; [exact Hab|].
  intros x y [Hk Hval]. split; [exact Hk|].
  intros Hx. apply Hval.
  destruct (carries_secret (fst x)) eqn:Hsecret; [|reflexivity].
  rewrite (secrets_are_sensitive _ Hsecret) in Hx. discriminate.
Qed.

(** X10: The values of the headers [x-api-key], [authorization] and [cookie],
    in any spelling of upper and lower case, do not reach the cURL text:
    each of these headers is rendered with [[REDACTED]] for its value, and
    two requests that differ only in the values of these headers are
    rendered alike. *)
Theorem sensitive_headers_are_redacted (a b : HeadersInit) :
  same_but_secrets_init a b ->
  headersToCurl (Some a) = headersToCurl (Some b)
  /\ (forall (url : string) (m : option string) (payload : option BodyInit),
        toCurl url (Some {| method := m; headers := Some a; body := payload |})
        = toCurl url (Some {| method := m; headers := Some b; body := payload |}))
  /\ (forall key value,
        spells "x-api-key" key = true \/ spells "authorization" key = true
        \/ spells "cookie" key = true ->
        headerFlag (key, value) = "-H '" +:+ key +:+ ": [REDACTED]'").
Proof.
  intros Hab.
  assert (Hflags : headersToCurl (Some a) = headersToCurl (Some b)).
  { unfold headersToCurl. f_equal. apply headerFlags_same_public.
    destruct a as [x|x], b as [y|y]; cbn [same_but_secrets_init headerObj] in *;
      try contradiction;
      [now apply fromEntries_same_public, same_but_secrets_public
      | now apply same_but_secrets_public]. }
  split; [exact Hflags|]. split.
  - intros url m payload. unfold toCurl.
    cbn [mbind option_bind method headers body]. now rewrite Hflags.
  - intros key value Hkey. unfold headerFlag. cbn [fst snd].
    rewrite secrets_are_sensitive; [reflexivity|].
    unfold carries_secret. destruct Hkey as [-> | [-> | ->]];
      rewrite ?orb_true_r; reflexivity.
Qed.

Lemma sensitive_headers_are_redacted_witness :
  headersToCurl (Some (Scenario.secret_headers "sk-ant-1" "token-1" "s1"))
  = headersToCurl (Some (Scenario.secret_headers "sk-ant-2" "token-2" "s2"))
  /\ headersToCurl (Some (Scenario.secret_headers "sk-ant-1" "token-1" "s1"))
     = "-H 'accept: text/event-stream'" +:+ continuation
       +:+ "-H 'X-API-Key: [REDACTED]'" +:+ continuation
       +:+ "-H 'AUTHORIZATION: [REDACTED]'" +:+ continuation
       +:+ "-H 'Cookie: [REDACTED]'".
Proof.
  split; [|vm_compute; reflexivity].
  refine (proj1 (sensitive_headers_are_redacted
                   (Scenario.secret_headers "sk-ant-1" "token-1" "s1")
                   (Scenario.secret_headers "sk-ant-2" "token-2" "s2") _)).
  cbn [same_but_secrets_init Scenario.secret_headers].
  repeat constructor; cbn [fst snd]; intros Hs; vm_compute in Hs; discriminate.
Defined.

(** The Kelvin sign in place of the letter k is put in lower case as k,
    and the header is redacted. *)
Example kelvin_sign_is_redacted :
  headerFlag (String "c" (String "o" (String "o"
                (String "226" (String "132" (String "170" "ie"))))), "secret")
  = "-H '" +:+ String "c" (String "o" (String "o"
                (String "226" (String "132" (String "170" "ie"))))) +:+ ": [REDACTED]'".
Proof. vm_compute. reflexivity. Qed.

Example curl_of_a_request :
  toCurl "https://api.anthropic.com/v1/messages"
    (Some {| method := Some "post";
             headers := Some (Scenario.request_headers "sk-ant-1" "token-1");
             body := Some (BodyText "{'a':1}") |})
  = "curl -X POST" +:+ continuation
    +:+ "-H 'Content-Type: application/json'" +:+ continuation
    +:+ "-H 'X-Api-Key: [REDACTED]'" +:+ continuation
    +:+ "-H 'Authorization: [REDACTED]'" +:+ continuation
    +:+ "-d '{'" +:+ backslash +:+ "''a'" +:+ backslash +:+ "'':1}'" +:+ continuation
    +:+ "'https://api.anthropic.com/v1/messages'".
Proof. vm_compute. reflexivity. Qed.

End CurlFacts.

(** ** More on the API error file *)

Module ApiErrorMore.
Import Js Json Fs ApiError.

Section WithRuntime.
Context `{Runtime}.

Lemma getLastApiError_disk (env : ProcessEnv) (now : Z) (fs : FileSystem) :
  snd (getLastApiError env now fs) = snd (getStoredError env fs).
Proof.
  unfold getLastApiError. destruct (getStoredError env fs) as [[e|] disk]; [|reflexivity].
  destruct (truthy e && is_fresh now e); reflexivity.
Qed.

Lemma getLastApiError_nothing_stored (env : ProcessEnv) (now : Z) (fs : FileSystem) :
  fst (getStoredError env fs) = None -> fst (getLastApiError env now fs) = None.
Proof.
  unfold getLastApiError. destruct (getStoredError env fs) as [[e|] disk]; [discriminate|].
  reflexivity.
Qed.

(** What a read does to the file, by what the file holds. *)
Lemma getStoredError_cases (env : ProcessEnv) (fs : FileSystem) :
  ERROR_FILE env ∉ unlink_denied fs ->
  match files fs !! ERROR_FILE env with
  | None => getStoredError env fs = (None, fs)
  | Some content =>
      match JSON_parse content with
      | None => getStoredError env fs = (None, fs)
      | Some error =>
          fst (getStoredError env fs) = Some error
          /\ files (snd (getStoredError env fs)) !! ERROR_FILE env = None
      end
  end.
Proof.
  intros Hunlink. unfold getStoredError, existsSync, readFileSync, unlinkSync.
  destruct (files fs !! ERROR_FILE env) as [content|] eqn:Hfile.
  - rewrite bool_decide_eq_true_2 by eauto. cbn [negb].
    destruct (JSON_parse content) as [error|]; [|reflexivity].
    rewrite decide_False by exact Hunlink. cbn [fst snd with_files files].
    split; [reflexivity | apply lookup_delete_eq].
  - rewrite bool_decide_eq_false_2; [reflexivity|]. intros [x Hx]. discriminate.
Qed.

(** X11: The file is read at most once.  When the file can be removed, a call
    of [getLastApiError] removes it as soon as its content parses, be the
    entry fresh, stale or no error record at all; a file whose content
    does not parse is left where it is and read as no error.  In every
    case the next call returns null. *)
Theorem error_file_is_read_once (env : ProcessEnv) (now : Z) (fs : FileSystem) :
  ERROR_FILE env ∉ unlink_denied fs ->
  (forall later, fst (getLastApiError env later (snd (getLastApiError env now fs))) = None)
  /\ (forall content error,
        files fs !! ERROR_FILE env = Some content ->
        JSON_parse content = Some error ->
        files (snd (getLastApiError env now fs)) !! ERROR_FILE env = None)
  /\ (forall content,
        files fs !! ERROR_FILE env = Some content ->
        JSON_parse content = None ->
        getLastApiError env now fs = (None, fs)).
Proof.
  intros Hunlink. pose proof (getStoredError_cases env fs Hunlink) as Hcases.
  split; [|split].
  - intros later. rewrite getLastApiError_disk.
    destruct (files fs !! ERROR_FILE env) as [content|] eqn:Hfile.
    + destruct (JSON_parse content) as [error|] eqn:Hparse.
      * apply ApiErrorFacts.getLastApiError_missing. exact (proj2 Hcases).
      * rewrite Hcases. cbn [snd]. apply getLastApiError_nothing_stored.
        now rewrite Hcases.
    + rewrite Hcases. cbn [snd]. apply getLastApiError_nothing_stored.
      now rewrite Hcases.
  - intros content error Hfile Hparse. rewrite Hfile, Hparse in Hcases.
    rewrite getLastApiError_disk. exact (proj2 Hcases).
  - intros content Hfile Hparse. rewrite Hfile, Hparse in Hcases.
    unfold getLastApiError. now rewrite Hcases.
Qed.

(** X12: After [clearLastApiError], no error is returned: an error that was
    captured and never read is gone. *)
Theorem cleared_error_is_gone (env : ProcessEnv) (now : Z) (fs : FileSystem) :
  ERROR_FILE env ∉ unlink_denied fs ->
  fst (getLastApiError env now (clearLastApiError env fs)) = None
  /\ files (clearLastApiError env fs) !! ERROR_FILE env = None.
Proof.
  intros Hunlink.
  assert (Hgone : files (clearLastApiError env fs) !! ERROR_FILE env = None).
  { unfold clearLastApiError, setStoredError, unlinkSync.
    destruct (files fs !! ERROR_FILE env) as [content|] eqn:Hfile; [|exact Hfile].
    rewrite decide_False by exact Hunlink. cbn [with_files files]. apply lookup_delete_eq. }
  split; [|exact Hgone]. apply ApiErrorFacts.getLastApiError_missing. exact Hgone.
Qed.

(** X13: The message of a captured error is not empty when the status text of
    the response is not: it is the message the provider sent, the text of
    the body, or the status text. *)
Theorem captured_message_is_never_empty (status : Z) (statusText : string)
    (body : option string) (now : Z) :
  statusText <> "" ->
  truthy (message (capturedError status statusText body now)) = true.
Proof.
  intros Htext.
  assert (Hstatus : truthy (JStr statusText) = true).
  { cbn [truthy]. apply negb_true_iff, String.eqb_neq. exact Htext. }
  destruct body as [errorText|]; cbn [capturedError message]; [|exact Hstatus].
  unfold errorMessage.
  assert (Hraw : truthy (if str_truthy errorText then JStr errorText else JStr statusText)
                 = true).
  { destruct (str_truthy errorText) eqn:Hbody; [exact Hbody | exact Hstatus]. }
  assert (Htop : forall errorJson,
            truthy match get_prop_opt (Some errorJson) "message" with
                   | Some m' => if truthy m' then m' else JStr statusText
                   | None => JStr statusText
                   end = true).
  { intros errorJson. destruct (get_prop_opt (Some errorJson) "message") as [m'|];
      [|exact Hstatus].
    destruct (truthy m') eqn:Hm; [exact Hm | exact Hstatus]. }
  destruct (JSON_parse errorText) as [errorJson|]; [|exact Hraw].
  destruct (get_prop errorJson "error") as [err|]; [|exact Hraw].
  destruct (get_prop_opt err "message") as [m|]; [|apply Htop].
  destruct (truthy m) eqn:Hm; [exact Hm | apply Htop].
Qed.

End WithRuntime.

Lemma error_file_is_read_once_witness :
  fst (getLastApiError Scenario.demo_process 2000
         (snd (getLastApiError Scenario.demo_process 1000 Scenario.stale_error_disk)))
  = None.
Proof.
  refine (proj1 (error_file_is_read_once (H := reference) Scenario.demo_process 1000
                   Scenario.stale_error_disk _) 2000).
  cbn [unlink_denied Scenario.stale_error_disk]. apply not_elem_of_empty.
Defined.

Lemma cleared_error_is_gone_witness :
  fst (getLastApiError Scenario.demo_process 1000
         (clearLastApiError Scenario.demo_process Scenario.stale_error_disk))
  = None.
Proof.
  refine (proj1 (cleared_error_is_gone (H := reference) Scenario.demo_process 1000
                   Scenario.stale_error_disk _)).
  cbn [unlink_denied Scenario.stale_error_disk]. apply not_elem_of_empty.
Defined.

Lemma captured_message_is_never_empty_witness :
  truthy (message (capturedError 402 "Payment Required" (Some Scenario.demo_error_body) 1000))
  = true.
Proof.
  apply (captured_message_is_never_empty (H := reference)). discriminate.
Defined.

End ApiErrorMore.

(** ** More on the tool metadata store *)

Module StoreMore.
Import Js Json Fs MetadataStore.

Lemma tmp_path_differs (p : string) : p <> p +:+ ".tmp".
Proof.
  induction p as [|c p IH]; [discriminate|].
  rewrite SseChunkFacts.append_cons. intros Heq. injection Heq as Heq. exact (IH Heq).
Qed.

Section WithRuntime.
Context `{Runtime}.

(** The file after a write that went through. *)
Lemma writeMetadataFile_written (all : gmap string ToolMetadata) (st : ModuleState)
    (fs : FileSystem) (p : string) :
  getMetadataFilePath st = Some p ->
  p +:+ ".tmp" ∉ write_denied fs ->
  p ∉ write_denied fs ->
  files (writeMetadataFile all st fs) !! p = Some (JSON_stringify (record_to_json all))
  /\ files (writeMetadataFile all st fs) !! (p +:+ ".tmp") = None
  /\ forall q, q <> p -> q <> p +:+ ".tmp" ->
       files (writeMetadataFile all st fs) !! q = files fs !! q.
Proof.
  intros Hpath Htmp Hfile. unfold writeMetadataFile. rewrite Hpath. cbv zeta.
  unfold writeFileSync. rewrite decide_False by exact Htmp.
  unfold renameSync. cbn [with_files files write_denied]. rewrite lookup_insert_eq.
  rewrite decide_False by exact Hfile. cbn [with_files files].
  split; [apply lookup_insert_eq|]. split.
  - rewrite lookup_insert_ne by apply tmp_path_differs. apply lookup_delete_eq.
  - intros q Hq Hqtmp. rewrite lookup_insert_ne by congruence.
    rewrite lookup_delete_ne by congruence. apply lookup_insert_ne. congruence.
Qed.

(** What a process reads from a file that holds a printed record. *)
Lemma readMetadataFile_written (all : gmap string ToolMetadata) (st : ModuleState)
    (fs : FileSystem) (p : string) :
  getMetadataFilePath st = Some p ->
  files fs !! p = Some (JSON_stringify (record_to_json all)) ->
  round_trips (record_to_json all) ->
  readMetadataFile st fs = all.
Proof.
  intros Hpath Hfile Hround. unfold readMetadataFile, readFileSync.
  rewrite Hpath, Hfile, Hround, StoreFacts.record_of_to_json. reflexivity.
Qed.

(** X14: Read your writes: in the process that called [set], [get] returns the
    metadata from memory, whatever has become of the disk; the entries of
    the other ids that were in memory stay. *)
Theorem get_after_set (toolUseId : string) (metadata : ToolMetadata) (st : ModuleState)
    (fs later : FileSystem) :
  get toolUseId (fst (set toolUseId metadata st fs)) later = Some (Entry metadata)
  /\ forall other found,
       other <> toolUseId ->
       _metadataMap st !! other = Some found ->
       get other (fst (set toolUseId metadata st fs)) later = Some (Entry found).
Proof.
  unfold get, set. cbn [fst _metadataMap]. split.
  - now rewrite lookup_insert_eq.
  - intros other found Hne Hfound. rewrite lookup_insert_ne by congruence.
    now rewrite Hfound.
Qed.

(** X15: After a [set] whose write goes through, on a session file that is
    absent, not JSON or a record of metadata entries, the file holds
    exactly the shadow of the process after the assignment
    [_fileCache[toolUseId] = metadata]: the shadow the process had, or what
    the file held when the process has no shadow yet (a resumed session
    keeps its earlier entries), with the new entry under every id but
    [__proto__] and the other entries as they were.  The temporary file is
    gone. *)
Theorem file_matches_shadow_after_set (toolUseId : string) (metadata : ToolMetadata)
    (st : ModuleState) (fs : FileSystem) (p : string) :
  let before := default (readMetadataFile st fs) (_fileCache st) in
  let shadow := record_set toolUseId metadata before in
  getMetadataFilePath st = Some p ->
  p +:+ ".tmp" ∉ write_denied fs ->
  p ∉ write_denied fs ->
  typed_file st fs = true ->
  round_trips (record_to_json shadow) ->
  _fileCache (fst (set toolUseId metadata st fs)) = Some shadow
  /\ readMetadataFile (fst (set toolUseId metadata st fs)) (snd (set toolUseId metadata st fs))
     = shadow
  /\ files (snd (set toolUseId metadata st fs)) !! (p +:+ ".tmp") = None
  /\ (toolUseId <> "__proto__" -> shadow !! toolUseId = Some metadata)
  /\ (forall other, other <> toolUseId -> shadow !! other = before !! other).
Proof.
  intros before shadow Hpath Htmp Hfile _ Hround.
  assert (Hshadow : shadow = record_set toolUseId metadata
                               match _fileCache st with
                               | Some c => c
                               | None => readMetadataFile st fs
                               end)
    by (subst shadow before; destruct (_fileCache st); reflexivity).
  unfold set. cbn [fst snd _fileCache]. rewrite <- Hshadow.
  destruct (writeMetadataFile_written shadow st fs p Hpath Htmp Hfile) as (Hwritten & Hgone & _).
  split; [reflexivity|]. split; [|split; [exact Hgone|split]].
  - apply (readMetadataFile_written shadow _ _ p); [exact Hpath | exact Hwritten | exact Hround].
  - intros Hid. now apply StoreFacts.record_set_same.
  - intros other Hother. now apply StoreFacts.record_set_other.
Qed.

(** X16: After a [delete] whose write goes through, on a session file that
    is absent, not JSON or a record of metadata entries, the process has no
    entry for the id, in memory or in the file: [get] returns [undefined],
    or, for a name that every object inherits, the member of
    [Object.prototype] of that name.  The other entries of the shadow are
    still in the file. *)
Theorem deleted_entry_is_gone (toolUseId : string) (st : ModuleState) (fs : FileSystem)
    (p : string) :
  let shadow := base.delete toolUseId (default (readMetadataFile st fs) (_fileCache st)) in
  getMetadataFilePath st = Some p ->
  p +:+ ".tmp" ∉ write_denied fs ->
  p ∉ write_denied fs ->
  typed_file st fs = true ->
  round_trips (record_to_json shadow) ->
  get toolUseId (fst (delete toolUseId st fs)) (snd (delete toolUseId st fs))
  = (if inherited_name toolUseId then Some (Inherited toolUseId) else None)
  /\ readMetadataFile (fst (delete toolUseId st fs)) (snd (delete toolUseId st fs)) = shadow.
Proof.
  intros shadow Hpath Htmp Hfile _ Hround.
  assert (Hshadow : shadow = base.delete toolUseId
                               match _fileCache st with
                               | Some c => c
                               | None => readMetadataFile st fs
                               end)
    by (subst shadow; destruct (_fileCache st); reflexivity).
  assert (Hread : readMetadataFile (fst (delete toolUseId st fs)) (snd (delete toolUseId st fs))
                  = shadow).
  { unfold delete. cbn [fst snd]. rewrite <- Hshadow.
    destruct (writeMetadataFile_written shadow st fs p Hpath Htmp Hfile) as (Hwritten & _).
    apply (readMetadataFile_written shadow _ _ p); [exact Hpath | exact Hwritten | exact Hround]. }
  split; [|exact Hread].
  unfold get. rewrite Hread.
  unfold delete at 1. cbn [fst _metadataMap]. rewrite lookup_delete_eq.
  unfold record_get. subst shadow. now rewrite lookup_delete_eq.
Qed.


(** X18: A process that never called [setSessionDir] and whose session
    directory is the one of the writer (the subprocess gets it from
    [CRAFT_SESSION_DIR]) finds through [get] what the writer has [set]
    under an id other than [__proto__], on a session file that was absent,
    not JSON or a record of metadata entries: the lookup falls back to the
    file. *)
Theorem get_falls_back_to_the_file (toolUseId : string) (metadata : ToolMetadata)
    (writer reader : ModuleState) (fs : FileSystem) (p : string) :
  toolUseId <> "__proto__" ->
  getMetadataFilePath writer = Some p ->
  getMetadataFilePath reader = Some p ->
  _metadataMap reader !! toolUseId = None ->
  p +:+ ".tmp" ∉ write_denied fs ->
  p ∉ write_denied fs ->
  typed_file writer fs = true ->
  round_trips (record_to_json
                 (record_set toolUseId metadata
                    (default (readMetadataFile writer fs) (_fileCache writer)))) ->
  get toolUseId reader (snd (set toolUseId metadata writer fs)) = Some (Entry metadata).
Proof.
  intros Hid Hwriter Hreader Hmiss Htmp Hfile _ Hround.
  set (shadow := record_set toolUseId metadata
                   (default (readMetadataFile writer fs) (_fileCache writer))) in *.
  assert (Hshadow : shadow = record_set toolUseId metadata
                               match _fileCache writer with
                               | Some c => c
                               | None => readMetadataFile writer fs
                               end)
    by (subst shadow; destruct (_fileCache writer); reflexivity).
  unfold get. rewrite Hmiss. unfold set. cbn [snd]. rewrite <- Hshadow.
  destruct (writeMetadataFile_written shadow writer fs p Hwriter Htmp Hfile) as (Hwritten & _).
  rewrite (readMetadataFile_written shadow reader _ p Hreader Hwritten Hround).
  unfold record_get. subst shadow. now rewrite StoreFacts.record_set_same.
Qed.

(** X19: The write of the session file is all or nothing: whatever the
    permissions, the file afterwards holds either what it held before or
    the complete new record, and no other file but the temporary one is
    touched. *)
Theorem write_is_atomic (all : gmap string ToolMetadata) (st : ModuleState)
    (fs : FileSystem) (p : string) :
  getMetadataFilePath st = Some p ->
  (files (writeMetadataFile all st fs) !! p = files fs !! p
   \/ files (writeMetadataFile all st fs) !! p = Some (JSON_stringify (record_to_json all)))
  /\ forall q, q <> p -> q <> p +:+ ".tmp" ->
       files (writeMetadataFile all st fs) !! q = files fs !! q.
Proof.
  intros Hpath. unfold writeMetadataFile. rewrite Hpath. cbv zeta.
  unfold writeFileSync.
  destruct (decide (p +:+ ".tmp" ∈ write_denied fs)) as [Hdenied|Htmp];
    [split; [left; reflexivity | reflexivity]|].
  unfold renameSync. cbn [with_files files write_denied]. rewrite lookup_insert_eq.
  destruct (decide (p ∈ write_denied fs)) as [Hdenied|Hfile]; cbn [with_files files].
  - split.
    + left. apply lookup_insert_ne. intros Heq. exact (tmp_path_differs p (eq_sym Heq)).
    + intros q Hq Hqtmp. apply lookup_insert_ne. congruence.
  - split.
    + right. apply lookup_insert_eq.
    + intros q Hq Hqtmp. rewrite lookup_insert_ne by congruence.
      rewrite lookup_delete_ne by congruence. apply lookup_insert_ne. congruence.
Qed.

End WithRuntime.

Lemma file_matches_shadow_after_set_witness :
  readMetadataFile
    (fst (set "toolu_2" Scenario.demo_metadata (initial Scenario.demo_process)
            Scenario.resumed_disk))
    (snd (set "toolu_2" Scenario.demo_metadata (initial Scenario.demo_process)
            Scenario.resumed_disk))
  = record_set "toolu_2" Scenario.demo_metadata
      (readMetadataFile (initial Scenario.demo_process) Scenario.resumed_disk).
Proof.
  refine (proj1 (proj2 (file_matches_shadow_after_set (H := reference) "toolu_2"
                          Scenario.demo_metadata (initial Scenario.demo_process)
                          Scenario.resumed_disk "/sessions/s1/tool-metadata.json"
                          eq_refl _ _ _ _))).
  - cbn [write_denied Scenario.resumed_disk]. apply not_elem_of_empty.
  - cbn [write_denied Scenario.resumed_disk]. apply not_elem_of_empty.
  - vm_compute. reflexivity.
  - vm_compute. reflexivity.
Defined.

Lemma deleted_entry_is_gone_witness :
  get "toolu_1"
    (fst (delete "toolu_1" (initial Scenario.demo_process) Scenario.resumed_disk))
    (snd (delete "toolu_1" (initial Scenario.demo_process) Scenario.resumed_disk))
  = None.
Proof.
  refine (proj1 (deleted_entry_is_gone (H := reference) "toolu_1"
                   (initial Scenario.demo_process) Scenario.resumed_disk
                   "/sessions/s1/tool-metadata.json" eq_refl _ _ _ _)).
  - cbn [write_denied Scenario.resumed_disk]. apply not_elem_of_empty.
  - cbn [write_denied Scenario.resumed_disk]. apply not_elem_of_empty.
  - vm_compute. reflexivity.
  - vm_compute. reflexivity.
Defined.

Lemma get_falls_back_to_the_file_witness :
  get "toolu_2" (initial Scenario.demo_process)
    (snd (set "toolu_2" Scenario.demo_metadata
            (setSessionDir "/sessions/s1" (initial Scenario.demo_process) Scenario.resumed_disk)
            Scenario.resumed_disk))
  = Some (Entry Scenario.demo_metadata).
Proof.
  refine (get_falls_back_to_the_file (H := reference) "toolu_2" Scenario.demo_metadata
            (setSessionDir "/sessions/s1" (initial Scenario.demo_process) Scenario.resumed_disk)
            (initial Scenario.demo_process) Scenario.resumed_disk
            "/sessions/s1/tool-metadata.json" _ eq_refl eq_refl eq_refl _ _ _ _).
  - discriminate.
  - cbn [write_denied Scenario.resumed_disk]. apply not_elem_of_empty.
  - cbn [write_denied Scenario.resumed_disk]. apply not_elem_of_empty.
  - vm_compute. reflexivity.
  - vm_compute. reflexivity.
Defined.

Lemma write_is_atomic_witness :
  files (writeMetadataFile (H := reference) ∅ (initial Scenario.demo_process)
           Scenario.read_only_disk) !! "/sessions/s1/tool-metadata.json"
  = files Scenario.read_only_disk !! "/sessions/s1/tool-metadata.json".
Proof.
  destruct (proj1 (write_is_atomic (H := reference) ∅ (initial Scenario.demo_process)
                     Scenario.read_only_disk "/sessions/s1/tool-metadata.json" eq_refl))
    as [Hsame|Hnew]; [exact Hsame|].
  vm_compute in Hnew. discriminate.
Defined.

End StoreMore.

(** ** More on the request rewriter *)

Module RewriterMore.
Import Js Json Fs MetadataStore Rewriter.

Lemma obj_get_set_other {A} (k k' : string) (v : A) (o : obj A) :
  k <> k' -> obj_get k (obj_set k' v o) = obj_get k o.
Proof.
  intros Hne. induction o as [|[k0 v0] o IH]; cbn [obj_set obj_get].
  - apply String.eqb_neq in Hne. now rewrite Hne.
  - destruct (String.eqb k' k0) eqn:Hk0; cbn [obj_get]; [|now rewrite IH].
    apply String.eqb_eq in Hk0. subst k0.
    apply String.eqb_neq in Hne. now rewrite Hne.
Qed.

Lemma obj_get_set_same {A} (k : string) (v : A) (o : obj A) :
  obj_get k (obj_set k v o) = Some v.
Proof.
  induction o as [|[k0 v0] o IH]; cbn [obj_set obj_get].
  - now rewrite String.eqb_refl.
  - destruct (String.eqb k k0) eqn:Hk0; cbn [obj_get]; now rewrite Hk0.
Qed.

Lemma obj_has_get {A} (k : string) (o : obj A) :
  obj_has k o = true <-> exists v, obj_get k o = Some v.
Proof.
  unfold obj_has. destruct (obj_get k o) as [v|]; split; intros Hk; eauto.
  - discriminate.
  - destruct Hk as [v Hv]. discriminate.
Qed.

Lemma obj_has_false {A} (k : string) (o : obj A) :
  obj_has k o = false <-> obj_get k o = None.
Proof. unfold obj_has. destruct (obj_get k o); split; congruence. Qed.

(** A key that is absent goes last. *)
Lemma obj_set_new {A} (k : string) (v : A) (o : obj A) :
  obj_has k o = false -> obj_set k v o = o ++ [(k, v)].
Proof.
  intros Hk. apply obj_has_false in Hk.
  induction o as [|[k0 v0] o IH]; [reflexivity|].
  cbn [obj_get] in Hk. cbn [obj_set app].
  destruct (String.eqb k k0); [discriminate|]. now rewrite IH.
Qed.

Lemma list_includes_elem_of (x : string) (l : list string) :
  list_includes x l = true <-> x ∈ l.
Proof.
  unfold list_includes. rewrite existsb_exists. split.
  - intros (y & Hin & Heq). apply String.eqb_eq in Heq. subst y.
    now apply list_elem_of_In.
  - intros Hin. exists x. split; [now apply list_elem_of_In | apply String.eqb_refl].
Qed.

Lemma addMetadataToTools_fst (ts : list Tool) :
  fst (addMetadataToTools ts) = (fun tool => fst (addMetadataToTool tool)) <$> ts.
Proof.
  induction ts as [|tool ts IH]; [reflexivity|].
  cbn [addMetadataToTools fmap list_fmap].
  destruct (addMetadataToTool tool) as [tool' modified].
  destruct (addMetadataToTools ts) as [rest n]. cbn [fst] in *. now rewrite IH.
Qed.

(** The tool at a position of the rewritten body is the tool of that
    position after the body of the loop. *)
Lemma tool_after (body : Body) (ts : list Tool) (i : nat) (tool : Tool) :
  tools body = Some ts ->
  ts !! i = Some tool ->
  exists ts',
    tools (addMetadataToAllTools body) = Some ts'
    /\ length ts' = length ts
    /\ ts' !! i = Some (fst (addMetadataToTool tool)).
Proof.
  intros Hts Hi. unfold addMetadataToAllTools. rewrite Hts. cbn [tools].
  eexists. split; [reflexivity|]. rewrite addMetadataToTools_fst.
  split; [apply length_fmap|]. rewrite list_lookup_fmap, Hi. reflexivity.
Qed.

(** The properties and the required list after the loop body, for a tool
    the loop works on. *)
Lemma addMetadataToTool_mcp (tool : Tool) (schema : InputSchema) (props : obj json) :
  isMcpTool tool = true ->
  input_schema tool = Some schema ->
  properties schema = Some props ->
  let props' :=
    props ++ (if obj_has "_intent" props then [] else [("_intent", intent_schema)])
          ++ (if obj_has "_displayName" props then [] else [("_displayName", displayName_schema)]) in
  let current := default [] (required schema) in
  let required' :=
    current ++ (if list_includes "_intent" current then [] else ["_intent"])
            ++ (if list_includes "_displayName" current then [] else ["_displayName"]) in
  tool_name (fst (addMetadataToTool tool)) = tool_name tool
  /\ tool_rest (fst (addMetadataToTool tool)) = tool_rest tool
  /\ exists schema',
       input_schema (fst (addMetadataToTool tool)) = Some schema'
       /\ schema_rest schema' = schema_rest schema
       /\ properties schema' = Some props'
       /\ required schema'
          = if obj_has "_intent" props && obj_has "_displayName" props
            then required schema else Some required'.
Proof.
  intros Hmcp Hschema Hprops props' current required'.
  unfold addMetadataToTool. rewrite Hmcp, Hschema, Hprops.
  change (negb TOOL_METADATA_FOR_ALL_TOOLS && negb true) with false. cbv iota.
  subst props' required' current.
  destruct (obj_has "_intent" props) eqn:Hi; cbn [negb].
  - destruct (obj_has "_displayName" props) eqn:Hd; cbn [negb andb].
    + cbn [fst]. split; [reflexivity|]. split; [reflexivity|].
      exists schema. rewrite Hprops, app_nil_r. auto.
    + cbn [fst tool_name tool_rest input_schema]. split; [reflexivity|].
      split; [reflexivity|]. eexists. split; [reflexivity|].
      cbn [schema_rest properties required]. split; [reflexivity|].
      rewrite obj_set_new by exact Hd. split; [reflexivity|].
      destruct (required schema) as [r|]; cbn [default from_option id];
        destruct (list_includes "_intent" _), (list_includes "_displayName" _);
        cbn [negb app]; rewrite ?app_nil_r, <- ?app_assoc; reflexivity.
  - assert (Hd' : obj_has "_displayName" (obj_set "_intent" intent_schema props)
                  = obj_has "_displayName" props)
      by (apply RewriterFacts.obj_has_set_other; discriminate).
    rewrite Hd'.
    destruct (obj_has "_displayName" props) eqn:Hd; cbn [negb andb];
      cbn [fst tool_name tool_rest input_schema]; (split; [reflexivity|]);
      (split; [reflexivity|]); eexists; (split; [reflexivity|]);
      cbn [schema_rest properties required]; (split; [reflexivity|]).
    + rewrite obj_set_new by exact Hi. rewrite app_nil_r. split; [reflexivity|].
      destruct (required schema) as [r|]; cbn [default from_option id];
        destruct (list_includes "_intent" _), (list_includes "_displayName" _);
        cbn [negb app]; rewrite ?app_nil_r, <- ?app_assoc; reflexivity.
    + rewrite (obj_set_new "_displayName") by exact Hd'.
      rewrite obj_set_new by exact Hi. rewrite <- app_assoc. split; [reflexivity|].
      destruct (required schema) as [r|]; cbn [default from_option id];
        destruct (list_includes "_intent" _), (list_includes "_displayName" _);
        cbn [negb app]; rewrite ?app_nil_r, <- ?app_assoc; reflexivity.
Qed.

Lemma obj_get_app_l {A} (k : string) (o o' : obj A) (v : A) :
  obj_get k o = Some v -> obj_get k (o ++ o') = Some v.
Proof.
  induction o as [|[k0 v0] o IH]; [discriminate|].
  cbn [obj_get app]. destruct (String.eqb k k0); auto.
Qed.

Lemma obj_get_app_r {A} (k : string) (o o' : obj A) :
  obj_get k o = None -> obj_get k (o ++ o') = obj_get k o'.
Proof.
  induction o as [|[k0 v0] o IH]; [reflexivity|].
  cbn [obj_get app]. destruct (String.eqb k k0); [discriminate | auto].
Qed.

(** X20: Every MCP tool that declares its input properties leaves the rewriter
    with a property [_intent] and a property [_displayName]; when the
    rewriter had to add one of them, both names are in the required list
    afterwards.  A tool that already declared both properties keeps the
    required list it came with. *)
Theorem mcp_tool_schema_is_augmented (body : Body) (ts : list Tool) (i : nat) (tool : Tool)
    (schema : InputSchema) (props : obj json) :
  tools body = Some ts ->
  ts !! i = Some tool ->
  isMcpTool tool = true ->
  input_schema tool = Some schema ->
  properties schema = Some props ->
  exists ts' tool' schema' props',
    tools (addMetadataToAllTools body) = Some ts'
    /\ ts' !! i = Some tool'
    /\ input_schema tool' = Some schema'
    /\ properties schema' = Some props'
    /\ obj_has "_intent" props' = true
    /\ obj_has "_displayName" props' = true
    /\ (obj_has "_intent" props && obj_has "_displayName" props = false ->
        exists required',
          required schema' = Some required'
          /\ "_intent" ∈ required' /\ "_displayName" ∈ required')
    /\ (obj_has "_intent" props && obj_has "_displayName" props = true ->
        schema' = schema).
Proof.
  intros Hts Hi Hmcp Hschema Hprops.
  destruct (tool_after body ts i tool Hts Hi) as (ts' & Htools & _ & Hlookup).
  destruct (addMetadataToTool_mcp tool schema props Hmcp Hschema Hprops)
    as (_ & _ & schema' & Hschema' & Hrest & Hprops' & Hrequired).
  exists ts', (fst (addMetadataToTool tool)), schema'. eexists.
  split; [exact Htools|]. split; [exact Hlookup|]. split; [exact Hschema'|].
  split; [exact Hprops'|].
  split; [|split; [|split]].
  - apply obj_has_get. destruct (obj_has "_intent" props) eqn:Hhas.
    + apply obj_has_get in Hhas as [v Hv]. exists v. now apply obj_get_app_l.
    + apply obj_has_false in Hhas. exists intent_schema.
      rewrite obj_get_app_r by exact Hhas. reflexivity.
  - apply obj_has_get. destruct (obj_has "_displayName" props) eqn:Hhas.
    + apply obj_has_get in Hhas as [v Hv]. exists v. now apply obj_get_app_l.
    + apply obj_has_false in Hhas. exists displayName_schema.
      rewrite obj_get_app_r by exact Hhas.
      destruct (obj_has "_intent" props); reflexivity.
  - intros Hadded. rewrite Hadded in Hrequired. eexists. split; [exact Hrequired|].
    split.
    + destruct (list_includes "_intent" (default [] (required schema))) eqn:Hinc.
      * apply elem_of_app. left. now apply list_includes_elem_of.
      * apply elem_of_app. right. apply elem_of_app. left. apply list_elem_of_here.
    + destruct (list_includes "_displayName" (default [] (required schema))) eqn:Hinc.
      * apply elem_of_app. left. now apply list_includes_elem_of.
      * apply elem_of_app. right. apply elem_of_app. right. apply list_elem_of_here.
  - intros Hboth. rewrite Hboth in Hrequired.
    apply andb_true_iff in Hboth as [Hhi Hhd]. rewrite Hhi, Hhd in Hprops'.
    rewrite !app_nil_r in Hprops'.
    destruct schema', schema. cbn in *. congruence.
Qed.

Lemma mcp_tool_schema_is_augmented_witness :
  exists ts' tool' schema' props',
    tools (addMetadataToAllTools Scenario.demo_body) = Some ts'
    /\ ts' !! 0%nat = Some tool'
    /\ input_schema tool' = Some schema'
    /\ properties schema' = Some props'
    /\ obj_has "_intent" props' = true
    /\ obj_has "_displayName" props' = true.
Proof.
  destruct (mcp_tool_schema_is_augmented Scenario.demo_body _ 0 _ _ _
              eq_refl eq_refl eq_refl eq_refl eq_refl)
    as (ts' & tool' & schema' & props' & H1 & H2 & H3 & H4 & H5 & H6 & _).
  exists ts', tool', schema', props'. auto 10.
Defined.

(** X21: The rewriter only adds: in every tool, the name and the members it
    does not look at are unchanged, every property that was declared keeps
    its schema (a tool's own [_intent] is not overwritten), nothing but
    [_intent] and [_displayName] is added, and the required list is
    extended at its end, without introducing a duplicate. *)
Theorem existing_schema_is_kept (body : Body) (ts : list Tool) (i : nat) (tool : Tool) :
  tools body = Some ts ->
  ts !! i = Some tool ->
  exists ts' tool',
    tools (addMetadataToAllTools body) = Some ts'
    /\ length ts' = length ts
    /\ ts' !! i = Some tool'
    /\ tool_name tool' = tool_name tool
    /\ tool_rest tool' = tool_rest tool
    /\ (input_schema tool = None -> tool' = tool)
    /\ forall schema, input_schema tool = Some schema ->
         exists schema',
           input_schema tool' = Some schema'
           /\ schema_rest schema' = schema_rest schema
           /\ (properties schema = None -> schema' = schema)
           /\ (forall props, properties schema = Some props ->
                 exists added,
                   properties schema' = Some (props ++ added)
                   /\ (forall k v, obj_get k props = Some v -> obj_get k (props ++ added) = Some v)
                   /\ (forall k, obj_has k added = true -> k = "_intent" \/ k = "_displayName"))
           /\ exists extra,
                default [] (required schema') = default [] (required schema) ++ extra
                /\ (NoDup (default [] (required schema)) -> NoDup (default [] (required schema'))).
Proof.
  intros Hts Hi.
  destruct (tool_after body ts i tool Hts Hi) as (ts' & Htools & Hlen & Hlookup).
  exists ts', (fst (addMetadataToTool tool)).
  split; [exact Htools|]. split; [exact Hlen|]. split; [exact Hlookup|].
  destruct (isMcpTool tool) eqn:Hmcp.
  - destruct (input_schema tool) as [schema|] eqn:Hschema.
    + destruct (properties schema) as [props|] eqn:Hprops.
      * destruct (addMetadataToTool_mcp tool schema props Hmcp Hschema Hprops)
          as (Hname & Hrest & schema' & Hschema' & Hsrest & Hprops' & Hrequired).
        split; [exact Hname|]. split; [exact Hrest|]. split; [discriminate|].
        intros schema0 Hs0. injection Hs0 as <-.
        exists schema'. split; [exact Hschema'|]. split; [exact Hsrest|].
        split; [rewrite Hprops; discriminate|].
        split.
        { intros props0 Hp0. rewrite Hprops in Hp0. injection Hp0 as <-.
          eexists. split; [exact Hprops'|]. split.
          - intros k v Hk. now apply obj_get_app_l.
          - intros k Hk.
            destruct (obj_has "_intent" props), (obj_has "_displayName" props);
              cbn [app] in Hk; unfold obj_has in Hk; cbn [obj_get] in Hk.
            + discriminate.
            + destruct (String.eqb k "_displayName") eqn:Hkd; [|discriminate].
              right. now apply String.eqb_eq.
            + destruct (String.eqb k "_intent") eqn:Hki; [|discriminate].
              left. now apply String.eqb_eq.
            + destruct (String.eqb k "_intent") eqn:Hki; [left; now apply String.eqb_eq|].
              destruct (String.eqb k "_displayName") eqn:Hkd; [|discriminate].
              right. now apply String.eqb_eq. }
        rewrite Hrequired.
        destruct (obj_has "_intent" props && obj_has "_displayName" props).
        { exists []. rewrite app_nil_r. auto. }
        cbn [default from_option id]. eexists. split; [reflexivity|].
        intros Hnodup.
        destruct (list_includes "_intent" (default [] (required schema))) eqn:Hinc1;
          destruct (list_includes "_displayName" (default [] (required schema))) eqn:Hinc2;
          cbn [app]; rewrite ?app_nil_r; try exact Hnodup.
        { apply NoDup_app. split; [exact Hnodup|]. split; [|apply NoDup_singleton].
          intros x Hx Hx'. apply list_elem_of_singleton in Hx'. subst x.
          apply list_includes_elem_of in Hx. congruence. }
        { apply NoDup_app. split; [exact Hnodup|]. split; [|apply NoDup_singleton].
          intros x Hx Hx'. apply list_elem_of_singleton in Hx'. subst x.
          apply list_includes_elem_of in Hx. congruence. }
        { apply NoDup_app. split; [exact Hnodup|]. split.
          - intros x Hx Hx'. apply list_includes_elem_of in Hx.
            apply elem_of_cons in Hx' as [->|Hx']; [congruence|].
            apply list_elem_of_singleton in Hx'. subst x. congruence.
          - apply NoDup_cons. split; [|apply NoDup_singleton].
            intros Hin. apply list_elem_of_singleton in Hin. discriminate. }
      * assert (Hsame : fst (addMetadataToTool tool) = tool).
        { unfold addMetadataToTool. rewrite Hmcp, Hschema, Hprops.
          destruct (negb TOOL_METADATA_FOR_ALL_TOOLS && negb true); reflexivity. }
        rewrite Hsame. split; [reflexivity|]. split; [reflexivity|]. split; [discriminate|].
        intros schema0 Hs0. injection Hs0 as <-. exists schema.
        split; [exact Hschema|]. split; [reflexivity|]. split; [reflexivity|].
        split; [intros props Hp; congruence|].
        exists []. rewrite app_nil_r. auto.
    + assert (Hsame : fst (addMetadataToTool tool) = tool).
      { unfold addMetadataToTool. rewrite Hmcp, Hschema.
        destruct (negb TOOL_METADATA_FOR_ALL_TOOLS && negb true); reflexivity. }
      rewrite Hsame. split; [reflexivity|]. split; [reflexivity|].
      split; [reflexivity|]. intros schema Hs. discriminate.
  - assert (Hsame : fst (addMetadataToTool tool) = tool).
    { unfold addMetadataToTool. rewrite Hmcp. reflexivity. }
    rewrite Hsame. split; [reflexivity|]. split; [reflexivity|].
    split; [reflexivity|].
    intros schema Hschema. exists schema. split; [exact Hschema|].
    split; [reflexivity|]. split; [reflexivity|].
    split.
    + intros props Hprops. exists []. rewrite app_nil_r.
      split; [exact Hprops|]. split; [auto|]. intros k Hk. discriminate.
    + exists []. rewrite app_nil_r. auto.
Qed.

Lemma existing_schema_is_kept_witness :
  exists ts' tool',
    tools (addMetadataToAllTools Scenario.demo_body) = Some ts'
    /\ ts' !! 0%nat = Some tool'
    /\ tool_name tool' = Some "mcp__demo__search".
Proof.
  destruct (existing_schema_is_kept Scenario.demo_body _ 0 _ eq_refl eq_refl)
    as (ts' & tool' & H1 & _ & H2 & H3 & _).
  exists ts', tool'. auto.
Defined.

(** X22: With the feature flag off, a tool whose name does not start with
    [mcp__] passes the rewriter unchanged, and so does everything outside
    the tool list: the messages and the other members of the body. *)
Theorem other_tools_are_untouched (body : Body) :
  messages (addMetadataToAllTools body) = messages body
  /\ body_rest (addMetadataToAllTools body) = body_rest body
  /\ (tools body = None -> addMetadataToAllTools body = body)
  /\ forall ts i tool,
       tools body = Some ts ->
       ts !! i = Some tool ->
       isMcpTool tool = false ->
       exists ts', tools (addMetadataToAllTools body) = Some ts' /\ ts' !! i = Some tool.
Proof.
  split; [|split; [|split]].
  - unfold addMetadataToAllTools. destruct (tools body); reflexivity.
  - unfold addMetadataToAllTools. destruct (tools body); reflexivity.
  - intros Hnone. unfold addMetadataToAllTools. now rewrite Hnone.
  - intros ts i tool Hts Hi Hmcp.
    destruct (tool_after body ts i tool Hts Hi) as (ts' & Htools & _ & Hlookup).
    exists ts'. split; [exact Htools|]. rewrite Hlookup.
    unfold addMetadataToTool. rewrite Hmcp. reflexivity.
Qed.

End RewriterMore.

(** ** More on the re-injection into the history *)

Module InjectMore.
Import Js Json Fs MetadataStore Rewriter.
Import Wire (injectable).

Section WithStore.
Context `{Runtime}.
Variables (st : ModuleState) (fs : FileSystem).

Local Abbreviation block_result block :=
  (fst (injectIntoBlock st fs (scanned st fs) block)).

Local Abbreviation message_result message :=
  (fst (injectIntoMessage st fs (scanned st fs) message)).

(** What the scan finds for an id is what [toolMetadataStore.get] returns. *)
Lemma lookupStored_get (id : string) :
  fst (lookupStored st fs (Some (readMetadataFile st fs)) id) = get id st fs.
Proof.
  unfold lookupStored, get. destruct (_metadataMap st !! id); reflexivity.
Qed.

Lemma block_result_injectable (block : Block) (id : string) (input : obj json) :
  injectable block id input ->
  block_result block
  = match get id st fs with
    | Some (Entry m) =>
        {| block_type := block_type block; block_id := block_id block;
           block_input := Some (assignMetadata m input);
           block_rest := block_rest block |}
    | Some (Inherited _) | None => block
    end.
Proof.
  intros (Htype & Hid & Hne & Hinput & Hmeta).
  unfold injectIntoBlock, is_tool_use. rewrite Htype, Hid, Hinput, Hmeta.
  change (String.eqb "tool_use" "tool_use") with true.
  assert (Htruthy : opt_str_truthy (Some id) = true).
  { cbn [opt_str_truthy]. unfold str_truthy. apply negb_true_iff, String.eqb_neq. exact Hne. }
  rewrite Htruthy. cbn [negb orb]. cbv iota.
  rewrite <- lookupStored_get.
  destruct (lookupStored st fs (fileMetadata (scanned st fs)) id) as [[[m|name]|] file] eqn:Hlook;
    cbn [fst]; unfold scanned in Hlook; cbn [fileMetadata] in Hlook; rewrite Hlook;
    reflexivity.
Qed.

Lemma block_result_other (block : Block) :
  (forall id input, ~ injectable block id input) ->
  block_result block = block.
Proof.
  intros Hnot. unfold injectIntoBlock.
  destruct (is_tool_use block) eqn:Htype; [|reflexivity].
  destruct (opt_str_truthy (block_id block)) eqn:Hid; [|reflexivity].
  cbn [negb orb]. cbv iota.
  destruct (block_id block) as [id|] eqn:Hbid; [|reflexivity].
  destruct (block_input block) as [input|] eqn:Hinput; [|reflexivity].
  destruct (has_metadata input) eqn:Hmeta; [reflexivity|].
  exfalso. apply (Hnot id input). unfold injectable.
  unfold is_tool_use in Htype. destruct (block_type block) as [t|]; [|discriminate].
  apply String.eqb_eq in Htype. subst t.
  split; [reflexivity|]. split; [exact Hbid|].
  split; [|split; [exact Hinput | exact Hmeta]].
  intros ->. discriminate.
Qed.

(** The message at a position of the rewritten body. *)
Lemma message_after (body : Body) (msgs : list Message) (i : nat) (message : Message) :
  messages body = Some msgs ->
  msgs !! i = Some message ->
  exists msgs',
    messages (injectMetadataIntoHistory st fs body) = Some msgs'
    /\ length msgs' = length msgs
    /\ msgs' !! i = Some (message_result message).
Proof.
  intros Hmsgs Hi. unfold injectMetadataIntoHistory. rewrite Hmsgs. cbn [messages].
  eexists. split; [reflexivity|].
  destruct (InjectFacts.injectIntoMessages_scan st fs msgs
              {| fileMetadata := None; injectedCount := O |}) as [Hmap _];
    [left; reflexivity|].
  rewrite Hmap. split; [apply length_map|].
  change (List.map ?f msgs) with (f <$> msgs).
  rewrite list_lookup_fmap, Hi. reflexivity.
Qed.

Lemma message_result_assistant (message : Message) (blocks : list Block) :
  role message = Some "assistant" ->
  content message = Some blocks ->
  message_result message
  = {| role := role message;
       content := Some ((fun block => block_result block) <$> blocks);
       message_rest := message_rest message |}.
Proof.
  intros Hrole Hcontent. unfold injectIntoMessage. rewrite Hrole, Hcontent.
  change (String.eqb "assistant" "assistant") with true. cbv iota.
  destruct (InjectFacts.injectIntoBlocks_scan st fs blocks (scanned st fs)
              (InjectFacts.scanned_reads st fs)) as [Hmap _].
  destruct (injectIntoBlocks st fs (scanned st fs) blocks) as [blocks' scan'].
  cbn [fst] in *. now rewrite Hmap.
Qed.

Lemma message_result_other (message : Message) :
  role message <> Some "assistant" \/ content message = None ->
  message_result message = message.
Proof.
  intros Hother. unfold injectIntoMessage.
  destruct (role message) as [r|]; [|reflexivity].
  destruct (content message) as [blocks|]; [|reflexivity].
  destruct (String.eqb r "assistant") eqn:Hr; [|reflexivity].
  apply String.eqb_eq in Hr. subst r.
  destruct Hother as [Hrole|Hcontent]; congruence.
Qed.

Lemma assignMetadata_spec (m : ToolMetadata) (input : obj json) :
  has_metadata input = false ->
  obj_get "_intent" (assignMetadata m input)
  = (if opt_str_truthy (intent m) then JStr <$> intent m else None)
  /\ obj_get "_displayName" (assignMetadata m input)
     = (if opt_str_truthy (displayName m) then JStr <$> displayName m else None)
  /\ forall k v, obj_get k input = Some v -> obj_get k (assignMetadata m input) = Some v.
Proof.
  intros Hmeta. unfold has_metadata in Hmeta. apply orb_false_iff in Hmeta as [Hi Hd].
  apply RewriterMore.obj_has_false in Hi. apply RewriterMore.obj_has_false in Hd.
  unfold assignMetadata.
  destruct (intent m) as [i|]; destruct (displayName m) as [d|]; cbn [opt_str_truthy fmap option_fmap option_map];
    try destruct (str_truthy i) eqn:Hti; try destruct (str_truthy d) eqn:Htd;
    repeat split;
    rewrite ?RewriterMore.obj_get_set_same;
    rewrite ?(RewriterMore.obj_get_set_other "_intent" "_displayName") by discriminate;
    rewrite ?(RewriterMore.obj_get_set_other "_displayName" "_intent") by discriminate;
    rewrite ?RewriterMore.obj_get_set_same;
    try reflexivity; try assumption;
    intros k v Hk;
    (assert (Hki : k <> "_intent") by (intros ->; congruence));
    (assert (Hkd : k <> "_displayName") by (intros ->; congruence));
    rewrite ?RewriterMore.obj_get_set_other by assumption; exact Hk.
Qed.


(** X24: The re-injection changes nothing else: the tools and the other
    members of the body, the number and the order of the messages and of
    their blocks, the messages of other roles, and every block that is not
    a [tool_use] block with an id and an input free of metadata. *)
Theorem history_is_otherwise_untouched (body : Body) :
  tools (injectMetadataIntoHistory st fs body) = tools body
  /\ body_rest (injectMetadataIntoHistory st fs body) = body_rest body
  /\ (messages body = None -> injectMetadataIntoHistory st fs body = body)
  /\ forall msgs i message,
       messages body = Some msgs ->
       msgs !! i = Some message ->
       exists msgs' message',
         messages (injectMetadataIntoHistory st fs body) = Some msgs'
         /\ length msgs' = length msgs
         /\ msgs' !! i = Some message'
         /\ role message' = role message
         /\ message_rest message' = message_rest message
         /\ (role message <> Some "assistant" \/ content message = None -> message' = message)
         /\ forall blocks j block,
              content message = Some blocks ->
              blocks !! j = Some block ->
              exists blocks' block',
                content message' = Some blocks'
                /\ length blocks' = length blocks
                /\ blocks' !! j = Some block'
                /\ ((forall id input, ~ injectable block id input) -> block' = block).
Proof.
  split; [|split; [|split]].
  - unfold injectMetadataIntoHistory. destruct (messages body); reflexivity.
  - unfold injectMetadataIntoHistory. destruct (messages body); reflexivity.
  - intros Hnone. unfold injectMetadataIntoHistory. now rewrite Hnone.
  - intros msgs i message Hmsgs Hi.
    destruct (message_after body msgs i message Hmsgs Hi) as (msgs' & Hmsgs' & Hlen & Hlookup).
    exists msgs', (message_result message).
    split; [exact Hmsgs'|]. split; [exact Hlen|]. split; [exact Hlookup|].
    destruct (decide (role message = Some "assistant")) as [Hrole|Hrole].
    + destruct (content message) as [blocks|] eqn:Hcontent.
      * rewrite (message_result_assistant message blocks Hrole Hcontent).
        cbn [role message_rest content].
        split; [reflexivity|]. split; [reflexivity|].
        split; [intros [Hno|Hno]; congruence|].
        intros blocks0 j block Hb0 Hj. injection Hb0 as <-.
        eexists _, (block_result block). split; [reflexivity|].
        split; [apply length_fmap|].
        split; [rewrite list_lookup_fmap, Hj; reflexivity|].
        apply block_result_other.
      * rewrite message_result_other by (right; exact Hcontent).
        split; [reflexivity|]. split; [reflexivity|]. split; [reflexivity|].
        intros blocks j block Hb. congruence.
    + rewrite message_result_other by (left; exact Hrole).
      split; [reflexivity|]. split; [reflexivity|]. split; [reflexivity|].
      intros blocks j block Hb Hj. exists blocks, block.
      split; [exact Hb|]. split; [reflexivity|]. split; [exact Hj | reflexivity].
Qed.

End WithStore.


End InjectMore.

(** ** More on the SSE transform *)

Module SseMore.
Import Js Json Fs Sse Wire.

Lemma obj_get_delete_same {A} (k : string) (o : obj A) : obj_get k (obj_delete k o) = None.
Proof.
  induction o as [|[k0 v0] o IH]; [reflexivity|].
  cbn [obj_delete]. destruct (String.eqb k k0) eqn:Hk; [exact IH|].
  cbn [obj_get]. now rewrite Hk.
Qed.

Lemma obj_get_delete_other {A} (k k' : string) (o : obj A) :
  k <> k' -> obj_get k (obj_delete k' o) = obj_get k o.
Proof.
  intros Hne. induction o as [|[k0 v0] o IH]; [reflexivity|].
  cbn [obj_delete obj_get]. destruct (String.eqb k' k0) eqn:Hk0.
  - apply String.eqb_eq in Hk0. subst k0.
    apply String.eqb_neq in Hne. now rewrite Hne.
  - cbn [obj_get]. now rewrite IH.
Qed.

Lemma obj_delete_sublist {A} (k : string) (o : obj A) : sublist (obj_delete k o) o.
Proof.
  induction o as [|[k0 v0] o IH]; [constructor|].
  cbn [obj_delete]. destruct (String.eqb k k0); [now apply sublist_cons | now apply sublist_skip].
Qed.

Lemma stored_app (a b : list Action) : stored (a ++ b) = stored a ++ stored b.
Proof.
  induction a as [|[chunk|i intent displayName] a IH]; cbn [app stored];
    rewrite ?IH; reflexivity.
Qed.

Section WithRuntime.
Context `{Runtime}.

Lemma processEvents_split (a b : list SseEvent) (tracked : TrackedBlocks) :
  processEvents (a ++ b) tracked
  = '(tracked1, acts1) ← processEvents a tracked;
    '(tracked2, acts2) ← processEvents b tracked1;
    Some (tracked2, acts1 ++ acts2).
Proof.
  revert tracked. induction a as [|e a IH]; intros tracked.
  - cbn [app processEvents mbind option_bind].
    destruct (processEvents b tracked) as [[tracked2 acts2]|]; reflexivity.
  - cbn [app processEvents].
    destruct (processEvent (eventType e) (dataStr e) tracked) as [[tracked1 acts1]|];
      [|reflexivity].
    cbn [mbind option_bind]. rewrite IH.
    destruct (processEvents a tracked1) as [[tracked2 acts2]|]; [|reflexivity].
    cbn [mbind option_bind].
    destruct (processEvents b tracked2) as [[tracked3 acts3]|]; [|reflexivity].
    cbn [mbind option_bind]. now rewrite app_assoc.
Qed.

(** The fragments of a tracked block are withheld and put together in its
    buffer, in the order of their arrival. *)
Lemma fragments_are_withheld (n : Z) (deltas : list (string * string)) :
  Forall (fun d => carries n (fst d) (snd d)) deltas ->
  forall block,
    processEvents (delta_events deltas) [(Some (JNum n), block)]
    = Some ([(Some (JNum n),
              {| id := id block; name := name block; index := index block;
                 bufferedJson := bufferedJson block +:+ concat_chunks (snd <$> deltas) |})],
            []).
Proof.
  unfold delta_events.
  induction 1 as [|[text fragment] deltas Hd _ IH]; intros block.
  - cbn [fmap list_fmap processEvents concat_chunks foldr].
    rewrite SseChunkFacts.append_empty_r. now destruct block.
  - destruct Hd as (data & Hparse & Hindex & Htype & Hfragment).
    cbn [fst snd] in *. cbn [fmap list_fmap processEvents eventType dataStr fst snd].
    unfold processEvent. rewrite Hparse.
    change (String.eqb "content_block_delta" "content_block_start") with false.
    change (String.eqb "content_block_delta" "content_block_delta") with true.
    cbv iota.
    rewrite (BlockFacts.get_prop_of_object _ _ _ Hindex),
      (BlockFacts.get_prop_sibling _ _ "delta" _ Hindex).
    cbn [mbind option_bind]. rewrite Htype.
    cbn [is_str map_get same_value_zero]. rewrite Z.eqb_refl.
    change (String.eqb "input_json_delta" "input_json_delta") with true. cbv iota.
    cbn [map_set same_value_zero]. rewrite Z.eqb_refl.
    unfold partial_json_text. rewrite Hfragment. cbn [to_string mbind option_bind].
    change (list_fmap _ _ ?f deltas) with (f <$> deltas).
    rewrite IH. cbn [mbind option_bind id name index bufferedJson app].
    cbn [concat_chunks foldr]. fold (concat_chunks (snd <$> deltas)).
    now rewrite SseChunkFacts.append_assoc.
Qed.

(** The stop event of a tracked block releases its buffer and ends the
    tracking. *)
Lemma block_is_released (n : Z) (block : TrackedToolBlock)
    (deltas : list (string * string)) (stopData : string) :
  bufferedJson block = "" ->
  Forall (fun d => carries n (fst d) (snd d)) deltas ->
  stops n stopData ->
  processEvents (delta_events deltas ++ [stop_event stopData]) [(Some (JNum n), block)]
  = Some ([],
          emitBufferedBlock
            {| id := id block; name := name block; index := index block;
               bufferedJson := concat_chunks (snd <$> deltas) |} (Some (JNum n))
          ++ [emitSseEvent "content_block_stop" stopData]).
Proof.
  intros Hempty Hdeltas (data & Hparse & Hindex).
  rewrite processEvents_split, (fragments_are_withheld n deltas Hdeltas block).
  cbn [mbind option_bind]. rewrite Hempty.
  change ("" +:+ concat_chunks (snd <$> deltas)) with (concat_chunks (snd <$> deltas)).
  cbn [processEvents stop_event eventType dataStr]. unfold processEvent. rewrite Hparse.
  change (String.eqb "content_block_stop" "content_block_start") with false.
  change (String.eqb "content_block_stop" "content_block_delta") with false.
  change (String.eqb "content_block_stop" "content_block_stop") with true.
  cbv iota. rewrite (BlockFacts.get_prop_of_object _ _ _ Hindex). cbn [mbind option_bind].
  cbn [map_get map_delete same_value_zero]. rewrite Z.eqb_refl.
  cbn [mbind option_bind]. now rewrite app_nil_r.
Qed.


(** X26: A tool input that does not parse, such as one that breaks off in the
    middle, is not lost: the stop event releases the text of the
    fragments as it arrived, in one fragment, and the store is not
    called. *)
Theorem unparseable_input_is_passed_on (n : Z) (block : TrackedToolBlock)
    (deltas : list (string * string)) (stopData : string) :
  bufferedJson block = "" ->
  Forall (fun d => carries n (fst d) (snd d)) deltas ->
  stops n stopData ->
  concat_chunks (snd <$> deltas) <> "" ->
  JSON_parse (concat_chunks (snd <$> deltas)) = None
  \/ JSON_parse (concat_chunks (snd <$> deltas)) = Some JNull ->
  processEvents (delta_events deltas ++ [stop_event stopData]) [(Some (JNum n), block)]
  = Some ([],
          [emitSseEvent "content_block_delta"
             (JSON_stringify (deltaEvent (Some (JNum n)) (concat_chunks (snd <$> deltas))));
           emitSseEvent "content_block_stop" stopData]).
Proof.
  intros Hempty Hdeltas Hstop Hne Hparse.
  rewrite (block_is_released n block deltas stopData Hempty Hdeltas Hstop).
  unfold emitBufferedBlock. cbn [bufferedJson].
  assert (Htruthy : str_truthy (concat_chunks (snd <$> deltas)) = true).
  { unfold str_truthy. apply negb_true_iff, String.eqb_neq. exact Hne. }
  rewrite Htruthy. cbn [negb]. cbv iota.
  destruct Hparse as [-> | ->]; reflexivity.
Qed.


End WithRuntime.

Ltac carried :=
  eexists; split; [vm_compute; reflexivity|]; repeat split; vm_compute; reflexivity.


Lemma unparseable_input_is_passed_on_witness :
  enqueued <$> (snd <$> processEvents (delta_events Scenario.truncated_deltas
                                       ++ [stop_event Scenario.tool_stream_stop])
                          [(Some (JNum 0), Scenario.tracked_search_block)])
  = Some [sseText "content_block_delta"
            (lit "{'type':'content_block_delta','index':0,'delta':{'type':'input_json_delta','partial_json':'{\'foo\':'}}");
          sseText "content_block_stop" Scenario.tool_stream_stop].
Proof.
  rewrite (unparseable_input_is_passed_on (H := reference) 0 Scenario.tracked_search_block
             Scenario.truncated_deltas Scenario.tool_stream_stop
             eq_refl
             ltac:(repeat constructor; carried)
             ltac:(carried)
             ltac:(vm_compute; discriminate)
             ltac:(left; vm_compute; reflexivity)).
  vm_compute. reflexivity.
Defined.


(** *** Lines *)

Local Abbreviation complete text := (fst (pop (split_lines text))).
Local Abbreviation partial text := (default "" (snd (pop (split_lines text)))).
Local Abbreviation cr := (String "013" "").

Lemma split_one_line (line rest : string) :
  one_line line = true ->
  complete (line +:+ newline +:+ rest) = line :: complete rest
  /\ partial (line +:+ newline +:+ rest) = partial rest.
Proof.
  unfold newline. induction line as [|c line IH]; intros Hline.
  - change ("" +:+ String "010" "" +:+ rest) with (String "010" rest).
    apply SseChunkFacts.split_newline.
  - cbn [one_line] in Hline. apply andb_true_iff in Hline as [Hc Hline].
    apply negb_true_iff in Hc. rewrite SseChunkFacts.append_cons.
    destruct (SseChunkFacts.split_other c (line +:+ String "010" "" +:+ rest) Hc)
      as [Hcomplete Hpartial].
    destruct (IH Hline) as [IHc IHp].
    rewrite Hcomplete, Hpartial, IHc. split; [reflexivity | exact IHp].
Qed.

Lemma split_unlines (lines : list string) (rest : string) :
  Forall (fun line => one_line line = true) lines ->
  complete (unlines lines +:+ rest) = lines ++ complete rest
  /\ partial (unlines lines +:+ rest) = partial rest.
Proof.
  induction 1 as [|line lines Hline _ IH]; [split; reflexivity|].
  cbn [unlines]. rewrite !SseChunkFacts.append_assoc.
  destruct (split_one_line line (unlines lines +:+ rest) Hline) as [Hc Hp].
  destruct IH as [IHc IHp].
  rewrite Hc, Hp, IHc. split; [reflexivity | exact IHp].
Qed.

Lemma drop_prefix_none (p s : string) :
  starts_with p s = false -> drop_prefix p s = None.
Proof.
  unfold starts_with. revert s. induction p as [|a p IH]; intros s;
    [destruct s; discriminate|].
  destruct s as [|b s]; [reflexivity|]. cbn [String.prefix drop_prefix].
  destruct (ascii_dec a b) as [->|Hne].
  - rewrite Ascii.eqb_refl. apply IH.
  - intros _. apply Ascii.eqb_neq in Hne. now rewrite Hne.
Qed.

Lemma crlf_lines (text : string) :
  complete (crlf text) = (fun line => line +:+ cr) <$> complete text
  /\ partial (crlf text) = partial text.
Proof.
  induction text as [|c text [IHc IHp]]; [split; reflexivity|].
  cbn [crlf]. destruct (Ascii.eqb c "010") eqn:Hc.
  - apply Ascii.eqb_eq in Hc. subst c.
    destruct (SseChunkFacts.split_other "013" (String "010" (crlf text)) eq_refl)
      as [Hcomplete Hpartial].
    destruct (SseChunkFacts.split_newline (crlf text)) as [Hnc Hnp].
    destruct (SseChunkFacts.split_newline text) as [Htc Htp].
    rewrite Hcomplete, Hpartial, Hnc, Hnp, Htc, Htp, IHc.
    split; [reflexivity | exact IHp].
  - destruct (SseChunkFacts.split_other c (crlf text) Hc) as [Hcomplete Hpartial].
    destruct (SseChunkFacts.split_other c text Hc) as [Htc Htp].
    rewrite Hcomplete, Hpartial, Htc, Htp, IHc, IHp.
    destruct (complete text) as [|line lines]; split; reflexivity.
Qed.

Lemma crlf_append (a b : string) : crlf (a +:+ b) = crlf a +:+ crlf b.
Proof.
  induction a as [|c a IH]; [reflexivity|].
  rewrite SseChunkFacts.append_cons. cbn [crlf].
  destruct (Ascii.eqb c "010"); rewrite IH; reflexivity.
Qed.

Section Lines.
Context `{Runtime}.

Lemma processLines_skip (line : string) (lines : list string) (st : StreamState) :
  processLine line st = Some (st, []) ->
  processLines (line :: lines) st = processLines lines st.
Proof.
  intros Hline. cbn [processLines]. rewrite Hline. cbn [mbind option_bind].
  destruct (processLines lines st) as [[st2 acts2]|]; reflexivity.
Qed.

Lemma processLine_other_field (line : string) (st : StreamState) :
  other_field line = true -> processLine line st = Some (st, []).
Proof.
  unfold other_field. intros Hline.
  apply andb_true_iff in Hline as [Hline Hdata].
  apply andb_true_iff in Hline as [Hblank Hevent].
  apply negb_true_iff in Hdata. apply negb_true_iff in Hevent.
  unfold str_truthy in Hblank. apply negb_true_iff in Hblank.
  unfold processLine. rewrite Hblank. unfold match_field.
  now rewrite (drop_prefix_none _ _ Hevent), (drop_prefix_none _ _ Hdata).
Qed.

Lemma processLine_cr (line : string) (st : StreamState) :
  processLine (line +:+ cr) st = processLine line st.
Proof. unfold processLine. now rewrite TextFacts.trim_cr. Qed.

Lemma processLines_cr (lines : list string) :
  forall st, processLines ((fun line => line +:+ cr) <$> lines) st = processLines lines st.
Proof.
  induction lines as [|line lines IH]; intros st; [reflexivity|].
  cbn [fmap list_fmap processLines]. rewrite processLine_cr.
  destruct (processLine line st) as [[st1 acts1]|]; [|reflexivity].
  cbn [mbind option_bind].
  change (list_fmap _ _ ?f lines) with (f <$> lines). now rewrite IH.
Qed.

Lemma pipeThrough_transform (a b : string) :
  transform a initial = transform b initial -> pipeThrough [a] = pipeThrough [b].
Proof. intros Hab. unfold pipeThrough. cbn [transformAll]. now rewrite Hab. Qed.

(** X28: A line that is neither blank nor an [event:] or [data:] field (a
    comment, an [id:] or a [retry:] field) does not reach the output and
    changes nothing: the stream is transformed as if the line were not
    there. *)
Theorem other_fields_are_dropped (lines : list string) (line rest : string) :
  Forall (fun l => one_line l = true) lines ->
  one_line line = true ->
  other_field line = true ->
  pipeThrough [unlines lines +:+ line +:+ newline +:+ rest]
  = pipeThrough [unlines lines +:+ rest].
Proof.
  intros Hlines Hline Hother. apply pipeThrough_transform.
  rewrite !SseChunkFacts.transform_unfold.
  change (lineBuffer initial +:+ ?text) with text.
  destruct (split_unlines lines (line +:+ newline +:+ rest) Hlines) as [Hc1 Hp1].
  destruct (split_unlines lines rest Hlines) as [Hc2 Hp2].
  destruct (split_one_line line rest Hline) as [Hc3 Hp3].
  rewrite Hc1, Hp1, Hc2, Hp2, Hc3, Hp3.
  rewrite !SseChunkFacts.processLines_app.
  destruct (processLines lines (withLineBuffer (partial rest) initial)) as [[st1 acts1]|];
    [|reflexivity].
  cbn [mbind option_bind].
  now rewrite (processLines_skip line _ st1 (processLine_other_field line st1 Hother)).
Qed.

(** X29: Line ends: a stream whose lines end in CR LF is transformed as the
    same stream with lines ending in LF, however it is cut into chunks;
    the output has LF line ends in both cases. *)
Theorem crlf_is_read_as_lf (text : string) (chunks : list string) :
  concat_chunks chunks = crlf text ->
  pipeThrough chunks = pipeThrough [text].
Proof.
  intros Hchunks. rewrite SseChunkFacts.pipeThrough_concat, Hchunks.
  apply pipeThrough_transform. rewrite !SseChunkFacts.transform_unfold.
  change (lineBuffer initial +:+ ?t) with t.
  destruct (crlf_lines text) as [Hc Hp]. rewrite Hc, Hp.
  apply processLines_cr.
Qed.

End Lines.

Lemma other_fields_are_dropped_witness :
  pipeThrough [unlines [": keep-alive"] +:+ "id: 7" +:+ newline +:+ Scenario.tool_stream]
  = pipeThrough [unlines [": keep-alive"] +:+ Scenario.tool_stream].
Proof.
  exact (other_fields_are_dropped (H := reference) [": keep-alive"] "id: 7"
           Scenario.tool_stream ltac:(repeat constructor) eq_refl eq_refl).
Defined.

Lemma crlf_is_read_as_lf_witness :
  pipeThrough (one_byte_chunks (crlf Scenario.tool_stream)) = pipeThrough [Scenario.tool_stream].
Proof.
  exact (crlf_is_read_as_lf (H := reference) Scenario.tool_stream
           (one_byte_chunks (crlf Scenario.tool_stream))
           ltac:(vm_compute; reflexivity)).
Defined.

End SseMore.

(** ** From the response stream back into the next request *)

Module FeedbackLoop.
Import Js Json Fs MetadataStore Rewriter.
Import Wire (injectable, stored).

Section WithRuntime.
Context `{Runtime}.

Lemma run_store_stored (now : Z) (acts : list Sse.Action) :
  forall (st : ModuleState) (fs : FileSystem),
    Sse.run_store now acts st fs
    = foldl (fun w e =>
               set (to_string (fst (fst e)))
                 {| intent := snd (fst e); displayName := snd e; timestamp := now |}
                 (fst w) (snd w))
        (st, fs) (stored acts).
Proof.
  unfold Sse.run_store. intros st fs. generalize (st, fs) as w. clear st fs.
  induction acts as [|[chunk|i intent displayName] acts IH]; intros w;
    cbn [foldl stored fst snd]; [reflexivity | apply IH | apply IH].
Qed.

(** Calls for other ids leave the entry of an id in memory as it is. *)
Lemma other_sets_keep (now : Z) (id : string)
    (later : list (json * option string * option string)) :
  Forall (fun e => to_string (fst (fst e)) <> id) later ->
  forall w : ModuleState * FileSystem,
    _metadataMap
      (fst (foldl (fun w e =>
                     set (to_string (fst (fst e)))
                       {| intent := snd (fst e); displayName := snd e; timestamp := now |}
                       (fst w) (snd w))
              w later)) !! id
    = _metadataMap (fst w) !! id.
Proof.
  induction 1 as [|e later He _ IH]; intros w; [reflexivity|].
  cbn [foldl]. rewrite IH. unfold set. cbn [fst _metadataMap].
  now apply lookup_insert_ne.
Qed.


End WithRuntime.


End FeedbackLoop.

(** ** The round trip of a tool call: through the transform, back into
    content blocks, and into the store *)

Module RoundTrip.
Import Js Json Fs Sse Wire.

Lemma split_lines_parts (text : string) :
  split_lines text
  = fst (pop (split_lines text)) ++ [default "" (snd (pop (split_lines text)))].
Proof.
  destruct (SseChunkFacts.split_lines_cons text) as (line & lines & ->).
  revert line. induction lines as [|line' lines IH]; intros line; [reflexivity|].
  rewrite SseChunkFacts.pop_cons. cbn [fst snd app]. now rewrite <- IH.
Qed.

Section WithRuntime.
Context `{Runtime}.

Local Abbreviation emitted events :=
  ((fun e : SseEvent => emitSseEvent (eventType e) (dataStr e)) <$> events).

(** *** The transform on the events of the stream *)

(** With no block tracked, an event that opens no tool-use block goes out
    as it came and leaves no block tracked. *)
Lemma passes_through (e : SseEvent) :
  standard_event e = true ->
  opens_tool_use e = false ->
  processEvent (eventType e) (dataStr e) []
  = Some ([], [emitSseEvent (eventType e) (dataStr e)]).
Proof.
  intros He Hopen. unfold standard_event in He. apply andb_true_iff in He as [_ Hdata].
  unfold is_block_event in Hdata. unfold opens_tool_use in Hopen. unfold processEvent.
  destruct (JSON_parse (dataStr e)) as [data|]; [|reflexivity].
  destruct (String.eqb (eventType e) "content_block_start") eqn:Hstart.
  { assert (Hnull : data <> JNull) by (intros ->; discriminate).
    rewrite !(SseFramingFacts.get_prop_defined data) by exact Hnull.
    cbn [mbind option_bind]. cbn [andb] in Hopen.
    unfold is_tool_use_start. rewrite Hopen. reflexivity. }
  destruct (String.eqb (eventType e) "content_block_delta") eqn:Hdelta.
  { assert (Hnull : data <> JNull) by (intros ->; discriminate).
    rewrite !(SseFramingFacts.get_prop_defined data) by exact Hnull.
    cbn [mbind option_bind map_get].
    destruct (is_str (get_prop_opt (get_prop_opt (Some data) "delta") "type") "input_json_delta");
      reflexivity. }
  destruct (String.eqb (eventType e) "content_block_stop") eqn:Hstop; [|reflexivity].
  assert (Hnull : data <> JNull) by (intros ->; discriminate).
  rewrite !(SseFramingFacts.get_prop_defined data) by exact Hnull.
  reflexivity.
Qed.

Lemma events_pass_through (events : list SseEvent) :
  Forall (fun e => standard_event e = true) events ->
  Forall (fun e => opens_tool_use e = false) events ->
  processEvents events [] = Some ([], emitted events).
Proof.
  induction 1 as [|e events He _ IH]; intros Hopen; [reflexivity|].
  apply Forall_cons in Hopen as [Hopen Hrest].
  cbn [processEvents]. rewrite (passes_through e He Hopen). cbn [mbind option_bind].
  rewrite (IH Hrest). reflexivity.
Qed.

(** The start of the tool call puts its block under tracking. *)
Lemma block_is_tracked (n : Z) (toolUseId toolName startData : string) :
  toolUseId <> "" ->
  starts n toolUseId toolName startData ->
  processEvent "content_block_start" startData []
  = Some ([(Some (JNum n),
            {| id := JStr toolUseId; name := JStr toolName; index := Some (JNum n);
               bufferedJson := "" |})],
          [emitSseEvent "content_block_start" startData]).
Proof.
  intros Hid (data & Hparse & Hindex & Htype & Hbid & Hname).
  unfold processEvent. rewrite Hparse.
  change (String.eqb "content_block_start" "content_block_start") with true. cbv iota.
  rewrite (BlockFacts.get_prop_sibling _ _ "content_block" _ Hindex),
    (BlockFacts.get_prop_of_object _ _ _ Hindex).
  cbn [mbind option_bind].
  unfold is_tool_use_start. rewrite Htype, Hbid, Hname.
  cbn [is_str opt_truthy truthy default from_option].
  change (String.eqb "tool_use" "tool_use") with true.
  apply String.eqb_neq in Hid. rewrite Hid. reflexivity.
Qed.

(** The stop of the tool call stores the metadata and releases the clean
    input. *)
Lemma metadata_is_taken_out (block : TrackedToolBlock) (index : option json) :
  bufferedJson block = metadata_input_text ->
  JSON_parse metadata_input_text = Some metadata_input ->
  emitBufferedBlock block index
  = [StoreSet (id block) (Some "x") (Some "y");
     emitSseEvent "content_block_delta"
       (JSON_stringify (deltaEvent index (JSON_stringify clean_input)))].
Proof.
  intros Hbuffer Hparse. unfold emitBufferedBlock. rewrite Hbuffer, Hparse.
  change (str_truthy metadata_input_text) with true.
  reflexivity.
Qed.

(** The event the transform makes up for the block at index [n]. *)
Local Abbreviation synthetic n :=
  {| eventType := "content_block_delta";
     dataStr := JSON_stringify (deltaEvent (Some (JNum n)) (JSON_stringify clean_input)) |}.

(** What the transform does on the events of a response with one tool
    call. *)
Lemma tool_call_events (n : Z) (toolUseId toolName : string) (before after : list SseEvent)
    (startData stopData : string) (deltas : list (string * string)) :
  toolUseId <> "" ->
  starts n toolUseId toolName startData ->
  Forall (fun d => carries n (fst d) (snd d)) deltas ->
  concat_chunks (snd <$> deltas) = metadata_input_text ->
  stops n stopData ->
  Forall (fun e => standard_event e = true) (before ++ after) ->
  Forall (fun e => opens_tool_use e = false) (before ++ after) ->
  JSON_parse metadata_input_text = Some metadata_input ->
  exists acts,
    processEvents (tool_call before startData deltas stopData after) [] = Some ([], acts)
    /\ enqueued acts
       = frame <$> (before ++ start_event startData :: synthetic n :: stop_event stopData
                    :: after)
    /\ stored acts = [(JStr toolUseId, Some "x", Some "y")].
Proof.
  intros Hid Hstart Hdeltas Hconcat Hstop Hstandard Hopen Hparse.
  apply Forall_app in Hstandard as [Hsb Hsa]. apply Forall_app in Hopen as [Hob Hoa].
  unfold tool_call.
  rewrite SseMore.processEvents_split, (events_pass_through before Hsb Hob).
  cbn [mbind option_bind processEvents start_event eventType dataStr].
  rewrite (block_is_tracked n toolUseId toolName startData Hid Hstart).
  cbn [mbind option_bind].
  change (delta_events deltas ++ stop_event stopData :: after)
    with (delta_events deltas ++ [stop_event stopData] ++ after).
  rewrite app_assoc, SseMore.processEvents_split.
  rewrite (SseMore.block_is_released n
             {| id := JStr toolUseId; name := JStr toolName; index := Some (JNum n);
                bufferedJson := "" |} deltas stopData eq_refl Hdeltas Hstop).
  cbn [mbind option_bind id name index].
  rewrite (events_pass_through after Hsa Hoa). cbn [mbind option_bind].
  rewrite (metadata_is_taken_out
             {| id := JStr toolUseId; name := JStr toolName; index := Some (JNum n);
                bufferedJson := concat_chunks (snd <$> deltas) |} (Some (JNum n))
             Hconcat Hparse).
  cbn [id].
  eexists. split; [reflexivity|]. split.
  - rewrite !SseFramingFacts.enqueued_app.
    assert (Hemitted : forall events, enqueued (emitted events) = frame <$> events).
    { induction events as [|e events IH]; [reflexivity|].
      cbn [fmap list_fmap enqueued emitSseEvent]. f_equal. exact IH. }
    cbn [enqueued app emitSseEvent]. rewrite !Hemitted, fmap_app. reflexivity.
  - rewrite !SseMore.stored_app.
    assert (Hemitted : forall events, stored (emitted events) = []).
    { induction events as [|e events IH]; [reflexivity|].
      cbn [fmap list_fmap stored emitSseEvent]. exact IH. }
    cbn [stored app emitSseEvent]. rewrite !Hemitted. reflexivity.
Qed.

(** For a stream in the standard framing, however it is cut into chunks,
    the transform does what [processEvent] does on the events. *)
Lemma pipeThrough_events (events : list SseEvent) (chunks : list string) :
  Forall (fun e => standard_event e = true) events ->
  concat_chunks chunks = render events ->
  exists tracked acts,
    processEvents events [] = Some (tracked, acts)
    /\ pipeThrough chunks = Some (acts ++ emitRemaining tracked).
Proof.
  intros Hevents Hchunks.
  rewrite SseChunkFacts.pipeThrough_concat, Hchunks.
  destruct (SseFramingFacts.render_lines events Hevents) as [Hcomplete Hpartial].
  destruct (SseFramingFacts.processLines_render events Hevents (withLineBuffer "" initial))
    as (st' & acts & Hlines & Hevs & Hbuffer).
  cbn [withLineBuffer trackedBlocks lineBuffer initial] in Hevs, Hbuffer.
  exists (trackedBlocks st'), acts. split; [exact Hevs|].
  unfold pipeThrough. cbn [transformAll]. rewrite SseChunkFacts.transform_unfold.
  change (lineBuffer initial +:+ render events) with (render events).
  rewrite Hcomplete, Hpartial, Hlines. cbn [mbind option_bind].
  unfold flush. rewrite Hbuffer.
  change (str_truthy (trim "")) with false. cbv iota. cbn [mbind option_bind].
  now rewrite app_nil_r.
Qed.

Lemma render_frames (events : list SseEvent) :
  foldr String.append "" (frame <$> events) = render events.
Proof.
  induction events as [|e events IH]; [reflexivity|].
  cbn [fmap list_fmap foldr render]. now rewrite <- IH.
Qed.

(** *** The reader on the output *)

Import Consumer.

Lemma readLines_frames (events : list SseEvent) :
  forall r,
    foldl readLine r
      (concat ((fun e => ["event: " +:+ eventType e; "data: " +:+ dataStr e; ""]) <$> events))
    = foldl readFrame r events.
Proof.
  induction events as [|e events IH]; intros r; [reflexivity|].
  cbn [fmap list_fmap concat]. rewrite foldl_app, IH. reflexivity.
Qed.

Lemma readEvent_cleared (r : Reading) :
  eventName (readEvent r) = "" /\ eventData (readEvent r) = "".
Proof.
  unfold readEvent.
  repeat match goal with
         | |- context [match ?x with _ => _ end] => destruct x
         end; split; reflexivity.
Qed.

(** With no block open, an event that opens no tool-use block changes
    nothing. *)
Lemma readFrame_other (r : Reading) (e : SseEvent) :
  open_blocks r = [] ->
  opens_tool_use e = false ->
  open_blocks (readFrame r e) = [] /\ toolInputs (readFrame r e) = toolInputs r.
Proof.
  intros Hblocks Hopen. unfold opens_tool_use in Hopen.
  unfold readFrame, readEvent. cbn [eventName eventData open_blocks toolInputs].
  rewrite Hblocks.
  destruct (JSON_parse (dataStr e)) as [data|]; [|split; reflexivity].
  destruct (String.eqb (eventType e) "content_block_start").
  { cbn [andb] in Hopen. rewrite Hopen. split; reflexivity. }
  destruct (String.eqb (eventType e) "content_block_delta").
  { cbn [find_block].
    destruct (is_str (get_prop_opt (get_prop_opt (Some data) "delta") "type") "input_json_delta");
      split; reflexivity. }
  destruct (String.eqb (eventType e) "content_block_stop"); split; reflexivity.
Qed.

Lemma readFrames_other (events : list SseEvent) :
  Forall (fun e => opens_tool_use e = false) events ->
  forall r,
    open_blocks r = [] ->
    open_blocks (foldl readFrame r events) = []
    /\ toolInputs (foldl readFrame r events) = toolInputs r.
Proof.
  induction 1 as [|e events He _ IH]; intros r Hr; [auto|].
  cbn [foldl]. destruct (readFrame_other r e Hr He) as [Hblocks Hinputs].
  destruct (IH _ Hblocks) as [Hb Hi]. split; [exact Hb | now rewrite Hi].
Qed.

(** The three events of the tool call, read with no block open: the input
    of the call is what the one fragment parses to. *)
Lemma readFrame_tool_call (r : Reading) (n : Z) (toolUseId toolName startData stopData : string) :
  open_blocks r = [] ->
  starts n toolUseId toolName startData ->
  stops n stopData ->
  round_trips clean_input ->
  round_trips (deltaEvent (Some (JNum n)) (JSON_stringify clean_input)) ->
  let r' := readFrame (readFrame (readFrame r (start_event startData)) (synthetic n))
              (stop_event stopData) in
  open_blocks r' = []
  /\ toolInputs r' = toolInputs r ++ [(JStr toolUseId, Some clean_input)].
Proof.
  intros Hblocks (start & Hstart & Hindex & Htype & Hbid & Hname) (stop & Hstop & Hstopindex)
    Hclean Hsynthetic r'. subst r'.
  assert (Hopened : readFrame r (start_event startData)
                    = {| eventName := ""; eventData := "";
                         open_blocks := [(Some (JNum n), (JStr toolUseId, ""))];
                         toolInputs := toolInputs r |}).
  { unfold readFrame, readEvent.
    cbn [start_event eventType dataStr eventName eventData open_blocks toolInputs].
    rewrite Hstart, Hblocks, Hindex, Htype, Hbid.
    reflexivity. }
  rewrite Hopened.
  assert (Hfilled : readFrame
                      {| eventName := ""; eventData := "";
                         open_blocks := [(Some (JNum n), (JStr toolUseId, ""))];
                         toolInputs := toolInputs r |} (synthetic n)
                    = {| eventName := ""; eventData := "";
                         open_blocks :=
                           [(Some (JNum n), (JStr toolUseId, JSON_stringify clean_input))];
                         toolInputs := toolInputs r |}).
  { unfold readFrame, readEvent.
    cbn [eventType dataStr eventName eventData open_blocks toolInputs].
    unfold round_trips in Hsynthetic. rewrite Hsynthetic.
    cbn [deltaEvent app get_prop_opt obj_get String.eqb Ascii.eqb Bool.eqb is_str
         find_block remove_block same_value_zero].
    rewrite Z.eqb_refl. reflexivity. }
  rewrite Hfilled.
  unfold readFrame, readEvent.
  cbn [stop_event eventType dataStr eventName eventData open_blocks toolInputs].
  rewrite Hstop, Hstopindex.
  cbn [String.eqb Ascii.eqb Bool.eqb find_block remove_block same_value_zero].
  rewrite Z.eqb_refl. unfold round_trips in Hclean. rewrite Hclean.
  split; reflexivity.
Qed.

Lemma readFrames_idle (events : list SseEvent) :
  forall r, eventName r = "" -> eventName (foldl readFrame r events) = "".
Proof.
  induction events as [|e events IH]; intros r Hr; [exact Hr|].
  cbn [foldl]. apply IH. unfold readFrame. apply readEvent_cleared.
Qed.

Lemma readEvent_idle (r : Reading) :
  eventName r = "" -> toolInputs (readEvent r) = toolInputs r.
Proof.
  intros Hr. unfold readEvent. rewrite Hr.
  destruct (JSON_parse (eventData r)); reflexivity.
Qed.

(** The tool inputs read from the text of a sequence of events in the
    standard framing. *)
Lemma readToolInputs_render (events : list SseEvent) :
  Forall (fun e => standard_event e = true) events ->
  readToolInputs (render events)
  = toolInputs
      (foldl readFrame
         {| eventName := ""; eventData := ""; open_blocks := []; toolInputs := [] |} events).
Proof.
  intros Hevents. unfold readToolInputs.
  destruct (SseFramingFacts.render_lines events Hevents) as [Hcomplete Hpartial].
  rewrite split_lines_parts, Hcomplete, Hpartial, foldl_app, readLines_frames.
  cbn [foldl]. change (readLine ?r "") with (readEvent r).
  apply readEvent_idle, readFrames_idle. reflexivity.
Qed.

(** The output of a response with one tool call, read back. *)
Lemma readToolInputs_tool_call (n : Z) (toolUseId toolName : string)
    (before after : list SseEvent) (startData stopData : string) :
  starts n toolUseId toolName startData ->
  stops n stopData ->
  Forall (fun e => opens_tool_use e = false) (before ++ after) ->
  Forall (fun e => standard_event e = true)
         (before ++ start_event startData :: synthetic n :: stop_event stopData :: after) ->
  round_trips clean_input ->
  round_trips (deltaEvent (Some (JNum n)) (JSON_stringify clean_input)) ->
  readToolInputs
    (render (before ++ start_event startData :: synthetic n :: stop_event stopData :: after))
  = [(JStr toolUseId, Some clean_input)].
Proof.
  intros Hstart Hstop Hopen Hstandard Hclean Hsynthetic.
  apply Forall_app in Hopen as [Hob Hoa].
  rewrite (readToolInputs_render _ Hstandard), foldl_app.
  destruct (readFrames_other before Hob
              {| eventName := ""; eventData := ""; open_blocks := []; toolInputs := [] |}
              eq_refl) as [Hblocks Hinputs].
  cbn [toolInputs] in Hinputs. cbn [foldl].
  destruct (readFrame_tool_call _ n toolUseId toolName startData stopData
              Hblocks Hstart Hstop Hclean Hsynthetic) as [Hblocks' Hinputs'].
  cbv zeta in Hblocks', Hinputs'.
  destruct (readFrames_other after Hoa _ Hblocks') as [_ Hafter].
  rewrite Hafter, Hinputs', Hinputs. reflexivity.
Qed.


End WithRuntime.


End RoundTrip.
